(** * Workforce management: Erlang C, staffing solver, forecaster, scenario simulator,
      aggregation, data generator

    A shallow embedding of [wfm_math.py], [forecast_and_simulate.py],
    [etl_build_marts.py] and [generate_sample_data.py].
    Python floats are IEEE 754 binary64 numbers, so they are modelled by
    Rocq's primitive floats; Python ints are unbounded and modelled by [Z].
    Exceptions are modelled by an error monad. *)

From Stdlib Require Import ZArith List Bool String Lia Floats.
From Stdlib Require Import Sorted FinFun.
Import ListNotations.
Set Warnings "-inexact-float".
Open Scope Z_scope.

(** ** The Python layer: exceptions, numbers, built-ins *)

Module Py.

Inductive exn : Set :=
| TypeError
| ValueError
| OverflowError
| ZeroDivisionError.

Inductive result (A : Type) : Type :=
| Ok (a : A)
| Raise (e : exn).
Arguments Ok {A} a.
Arguments Raise {A} e.

Definition bind {A B : Type} (c : result A) (k : A -> result B) : result B :=
  match c with
  | Ok a => k a
  | Raise e => Raise e
  end.

(** [for x in xs: acc = body(acc, x)], stopping at the first exception. *)
Fixpoint for_each {A S : Type} (body : S -> A -> result S) (acc : S) (xs : list A)
  : result S :=
  match xs with
  | [] => Ok acc
  | x :: xs' => bind (body acc x) (fun acc' => for_each body acc' xs')
  end.

(** [[f(x) for x in xs]], stopping at the first exception. *)
Fixpoint map_result {A B : Type} (f : A -> result B) (xs : list A) : result (list B) :=
  match xs with
  | [] => Ok []
  | x :: xs' =>
      bind (f x) (fun y => bind (map_result f xs') (fun ys => Ok (y :: ys)))
  end.

(** [range(a, b)] *)
Definition range (a b : Z) : list Z :=
  map (fun i => a + Z.of_nat i) (seq 0 (Z.to_nat (b - a))).

(** The exact integer value of a signed mantissa. *)
Definition signed (s : bool) (m : positive) : Z :=
  if s then Z.neg m else Z.pos m.

(** Python compares a float with an int exactly (no conversion of the int
    to a float); [None] is the unordered case of a NaN. *)
Definition float_cmp_int (x : float) (n : Z) : option comparison :=
  match Prim2SF x with
  | S754_nan => None
  | S754_infinity s => Some (if s then Lt else Gt)
  | S754_zero _ => Some (0 ?= n)
  | S754_finite s m e =>
      if 0 <=? e then Some (signed s m * 2 ^ e ?= n)
      else Some (signed s m ?= n * 2 ^ (- e))
  end.

(** [x <= n] *)
Definition float_le_int (x : float) (n : Z) : bool :=
  match float_cmp_int x n with
  | Some Lt | Some Eq => true
  | _ => false
  end.

(** [x >= n] *)
Definition float_ge_int (x : float) (n : Z) : bool :=
  match float_cmp_int x n with
  | Some Gt | Some Eq => true
  | _ => false
  end.

(** [x > n] *)
Definition float_gt_int (x : float) (n : Z) : bool :=
  match float_cmp_int x n with
  | Some Gt => true
  | _ => false
  end.

(** The float nearest to [m * 2^e] (ties to even), infinite when that
    is out of range. *)
Definition round_to_float (m e : Z) : float :=
  SF2Prim (binary_normalize prec emax m e false).

(** [float(n)], also the implicit conversion of an int operand in mixed
    arithmetic: "OverflowError: int too large to convert to float". *)
Definition float_of_int (n : Z) : result float :=
  let f := round_to_float n 0 in
  if is_infinity f then Raise OverflowError else Ok f.

(** [x / y] on floats: "ZeroDivisionError: float division by zero". *)
Definition truediv (x y : float) : result float :=
  if (y =? 0)%float then Raise ZeroDivisionError else Ok (x / y)%float.

(** [x ** k] for a float [x] and an int [k >= 0] (the only exponents this
    program uses).  CPython hands the operands to the C library's [pow]
    and raises OverflowError when the result is out of range; [pow] is
    modelled by the correctly rounded power. *)
Definition float_pow (x : float) (k : N) : result float :=
  match k with
  | N0 => Ok 1%float
  | Npos p =>
      match Prim2SF x with
      | S754_nan => Ok nan
      | S754_infinity s =>
          Ok (if s && N.odd k then neg_infinity else infinity)
      | S754_zero s => Ok (if s && N.odd k then neg_zero else zero)
      | S754_finite s m e =>
          let r := round_to_float (signed s m ^ Z.pos p) (e * Z.pos p) in
          if is_infinity r then Raise OverflowError else Ok r
      end
  end.

(** The built-ins [max(a, b)] and [min(a, b)]: the first argument is kept
    unless the second is strictly larger (smaller). *)
Definition max (a b : float) : float := if (a <? b)%float then b else a.
Definition min (a b : float) : float := if (b <? a)%float then b else a.

(** [math.ceil(x)] and [math.floor(x)]: exact, an int; a NaN raises
    ValueError and an infinity OverflowError. *)
Definition math_ceil (x : float) : result Z :=
  match Prim2SF x with
  | S754_nan => Raise ValueError
  | S754_infinity _ => Raise OverflowError
  | S754_zero _ => Ok 0
  | S754_finite s m e =>
      if 0 <=? e then Ok (signed s m * 2 ^ e)
      else Ok (- ((- signed s m) / 2 ^ (- e)))
  end.

Definition math_floor (x : float) : result Z :=
  match Prim2SF x with
  | S754_nan => Raise ValueError
  | S754_infinity _ => Raise OverflowError
  | S754_zero _ => Ok 0
  | S754_finite s m e =>
      if 0 <=? e then Ok (signed s m * 2 ^ e)
      else Ok (signed s m / 2 ^ (- e))
  end.

(** [math.factorial(n)]: ValueError on a negative int. *)
Definition math_factorial (n : Z) : result Z :=
  if n <? 0 then Raise ValueError
  else Ok (fold_left Z.mul (range 1 (n + 1)) 1).

(** A float that is neither a NaN nor an infinity. *)
Definition is_finite (x : float) : bool :=
  negb (is_nan x) && negb (is_infinity x).

(** Values passed in a call, parameter lists, and the binding of a call
    whose arguments are all given by keyword. *)
Inductive pyval : Set :=
| PyFloat (f : float)
| PyInt (z : Z).

Definition keywords : Set := list (string * pyval).

Record parameter : Set := mkParameter {
  par_name : string;
  par_default : option pyval
}.

Definition signature : Set := list parameter.

Definition required (name : string) : parameter := mkParameter name None.
Definition optional (name : string) (d : pyval) : parameter :=
  mkParameter name (Some d).

Definition has_parameter (sig : signature) (name : string) : bool :=
  existsb (fun p => String.eqb name (par_name p)) sig.

Fixpoint keyword_value (kw : keywords) (name : string) : option pyval :=
  match kw with
  | [] => None
  | (k, v) :: kw' => if String.eqb k name then Some v else keyword_value kw' name
  end.

Definition bind_keywords (sig : signature) (kw : keywords) : result (list pyval) :=
  if forallb (fun kv => has_parameter sig (fst kv)) kw then
    map_result (fun p =>
                  match keyword_value kw (par_name p), par_default p with
                  | Some v, _ => Ok v
                  | None, Some d => Ok d
                  | None, None => Raise TypeError
                  end) sig
  else Raise TypeError.

(** A float parameter used in arithmetic accepts an int (converted on
    use).  The int parameters ([interval_seconds], [agents]) get an int at
    every call site of this program; a float there is not followed any
    further ([range] raises TypeError on one). *)
Definition as_float (v : pyval) : result float :=
  match v with
  | PyFloat f => Ok f
  | PyInt z => float_of_int z
  end.

Definition as_int (v : pyval) : result Z :=
  match v with
  | PyInt z => Ok z
  | PyFloat _ => Raise TypeError
  end.

End Py.

Import Py.

Open Scope string_scope.
Open Scope list_scope.
Open Scope Z_scope.
Declare Scope py_scope.
Delimit Scope py_scope with py.
Notation "x <- c ;; k" := (bind c (fun x => k))
  (at level 61, c at next level, right associativity) : py_scope.
Open Scope py_scope.

(** ** wfm_math.py *)

Module WfmMath.

Record ErlangResult : Set := mkErlangResult {
  traffic_erlangs : float;
  agents : Z;
  prob_wait : float;
  asa_seconds : float;
  service_level : float
}.

Record StaffingResult : Set := mkStaffingResult {
  available_agents : Z;
  scheduled_agents : Z
}.

Definition _factorial (n : Z) : result float :=
  f <- math_factorial n ;;
  float_of_int f.

(** [(a**k) / _factorial(k)], the term of the sum and of the numerator *)
Definition power_over_factorial (a : float) (k : Z) : result float :=
  p <- float_pow a (Z.to_N k) ;;
  f <- _factorial k ;;
  truediv p f.

Definition erlang_c_prob_wait (traffic_erlangs : float) (agents : Z) : result float :=
  if (agents <=? 0) || float_le_int traffic_erlangs 0 then Ok 1%float
  else if float_ge_int traffic_erlangs agents then Ok 1%float
  else
    let a := traffic_erlangs in
    let n := agents in
    s <- for_each (fun s k => q <- power_over_factorial a k ;; Ok (s + q)%float)
                  0%float (range 0 n) ;;
    q <- power_over_factorial a n ;;
    nf <- float_of_int n ;;
    r <- truediv nf (nf - a)%float ;;
    let numer := (q * r)%float in
    let denom := (s + numer)%float in
    if float_le_int denom 0 then Ok 1%float
    else
      pw <- truediv numer denom ;;
      Ok (max 0 (min 1 pw)).

Definition erlang_c_asa_seconds (traffic_erlangs : float) (agents : Z)
    (aht_seconds : float) : result float :=
  if float_le_int aht_seconds 0 then Ok infinity
  else if agents <=? 0 then Ok infinity
  else if float_le_int traffic_erlangs 0 then Ok 0%float
  else if float_ge_int traffic_erlangs agents then Ok infinity
  else
    pw <- erlang_c_prob_wait traffic_erlangs agents ;;
    nf <- float_of_int agents ;;
    truediv (pw * aht_seconds)%float (max 1e-9 (nf - traffic_erlangs)%float).

Section WithLibm.

(** [math.exp] is the C library's [exp]; the development is parametric
    in it (it may raise OverflowError on a large argument). *)
Variable math_exp : float -> result float.

Definition erlang_c_service_level (traffic_erlangs : float) (agents : Z)
    (aht_seconds threshold_seconds : float) : result float :=
  if float_le_int threshold_seconds 0 then Ok 0%float
  else if float_le_int aht_seconds 0 then Ok 0%float
  else if agents <=? 0 then Ok 0%float
  else if float_le_int traffic_erlangs 0 then Ok 1%float
  else if float_ge_int traffic_erlangs agents then Ok 0%float
  else
    pw <- erlang_c_prob_wait traffic_erlangs agents ;;
    nf <- float_of_int agents ;;
    ratio <- truediv threshold_seconds aht_seconds ;;
    let exponent := (- (nf - traffic_erlangs) * ratio)%float in
    e <- math_exp exponent ;;
    Ok (max 0 (min 1 (1 - pw * e)%float)).

(** [(contacts * aht_seconds) / max(1, interval_seconds)] *)
Definition traffic_of (contacts : float) (interval_seconds : Z)
    (aht_seconds : float) : result float :=
  d <- float_of_int (Z.max 1 interval_seconds) ;;
  truediv (contacts * aht_seconds)%float d.

Definition erlang_metrics (contacts : float) (interval_seconds : Z)
    (aht_seconds : float) (agents : Z) (sla_threshold_seconds : float)
  : result ErlangResult :=
  traffic <- traffic_of contacts interval_seconds aht_seconds ;;
  pw <- erlang_c_prob_wait traffic agents ;;
  asa <- erlang_c_asa_seconds traffic agents aht_seconds ;;
  sl <- erlang_c_service_level traffic agents aht_seconds sla_threshold_seconds ;;
  Ok (mkErlangResult traffic agents pw asa sl).

(** The [for n in range(start, max_agents + 1)] loop of
    [required_agents_for_sla], with its early [return n]; [None] when
    the loop runs to its end. *)
Fixpoint search_sla (traffic aht_seconds sla_threshold_seconds sla_target : float)
    (candidates : list Z) : result (option Z) :=
  match candidates with
  | [] => Ok None
  | n :: rest =>
      sl <- erlang_c_service_level traffic n aht_seconds sla_threshold_seconds ;;
      if (sla_target <=? sl)%float then Ok (Some n)
      else search_sla traffic aht_seconds sla_threshold_seconds sla_target rest
  end.

Definition required_agents_for_sla (contacts : float) (interval_seconds : Z)
    (aht_seconds sla_threshold_seconds sla_target : float) (max_agents : Z)
  : result Z :=
  traffic <- traffic_of contacts interval_seconds aht_seconds ;;
  c <- math_ceil traffic ;;
  let start := Z.max 1 c in
  found <- search_sla traffic aht_seconds sla_threshold_seconds sla_target
             (range start (max_agents + 1)) ;;
  match found with
  | Some n => Ok n
  | None => Ok max_agents
  end.

Definition default_max_agents : Z := 500.

(** [max(0.0, min(0.95, shrinkage_rate))], written out in
    [apply_shrinkage] and in both solvers *)
Definition clamp_shrinkage (shrinkage_rate : float) : float :=
  max 0 (min 0.95 shrinkage_rate).

Definition apply_shrinkage (scheduled_agents shrinkage_rate : float) : float :=
  let r := clamp_shrinkage shrinkage_rate in
  max 0 (scheduled_agents * (1 - r))%float.

Definition erlang_c_summary := erlang_metrics.

(** The tail shared by both solvers:
    [r = max(0.0, min(0.95, shrinkage_rate))] and
    [int(math.ceil(required_available / max(1e-9, (1.0 - r))))]. *)
Definition scheduled_from_available (required_available : Z)
    (shrinkage_rate : float) : result Z :=
  let r := clamp_shrinkage shrinkage_rate in
  af <- float_of_int required_available ;;
  q <- truediv af (max 1e-9 (1 - r)%float) ;;
  math_ceil q.

Definition required_agents_realtime (contacts : float) (interval_seconds : Z)
    (aht_seconds sla_threshold_seconds sla_target shrinkage_rate : float)
  : result StaffingResult :=
  required_available <-
    required_agents_for_sla contacts interval_seconds aht_seconds
      sla_threshold_seconds sla_target default_max_agents ;;
  required_scheduled <- scheduled_from_available required_available shrinkage_rate ;;
  Ok (mkStaffingResult required_available required_scheduled).

Definition required_agents_throughput (contacts : float) (interval_seconds : Z)
    (aht_seconds shrinkage_rate productivity : float) : result StaffingResult :=
  let prod := max 0.1 productivity in
  traffic <- traffic_of contacts interval_seconds aht_seconds ;;
  work <- truediv traffic prod ;;
  required_available <- math_ceil work ;;
  required_scheduled <- scheduled_from_available required_available shrinkage_rate ;;
  Ok (mkStaffingResult required_available required_scheduled).

(** *** Calls by keyword

    Every call site of the simulator passes its arguments by keyword.
    CPython binds them against the callee's parameter list and raises
    TypeError on a keyword that names no parameter, or on a parameter
    left without a value and without a default. *)

Definition signature_realtime : signature :=
  [ required "contacts"; required "interval_seconds"; required "aht_seconds";
    required "sla_threshold_seconds"; required "sla_target";
    optional "shrinkage_rate" (PyFloat 0) ].

Definition signature_throughput : signature :=
  [ required "contacts"; required "interval_seconds"; required "aht_seconds";
    optional "shrinkage_rate" (PyFloat 0); optional "productivity" (PyFloat 1) ].

Definition signature_summary : signature :=
  [ required "contacts"; required "interval_seconds"; required "aht_seconds";
    required "agents"; required "sla_threshold_seconds" ].

Definition call_required_agents_realtime (kw : keywords) : result StaffingResult :=
  args <- bind_keywords signature_realtime kw ;;
  match args with
  | [c; i; a; t; g; s] =>
      c <- as_float c ;; i <- as_int i ;; a <- as_float a ;;
      t <- as_float t ;; g <- as_float g ;; s <- as_float s ;;
      required_agents_realtime c i a t g s
  | _ => Raise TypeError
  end.

Definition call_required_agents_throughput (kw : keywords) : result StaffingResult :=
  args <- bind_keywords signature_throughput kw ;;
  match args with
  | [c; i; a; s; p] =>
      c <- as_float c ;; i <- as_int i ;; a <- as_float a ;;
      s <- as_float s ;; p <- as_float p ;;
      required_agents_throughput c i a s p
  | _ => Raise TypeError
  end.

Definition call_erlang_c_summary (kw : keywords) : result ErlangResult :=
  args <- bind_keywords signature_summary kw ;;
  match args with
  | [c; i; a; n; t] =>
      c <- as_float c ;; i <- as_int i ;; a <- as_float a ;;
      n <- as_int n ;; t <- as_float t ;;
      erlang_c_summary c i a n t
  | _ => Raise TypeError
  end.

End WithLibm.

End WfmMath.

Import WfmMath.


(** ** NumPy and pandas operations used by the forecaster and the simulator *)

Module Np.

(** [np.maximum], [np.minimum]: a NaN operand is propagated. *)
Definition maximum (a b : float) : float :=
  if (b <=? a)%float || is_nan a then a else b.

Definition minimum (a b : float) : float :=
  if (a <=? b)%float || is_nan a then a else b.

(** [np.clip(x, lo, hi)] *)
Definition clip (x lo hi : float) : float := minimum (maximum x lo) hi.

(** The float of a length or of an index (exact: these are small). *)
Definition of_nat (n : nat) : float := round_to_float (Z.of_nat n) 0.

(** [a.sum()] and [a.mean()] of a float array, accumulated from the left
    (NumPy adds in blocks from 8 elements on, which can change the last
    bits only). Array division raises nothing. *)
Definition sum (a : list float) : float := fold_left PrimFloat.add a 0%float.

Definition mean (a : list float) : float := (sum a / of_nat (List.length a))%float.

(** pandas [Series.sum()] and [Series.mean()]: NaN entries are skipped. *)
Definition notna (a : list float) : list float :=
  filter (fun v => negb (is_nan v)) a.

Definition series_sum (a : list float) : float := sum (notna a).

Definition series_mean (a : list float) : float := mean (notna a).

(** [Series.fillna(d)] on one entry. *)
Definition fillna (x d : float) : float := if is_nan x then d else x.

Fixpoint insert_sorted (x : float) (l : list float) : list float :=
  match l with
  | [] => [x]
  | y :: r => if (x <=? y)%float then x :: l else y :: insert_sorted x r
  end.

(** [Series.median()]: NaN skipped, the mean of the two middle values on
    an even count. *)
Definition median (a : list float) : float :=
  let s := fold_right insert_sorted [] (notna a) in
  let n := List.length s in
  match n with
  | O => nan
  | _ =>
      if Nat.odd n then nth (n / 2) s nan
      else ((nth (n / 2 - 1) s nan + nth (n / 2) s nan) / 2)%float
  end.

(** [Series.rank(method="dense")] of the value [d] within [col]: the
    number of distinct values not above it. *)
Definition rank_dense (col : list Z) (d : Z) : Z :=
  Z.of_nat (List.length (nodup Z.eq_dec (filter (fun d' => d' <=? d) col))).

(** [np.ceil(x).astype(int)] and [np.floor(x).astype(int)] on one entry;
    the cast of a NaN or an infinity gives the smallest 64-bit int. *)
Definition ceil_int (x : float) : Z :=
  match math_ceil x with Ok z => z | Raise _ => - 2 ^ 63 end.

Definition floor_int (x : float) : Z :=
  match math_floor x with Ok z => z | Raise _ => - 2 ^ 63 end.

(** An int column entry used in float arithmetic. *)
Definition of_int (z : Z) : float := round_to_float z 0.

End Np.

(** ** forecast_and_simulate.py *)

Module Forecast.

Record Scenario : Set := mkScenario {
  scenario_id : string;
  name : string;
  demand_multiplier : float;
  shrinkage_delta : float;
  wage_multiplier : float;
  staffing_buffer : float
}.

Definition DEFAULT_SCENARIOS : list Scenario :=
  [ mkScenario "base" "Baseline" 1.00 0.00 1.00 0.08;
    mkScenario "hi_demand" "High demand (+10%)" 1.10 0.00 1.00 0.08;
    mkScenario "lo_demand" "Low demand (-10%)" 0.90 0.00 1.00 0.08;
    mkScenario "hi_shrink" "Shrinkage up (+5pp)" 1.00 0.05 1.00 0.08;
    mkScenario "lo_shrink" "Shrinkage down (-5pp)" 1.00 (-0.05) 1.00 0.08;
    mkScenario "wage_up" "Wage up (+10%)" 1.00 0.00 1.10 0.08;
    mkScenario "aggressive" "Aggressive service (buffer 20%)" 1.00 0.00 1.00 0.20 ].

(** *** Timestamps

    An [interval_start] is a whole number of minutes since
    1970-01-01 00:00, a Thursday. *)

(** [ts.dt.floor("D")], as a day number *)
Definition day_of (ts : Z) : Z := ts / 1440.

(** [ts.dt.dayofweek], Monday = 0 *)
Definition dayofweek (ts : Z) : Z := (day_of ts + 3) mod 7.

Definition _time_bucket (ts interval_minutes : Z) : Z :=
  let minutes_from_midnight := ts mod 1440 in
  minutes_from_midnight / interval_minutes.

(** *** The forecaster *)

(** One row of a (channel, queue) series of [fact_contacts]. *)
Record ContactRow : Set := mkContactRow {
  interval_start : Z;
  offered_contacts : float
}.

(** A row of the [profile] frame: [dow], [bucket], [profile]. *)
Definition ProfileRow : Set := (Z * Z * float)%type.

Record SeriesModel : Set := mkSeriesModel {
  profile : list ProfileRow;
  trend_slope : float;
  trend_intercept : float;
  base_level : float
}.

Definition key_eqb (k1 k2 : Z * Z) : bool :=
  (fst k1 =? fst k2) && (snd k1 =? snd k2).

Definition key_ltb (k1 k2 : Z * Z) : bool :=
  (fst k1 <? fst k2) || ((fst k1 =? fst k2) && (snd k1 <? snd k2)).

Fixpoint insert_key (k : Z * Z) (ks : list (Z * Z)) : list (Z * Z) :=
  match ks with
  | [] => [k]
  | k' :: r =>
      if key_ltb k k' then k :: ks
      else if key_eqb k k' then ks
      else k' :: insert_key k r
  end.

(** The group keys of [groupby(["dow", "bucket"])]: distinct, sorted. *)
Definition group_keys (ks : list (Z * Z)) : list (Z * Z) :=
  fold_right insert_key [] ks.

Definition row_key (interval_minutes : Z) (r : ContactRow) : Z * Z :=
  (dayofweek (interval_start r), _time_bucket (interval_start r) interval_minutes).

(** [df.resample("D", on="interval_start")["offered_contacts"].sum()]:
    one total per calendar day from the first day of the series to the
    last, a day without rows included with total 0. *)
Definition daily_totals (df : list ContactRow) : list float :=
  match map (fun r => day_of (interval_start r)) df with
  | [] => []
  | d :: ds =>
      let first := fold_left Z.min ds d in
      let last := fold_left Z.max ds d in
      map (fun day =>
             Np.series_sum
               (map offered_contacts
                  (filter (fun r => day_of (interval_start r) =? day) df)))
          (range first (last + 1))
  end.

(** [Series.tail(k)] *)
Definition tail {A : Type} (k : nat) (l : list A) : list A :=
  skipn (List.length l - k) l.

Definition _fit_profile_and_trend (series_df : list ContactRow)
    (interval_minutes : Z) : SeriesModel :=
  let df := series_df in
  let profile :=
    map (fun k =>
           (fst k, snd k,
            Np.median
              (map offered_contacts
                 (filter (fun r => key_eqb (row_key interval_minutes r) k) df))))
        (group_keys (map (row_key interval_minutes) df)) in
  let daily := daily_totals df in
  let t := map Np.of_nat (seq 0 (List.length daily)) in
  let fit :=
    if (7 <=? List.length daily)%nat then
      let x := t in
      let y := daily in
      let x_mean := Np.mean x in
      let y_mean := Np.mean y in
      let dx := map (fun xi => (xi - x_mean)%float) x in
      let dy := map (fun yi => (yi - y_mean)%float) y in
      let denom := Np.sum (map (fun d => (d * d)%float) dx) in
      let slope :=
        if (denom =? 0)%float then 0%float
        else (Np.sum (map (fun p => (fst p * snd p)%float) (combine dx dy)) / denom)%float in
      (slope, (y_mean - slope * x_mean)%float)
    else
      (0%float,
       match daily with
       | [] => 0%float
       | _ => Np.series_mean daily
       end) in
  let base_level :=
    match daily with
    | [] => 1%float
    | _ => max 1e-6 (Np.series_mean (tail 28 daily))
    end in
  mkSeriesModel profile (fst fit) (snd fit) base_level.

(** [dict(zip(prof["key"], prof["profile"]))] looked up with
    [.get(key)]: the last row with that key wins. *)
Definition prof_map_get (prof : list ProfileRow) (k : Z * Z) : option float :=
  match filter (fun row => key_eqb (fst row) k) (rev prof) with
  | [] => None
  | row :: _ => Some (snd row)
  end.

(** [profile.groupby("dow")["profile"].sum().to_dict().get(d)] *)
Definition prof_totals_get (prof : list ProfileRow) (d : Z) : option float :=
  match filter (fun row => fst (fst row) =? d) prof with
  | [] => None
  | rows => Some (Np.series_sum (map snd rows))
  end.

(** The columns of [_forecast_series] at the slot [ts] of [future_index]. *)
Definition day_ord (future_index : list Z) (ts : Z) : float :=
  Np.of_int (Np.rank_dense (map day_of future_index) (day_of ts) - 1).

Definition daily_total (model : SeriesModel) (future_index : list Z) (ts : Z) : float :=
  Np.maximum 0
    (trend_intercept model + trend_slope model * day_ord future_index ts)%float.

Definition expected_total (model : SeriesModel) (ts : Z) : float :=
  max 1e-6
    match prof_totals_get (profile model) (dayofweek ts) with
    | Some v => v
    | None => 1%float
    end.

Definition slot_key (interval_minutes ts : Z) : Z * Z :=
  (dayofweek ts, _time_bucket ts interval_minutes).

Definition base (model : SeriesModel) (interval_minutes ts : Z) : float :=
  match prof_map_get (profile model) (slot_key interval_minutes ts) with
  | Some v => v
  | None => 0%float
  end.

Definition forecast_at (model : SeriesModel) (future_index : list Z)
    (interval_minutes ts : Z) : float :=
  (base model interval_minutes ts
   * (daily_total model future_index ts / expected_total model ts))%float.

Definition _forecast_series (model : SeriesModel) (future_index : list Z)
    (interval_minutes : Z) : list float :=
  map (forecast_at model future_index interval_minutes) future_index.

(** [_evaluate_forecast]: MAPE with a floored denominator, and RMSE. *)
Definition _evaluate_forecast (actual pred : list float) : float * float :=
  let eps := 1e-6%float in
  let err := map (fun ap => (fst ap - snd ap)%float) (combine actual pred) in
  let mape :=
    Np.mean (map (fun ae => (abs (snd ae) / Np.maximum eps (abs (fst ae)))%float)
                 (combine actual err)) in
  let rmse := sqrt (Np.mean (map (fun e => (e * e)%float) err)) in
  (mape, rmse).

(** *** The scenario simulator *)

Definition ALLOWED_INTERVAL_MINUTES : list Z := [15; 30; 60; 480; 720; 1440].

(** A row of [forecast_df]. *)
Record ForecastRecord : Set := mkForecastRecord {
  forecast_interval_start : Z;
  channel : string;
  queue : string;
  forecast_offered : float;
  interval_minutes : Z
}.

(** A row of [staffing_ref], restricted to [staff_cols]. *)
Record StaffingRef : Set := mkStaffingRef {
  ref_channel : string;
  ref_queue : string;
  cost_per_hour : float;
  shrinkage_rate : float;
  sla_threshold_seconds : float;
  aht_seconds : float;
  is_realtime : bool
}.

(** [drop_duplicates(subset=["channel", "queue"])] keeps the first row of
    a key, and the left merge gives every forecast row that row, or
    missing values when the key has none. *)
Definition merge_ref (staffing_ref : list StaffingRef) (f : ForecastRecord)
  : option StaffingRef :=
  find (fun r => String.eqb (ref_channel r) (channel f)
                 && String.eqb (ref_queue r) (queue f)) staffing_ref.

(** A column of the merged frame: NaN where the reference is missing. *)
Definition ref_col (col : StaffingRef -> float) (r : option StaffingRef) : float :=
  match r with
  | Some r => col r
  | None => nan
  end.

(** [bool(row.is_realtime)]: a missing value is a NaN, which is truthy. *)
Definition row_is_realtime (r : option StaffingRef) : bool :=
  match r with
  | Some r => is_realtime r
  | None => true
  end.

(** A row of [df] when the loops start. *)
Record ScenarioRow : Set := mkScenarioRow {
  row_forecast : ForecastRecord;
  row_ref : option StaffingRef;
  row_forecast_offered : float;
  scenario_shrinkage : float;
  scenario_cost_per_hour : float
}.

Definition prepare_row (staffing_ref : list StaffingRef) (scenario : Scenario)
    (f : ForecastRecord) : ScenarioRow :=
  let r := merge_ref staffing_ref f in
  mkScenarioRow f r
    (forecast_offered f * demand_multiplier scenario)%float
    (Np.clip (Np.fillna (ref_col shrinkage_rate r) 0.30 + shrinkage_delta scenario)%float
             0 0.70)
    (Np.fillna (ref_col cost_per_hour r) 22 * wage_multiplier scenario)%float.

Record ScenarioOutcomeRecord : Set := mkScenarioOutcomeRecord {
  outcome_row : ScenarioRow;
  outcome_scenario_id : string;
  outcome_scenario_name : string;
  required_agents_scheduled : Z;
  planned_agents_scheduled : Z;
  planned_agents_available : Z;
  planned_labor_cost : float;
  achieved_service_level : float;
  achieved_asa_seconds : float;
  under_over_staffed : Z
}.

Section WithLibm.

Variable math_exp : float -> result float.

(** The throughput proxy of both loops: capacity over demand, capped. *)
Definition throughput_sla (available interval_seconds : Z) (aht offered : float)
  : result float :=
  n <- float_of_int (available * interval_seconds) ;;
  capacity_contacts <- truediv n aht ;;
  if float_le_int offered 0 then Ok 1%float
  else
    q <- truediv capacity_contacts offered ;;
    Ok (min 1 q).

(** The body of the first loop: what is appended to [req_agents],
    [achieved_sla] and [achieved_asa]. *)
Definition required_pass (interval_seconds : Z) (scenario : Scenario)
    (row : ScenarioRow) : result (Z * float * float) :=
  let offered := max 0 (row_forecast_offered row) in
  let aht := max 1 (ref_col aht_seconds (row_ref row)) in
  let thr := max 1 (ref_col sla_threshold_seconds (row_ref row)) in
  let is_rt := row_is_realtime (row_ref row) in
  let shrinkage := max 0 (scenario_shrinkage row) in
  if is_rt then
    req <- call_required_agents_realtime math_exp
             [ ("contacts", PyFloat offered);
               ("aht_seconds", PyFloat aht);
               ("interval_seconds", PyInt interval_seconds);
               ("sla_threshold_seconds", PyFloat thr);
               ("sla_target", PyFloat 0.80);
               ("shrinkage", PyFloat shrinkage);
               ("occupancy_cap", PyFloat 0.85) ] ;;
    er <- call_erlang_c_summary math_exp
            [ ("contacts", PyFloat offered);
              ("aht_seconds", PyFloat aht);
              ("interval_seconds", PyInt interval_seconds);
              ("agents_available", PyInt (available_agents req));
              ("sla_threshold_seconds", PyFloat thr) ] ;;
    Ok (scheduled_agents req, service_level er, asa_seconds er)
  else
    req <- call_required_agents_throughput
             [ ("contacts", PyFloat offered);
               ("aht_seconds", PyFloat aht);
               ("interval_seconds", PyInt interval_seconds);
               ("shrinkage", PyFloat shrinkage);
               ("buffer", PyFloat (staffing_buffer scenario)) ] ;;
    sla <- throughput_sla (available_agents req) interval_seconds aht offered ;;
    Ok (scheduled_agents req, sla, nan).

(** The body of the second loop: what is appended to [new_sla] and
    [new_asa]. *)
Definition planned_pass (interval_seconds : Z) (row : ScenarioRow) (avail : Z)
  : result (float * float) :=
  let offered := max 0 (row_forecast_offered row) in
  let aht := max 1 (ref_col aht_seconds (row_ref row)) in
  let thr := max 1 (ref_col sla_threshold_seconds (row_ref row)) in
  let is_rt := row_is_realtime (row_ref row) in
  if is_rt then
    er <- call_erlang_c_summary math_exp
            [ ("contacts", PyFloat offered);
              ("aht_seconds", PyFloat aht);
              ("interval_seconds", PyInt interval_seconds);
              ("agents_available", PyInt avail);
              ("sla_threshold_seconds", PyFloat thr) ] ;;
    Ok (service_level er, asa_seconds er)
  else
    sla <- throughput_sla avail interval_seconds aht offered ;;
    Ok (sla, nan).

Definition _simulate_scenario (forecast_df : list ForecastRecord)
    (staffing_ref : list StaffingRef) (interval_minutes : Z) (scenario : Scenario)
  : result (list ScenarioOutcomeRecord) :=
  let df := map (prepare_row staffing_ref scenario) forecast_df in
  let interval_seconds := interval_minutes * 60 in
  m <- float_of_int interval_minutes ;;
  let interval_hours := (m / 60)%float in
  first <- map_result (required_pass interval_seconds scenario) df ;;
  let req_agents := map (fun r => fst (fst r)) first in
  let planned :=
    map (fun req => Np.ceil_int (Np.of_int req * (1 + staffing_buffer scenario))%float)
        req_agents in
  let planned_available :=
    map (fun rp => Np.floor_int
                     (Np.of_int (snd rp) * (1 - scenario_shrinkage (fst rp)))%float)
        (combine df planned) in
  let costs :=
    map (fun rp => (Np.of_int (snd rp) * scenario_cost_per_hour (fst rp)
                    * interval_hours)%float)
        (combine df planned) in
  second <- map_result (fun ra => planned_pass interval_seconds (fst ra) (snd ra))
              (combine df planned_available) ;;
  Ok (map (fun x =>
             match x with
             | (row, req, plan, avail, cost, (sla, asa)) =>
                 mkScenarioOutcomeRecord row (scenario_id scenario) (name scenario)
                   req plan avail cost sla asa (plan - req)
             end)
          (combine (combine (combine (combine (combine df req_agents) planned)
                                     planned_available) costs) second)).

End WithLibm.

End Forecast.

Import Forecast.

(** ** A C library

    [math.exp] is a parameter of the development.  To run the model on
    examples it is instantiated with [Libm.exp]: the exponential evaluated
    in integer arithmetic to about 140 bits (argument halved 12 times,
    Taylor polynomial, 12 squarings), then rounded to the nearest float.
    Python raises OverflowError ("math range error") on an infinite result
    of a finite argument. *)

Module Libm.

Definition frac_bits : Z := 160.

(** Keep about [frac_bits] bits of a positive mantissa. *)
Definition renorm (me : Z * Z) : Z * Z :=
  let d := Z.log2 (fst me) - frac_bits in
  if 0 <? d then (Z.shiftr (fst me) d, snd me + d) else me.

(** [sum_{i < n} t^i / i!] in fixed point, [t] scaled by [2^frac_bits]. *)
Fixpoint taylor (n : nat) (i : Z) (t term acc : Z) : Z :=
  match n with
  | O => acc
  | S n' =>
      taylor n' (i + 1) t (term * t / (2 ^ frac_bits * (i + 1))) (acc + term)
  end.

Fixpoint square_times (n : nat) (me : Z * Z) : Z * Z :=
  match n with
  | O => me
  | S n' => square_times n' (renorm (fst me * fst me, 2 * snd me))
  end.

(** [e^(m * 2^e)] for a positive mantissa [m] with [m * 2^e < 2^11], as
    mantissa and exponent. *)
Definition exp_pos (m : positive) (e : Z) : Z * Z :=
  let t := Z.shiftl (Z.pos m) (e + frac_bits - 12) in
  square_times 12 (taylor 40 0 t (2 ^ frac_bits) 0, - frac_bits).

Definition exp (x : float) : result float :=
  match Prim2SF x with
  | S754_nan => Ok nan
  | S754_infinity s => Ok (if s then zero else infinity)
  | S754_zero _ => Ok 1%float
  | S754_finite s m e =>
      if 11 <=? Z.log2 (Z.pos m) + e then
        if s then Ok zero else Raise OverflowError
      else
        let (mant, ex) := exp_pos m e in
        if s then Ok (round_to_float (Z.lor (2 ^ 400 / mant) 1) (- 400 - ex))
        else
          let r := round_to_float (Z.lor mant 1) ex in
          if is_infinity r then Raise OverflowError else Ok r
  end.

End Libm.

(** ** Predicates of the statements *)

(** A computation that returns or raises OverflowError, nothing else. *)
Definition ok_or_overflow {A : Type} (c : result A) : Prop :=
  (exists a, c = Ok a) \/ c = Raise OverflowError.

(** [float(k!)] exists and is not zero up to [k = 170]; [171!] is beyond
    the largest float. *)
Definition factorial_fits (k : Z) : bool :=
  match _factorial k with
  | Ok f => negb (f =? 0)%float
  | Raise _ => false
  end.

(** The solver tried the agent count [m] and it missed the target. *)
Definition misses (math_exp : float -> result float)
    (traffic aht threshold target : float) (m : Z) : Prop :=
  exists v, erlang_c_service_level math_exp traffic m aht threshold = Ok v
            /\ (target <=? v)%float = false.

(** A probability: a float between 0 and 1. *)
Definition in_unit_interval (p : float) : Prop :=
  (0 <=? p)%float = true /\ (p <=? 1)%float = true.

(** ** More of the Python layer: positional calls, rounding, int division *)

Module Builtins.

(** A call that passes its arguments by position: TypeError on more
    arguments than parameters, or on a parameter left without a value and
    without a default. *)
Fixpoint bind_positional (sig : signature) (args : list pyval) : result (list pyval) :=
  match sig, args with
  | [], [] => Ok []
  | [], _ :: _ => Raise TypeError
  | p :: sig', a :: args' =>
      rest <- bind_positional sig' args' ;;
      Ok (a :: rest)
  | p :: sig', [] =>
      match par_default p with
      | Some d =>
          rest <- bind_positional sig' [] ;;
          Ok (d :: rest)
      | None => Raise TypeError
      end
  end.

(** [round(x)] of a float, an int: the nearest one, a tie going to the
    even one; ValueError on a NaN, OverflowError on an infinity. *)
Definition round (x : float) : result Z :=
  match Prim2SF x with
  | S754_nan => Raise ValueError
  | S754_infinity _ => Raise OverflowError
  | S754_zero _ => Ok 0
  | S754_finite s m e =>
      if 0 <=? e then Ok (signed s m * 2 ^ e)
      else
        let q := Z.pos m / 2 ^ (- e) in
        let r := Z.pos m mod 2 ^ (- e) in
        let n :=
          match 2 * r ?= 2 ^ (- e) with
          | Lt => q
          | Gt => q + 1
          | Eq => if Z.even q then q else q + 1
          end in
        Ok (if s then - n else n)
  end.

(** [int(x)] of a float: truncation towards zero. *)
Definition int_of_float (x : float) : result Z :=
  match Prim2SF x with
  | S754_nan => Raise ValueError
  | S754_infinity _ => Raise OverflowError
  | S754_zero _ => Ok 0
  | S754_finite s m e =>
      if 0 <=? e then Ok (signed s m * 2 ^ e)
      else Ok (if s then - (Z.pos m / 2 ^ (- e)) else Z.pos m / 2 ^ (- e))
  end.

(** [a / b] on ints: the float nearest to the quotient. *)
Definition int_truediv (a b : Z) : result float :=
  if b =? 0 then Raise ZeroDivisionError
  else if a =? 0 then Ok 0%float
  else
    let n := Z.abs a in
    let d := Z.abs b in
    let k := Z.max 0 (64 + Z.log2 d - Z.log2 n) in
    let q := n * 2 ^ k / d in
    let sticky := if n * 2 ^ k mod d =? 0 then 0 else 1 in
    let m := Z.lor q sticky in
    let f := round_to_float (if xorb (a <? 0) (b <? 0) then - m else m) (- k) in
    if is_infinity f then Raise OverflowError else Ok f.

End Builtins.

(** ** More pandas operations: 64-bit int columns, group aggregates *)

Module Pd.

(** The value of a 64-bit int column entry: two's complement wrap-around. *)
Definition int64 (z : Z) : Z := (z + 2 ^ 63) mod 2 ^ 64 - 2 ^ 63.

(** The group aggregate ["sum"] of an int column. *)
Definition int_sum (a : list Z) : Z := int64 (fold_left Z.add a 0).

(** The group aggregate ["mean"] of an int column, a float. *)
Definition int_mean (a : list Z) : float := Np.mean (map Np.of_int a).

(** The group aggregate ["max"] of a float column: NaN entries are
    skipped, and a group of NaN entries gives a NaN. *)
Definition series_max (a : list float) : float :=
  match Np.notna a with
  | [] => nan
  | x :: r => fold_left (fun m v => if (m <? v)%float then v else m) r x
  end.

(** [Series.round().astype(int)] on one entry: the nearest int, a tie
    going to the even one; the cast of a NaN, an infinity or a value out
    of range gives the smallest 64-bit int. *)
Definition round_int (x : float) : Z :=
  match Builtins.round x with
  | Ok z => if (- 2 ^ 63 <=? z) && (z <? 2 ^ 63) then z else - 2 ^ 63
  | Raise _ => - 2 ^ 63
  end.

(** [np.average(x, weights=w)] with int weights. *)
Definition average (x : list float) (w : list Z) : result float :=
  let wgt := map Np.of_int w in
  let scl := Np.sum wgt in
  if (scl =? 0)%float then Raise ZeroDivisionError
  else Ok (Np.sum (map (fun p => (fst p * snd p)%float) (combine x wgt)) / scl)%float.

(** [sort_values] on an int key; rows with equal keys keep their order. *)
Fixpoint insert_by {A : Type} (key : A -> Z) (x : A) (l : list A) : list A :=
  match l with
  | [] => [x]
  | y :: r => if key y <=? key x then y :: insert_by key x r else x :: l
  end.

Definition sort_values {A : Type} (key : A -> Z) (l : list A) : list A :=
  fold_left (fun acc x => insert_by key x acc) l [].

End Pd.

(** ** forecast_and_simulate.py: the body of the loop of [main] over the
    (channel, queue) series *)

Module ForecastMain.

Record Args : Set := mkArgs {
  arg_interval_minutes : Z;
  horizon_days : Z;
  holdout_days : Z
}.

(** [df_series["interval_start"].max()] *)
Definition last_start (df_series : list ContactRow) : Z :=
  match map interval_start df_series with
  | [] => 0
  | t :: ts => fold_left Z.max ts t
  end.

(** The holdout split of the sorted series: [train] and [test]. *)
Definition holdout_split (df_series : list ContactRow) (holdout_days : Z)
  : list ContactRow * list ContactRow :=
  let cutoff := last_start df_series - holdout_days * 1440 in
  (filter (fun r => interval_start r <=? cutoff) df_series,
   filter (fun r => cutoff <? interval_start r) df_series).

(** [pd.date_range(start, periods, freq)]: ValueError on a negative
    number of periods. *)
Definition date_range (start periods freq : Z) : result (list Z) :=
  if periods <? 0 then Raise ValueError
  else Ok (map (fun i => start + freq * i) (range 0 periods)).

Record SeriesForecast : Set := mkSeriesForecast {
  quality : option (float * float);
  future_index : list Z;
  pred_future : list float
}.

Definition forecast_series (args : Args) (df_series : list ContactRow)
  : result SeriesForecast :=
  let df_series := Pd.sort_values interval_start df_series in
  let (train, test) := holdout_split df_series (holdout_days args) in
  let model := _fit_profile_and_trend train (arg_interval_minutes args) in
  let quality :=
    match test with
    | [] => None
    | _ :: _ =>
        let pred_test :=
          _forecast_series model (map interval_start test) (arg_interval_minutes args) in
        Some (_evaluate_forecast (map offered_contacts test) pred_test)
    end in
  let last_ts := last_start df_series in
  q <- Builtins.int_truediv (horizon_days args * 24 * 60) (arg_interval_minutes args) ;;
  periods <- Builtins.int_of_float q ;;
  future_index <- date_range (last_ts + arg_interval_minutes args) periods
                    (arg_interval_minutes args) ;;
  let pred_future := _forecast_series model future_index (arg_interval_minutes args) in
  Ok (mkSeriesForecast quality future_index pred_future).

End ForecastMain.

(** ** etl_build_marts.py

    The script is run as a program: [erlang_c_summary] is imported under
    [if __name__ == "__main__"].  A [timestamp_start] is a whole number of
    minutes since 1970-01-01 00:00 UTC.  The aggregation is modelled for a
    positive number of minutes, which is what [main] passes; the sums of
    float columns are accumulated from the left. *)

Module Etl.

Definition AGG_INTERVAL_MINUTES : list Z := [30; 60; 480; 720; 1440].

(** A row of [demand] and a row of [staffing] after [_validate_and_cast],
    with the columns the aggregation reads. *)
Record DemandRow : Set := mkDemandRow {
  timestamp_start : Z;
  channel : string;
  queue : string;
  offered_contacts : Z;
  handled_contacts : Z;
  abandoned_contacts : Z;
  aht_seconds : float;
  sla_threshold_seconds : float
}.

Record StaffingRow : Set := mkStaffingRow {
  staff_timestamp_start : Z;
  staff_channel : string;
  staff_queue : string;
  agents_scheduled : Z;
  agents_available : Z;
  shrinkage_rate : float;
  cost_per_hour : float
}.

(** A group key of [groupby(["bucket", "channel", "queue"])]. *)
Definition Key : Set := (Z * string * string)%type.

Definition key_eqb (k1 k2 : Key) : bool :=
  (fst (fst k1) =? fst (fst k2))
  && String.eqb (snd (fst k1)) (snd (fst k2))
  && String.eqb (snd k1) (snd k2).

Definition key_ltb (k1 k2 : Key) : bool :=
  (fst (fst k1) <? fst (fst k2))
  || ((fst (fst k1) =? fst (fst k2))
      && (String.ltb (snd (fst k1)) (snd (fst k2))
          || (String.eqb (snd (fst k1)) (snd (fst k2))
              && String.ltb (snd k1) (snd k2)))).

Fixpoint insert_key (k : Key) (ks : list Key) : list Key :=
  match ks with
  | [] => [k]
  | k' :: r =>
      if key_ltb k k' then k :: ks
      else if key_eqb k k' then ks
      else k' :: insert_key k r
  end.

(** The group keys: distinct, sorted. *)
Definition group_keys (ks : list Key) : list Key := fold_right insert_key [] ks.

(** [ts.dt.floor(f"{minutes}min")], for [minutes > 0] *)
Definition bucket (minutes ts : Z) : Z := minutes * (ts / minutes).

Definition demand_key (minutes : Z) (r : DemandRow) : Key :=
  (bucket minutes (timestamp_start r), channel r, queue r).

Definition staffing_key (minutes : Z) (r : StaffingRow) : Key :=
  (bucket minutes (staff_timestamp_start r), staff_channel r, staff_queue r).

(** A row of [d_agg] before the service columns are added. *)
Record DemandAgg : Set := mkDemandAgg {
  agg_key : Key;
  agg_offered_contacts : Z;
  agg_handled_contacts : Z;
  agg_abandoned_contacts : Z;
  agg_aht_seconds : float;
  agg_sla_threshold_seconds : float
}.

(** A row of [s_agg]. *)
Record StaffingAgg : Set := mkStaffingAgg {
  sagg_key : Key;
  agg_agents_scheduled : float;
  agg_agents_available : float;
  agg_shrinkage_rate : float;
  agg_cost_per_hour : float
}.

Definition demand_group (minutes : Z) (d : list DemandRow) (k : Key) : list DemandRow :=
  filter (fun r => key_eqb (demand_key minutes r) k) d.

Definition aggregate_demand (d : list DemandRow) (minutes : Z) : result (list DemandAgg) :=
  map_result
    (fun k =>
       let g := demand_group minutes d k in
       aht <- Pd.average (map aht_seconds g)
                (map (fun r => Z.max 1 (handled_contacts r)) g) ;;
       Ok (mkDemandAgg k
             (Pd.int_sum (map offered_contacts g))
             (Pd.int_sum (map handled_contacts g))
             (Pd.int_sum (map abandoned_contacts g))
             aht
             (Pd.series_max (map sla_threshold_seconds g))))
    (group_keys (map (demand_key minutes) d)).

Definition staffing_group (minutes : Z) (s : list StaffingRow) (k : Key)
  : list StaffingRow :=
  filter (fun r => key_eqb (staffing_key minutes r) k) s.

Definition aggregate_staffing (s : list StaffingRow) (minutes : Z) : list StaffingAgg :=
  map (fun k =>
         let g := staffing_group minutes s k in
         mkStaffingAgg k
           (Pd.int_mean (map agents_scheduled g))
           (Pd.int_mean (map agents_available g))
           (Np.series_mean (map shrinkage_rate g))
           (Np.series_mean (map cost_per_hour g)))
      (group_keys (map (staffing_key minutes) s)).

(** A row of [merged]: the left merge on the key, then
    [agents_available] filled, rounded and cast. *)
Record MergedRow : Set := mkMergedRow {
  merged_demand : DemandAgg;
  merged_agents_available : Z
}.

Definition merge (d_agg : list DemandAgg) (s_agg : list StaffingAgg) : list MergedRow :=
  map (fun r =>
         let available :=
           match find (fun s => key_eqb (sagg_key s) (agg_key r)) s_agg with
           | Some s => agg_agents_available s
           | None => nan
           end in
         mkMergedRow r (Pd.round_int (Np.fillna available 0)))
      d_agg.

(** A row of the [d_agg] that is returned. *)
Record DemandMart : Set := mkDemandMart {
  mart_demand : DemandAgg;
  mart_asa_seconds : float;
  mart_service_level : float;
  mart_interval_minutes : Z
}.

(** [row.channel in ("voice", "chat")] *)
Definition is_voice_or_chat (c : string) : bool :=
  String.eqb c "voice" || String.eqb c "chat".

Section WithLibm.

Variable math_exp : float -> result float.

(** A call of [erlang_c_summary] that passes its arguments by position. *)
Definition call_erlang_c_summary_positional (args : list pyval) : result ErlangResult :=
  args <- Builtins.bind_positional signature_summary args ;;
  match args with
  | [c; i; a; n; t] =>
      c <- as_float c ;; i <- as_int i ;; a <- as_float a ;;
      n <- as_int n ;; t <- as_float t ;;
      erlang_c_summary math_exp c i a n t
  | _ => Raise TypeError
  end.

(** The body of the loop over [merged]: what is appended to [asa_list]
    and to [sl_list]. *)
Definition service_of_row (interval_seconds : Z) (row : MergedRow)
  : result (float * float) :=
  let handled := Z.max 0 (agg_handled_contacts (merged_demand row)) in
  let aht := Np.fillna (agg_aht_seconds (merged_demand row)) 0 in
  let agents := Z.max 0 (merged_agents_available row) in
  let threshold := Np.fillna (agg_sla_threshold_seconds (merged_demand row)) 0 in
  let c := snd (fst (agg_key (merged_demand row))) in
  if is_voice_or_chat c && (0 <? handled) && (0 <? agents) && float_gt_int aht 0 then
    hf <- float_of_int handled ;;
    sf <- float_of_int interval_seconds ;;
    traffic <- truediv (hf * aht)%float sf ;;
    res <- call_erlang_c_summary_positional
             [ PyFloat traffic; PyInt agents; PyFloat aht; PyFloat threshold ] ;;
    Ok (asa_seconds res, service_level res)
  else if String.eqb c "email" && (0 <? handled) && (0 <? agents) && float_gt_int aht 0 then
    sf <- float_of_int interval_seconds ;;
    per_agent <- truediv sf aht ;;
    af <- float_of_int agents ;;
    let capacity := (af * per_agent)%float in
    d <- (if 1 <? handled then float_of_int handled else Ok 1%float) ;;
    q <- truediv capacity d ;;
    Ok (nan, min 1 q)
  else Ok (nan, nan).

Definition _aggregate_interval (demand : list DemandRow) (staffing : list StaffingRow)
    (minutes : Z) : result (list DemandMart * list (StaffingAgg * Z)) :=
  if negb (minutes mod 15 =? 0) then Raise ValueError
  else
    d_agg <- aggregate_demand demand minutes ;;
    let s_agg := aggregate_staffing staffing minutes in
    let interval_seconds := minutes * 60 in
    let merged := merge d_agg s_agg in
    service <- map_result (service_of_row interval_seconds) merged ;;
    Ok (map (fun rs => mkDemandMart (fst rs) (fst (snd rs)) (snd (snd rs)) minutes)
            (combine d_agg service),
        map (fun s => (s, minutes)) s_agg).

End WithLibm.

End Etl.

(** ** generate_sample_data.py

    The script is run as a program ([math] is imported under
    [if __name__ == "__main__"]).  The draws of the random generator are
    inputs of the model. *)

Module Generator.

Record ChannelConfig : Set := mkChannelConfig {
  name : string;
  queues : list string;
  sla_threshold_seconds : Z;
  base_rate_per_15m : list (string * float);
  cost_per_hour : float;
  aht_mean_seconds : list (string * float)
}.

Definition _hour_curve (hour : Z) : float :=
  if (0 <=? hour) && (hour <? 6) then 0.15
  else if (6 <=? hour) && (hour <? 9) then 0.7
  else if (9 <=? hour) && (hour <? 12) then 1.15
  else if (12 <=? hour) && (hour <? 14) then 1.0
  else if (14 <=? hour) && (hour <? 17) then 1.2
  else if (17 <=? hour) && (hour <? 20) then 0.85
  else 0.35.

Definition _dow_curve (dow : Z) : float :=
  if (dow =? 5) || (dow =? 6) then 0.55
  else if dow =? 0 then 1.1
  else if dow =? 4 then 0.95
  else 1.0.

Definition build_configs : list ChannelConfig :=
  [ mkChannelConfig "voice" [ "billing"; "tech"; "sales" ] 20
      [ ("billing", 18.0); ("tech", 14.0); ("sales", 9.0) ]%float 24.0
      [ ("billing", 420.0); ("tech", 540.0); ("sales", 480.0) ]%float;
    mkChannelConfig "chat" [ "web_support"; "sales_chat" ] 30
      [ ("web_support", 11.0); ("sales_chat", 7.0) ]%float 22.0
      [ ("web_support", 360.0); ("sales_chat", 330.0) ]%float;
    mkChannelConfig "email" [ "support_email"; "billing_email" ] (24 * 3600)
      [ ("support_email", 5.5); ("billing_email", 4.5) ]%float 21.0
      [ ("support_email", 720.0); ("billing_email", 600.0) ]%float ].

Definition interval_minutes : Z := 15.
Definition interval_seconds : Z := interval_minutes * 60.

(** What the random generator draws for one interval of one queue:
    [offered], [aht] (after its floor of 60), [abandoned], [shrinkage]
    (after its clip) and [schedule_bias]. *)
Record Draws : Set := mkDraws {
  offered : Z;
  aht : float;
  abandoned : Z;
  shrinkage : float;
  schedule_bias : float
}.

(** The staffing and service values (before they are rounded for the
    CSV files) of the two rows written for one
    interval of one queue. *)
Record Interval : Set := mkInterval {
  handled_contacts : Z;
  agents_scheduled : Z;
  agents_available : Z;
  asa_seconds : float;
  service_level : float
}.

Definition is_realtime (cfg : ChannelConfig) : bool :=
  String.eqb (name cfg) "voice" || String.eqb (name cfg) "chat".

Section WithLibm.

Variable math_exp : float -> result float.

(** The body of the loop over the queues, from [handled] on. *)
Definition plan_interval (cfg : ChannelConfig) (d : Draws) : result Interval :=
  let handled := Z.max 0 (offered d - abandoned d) in
  staffing_req <-
    (if is_realtime cfg then
       call_required_agents_realtime math_exp
         [ ("contacts", PyInt handled);
           ("aht_seconds", PyFloat (aht d));
           ("interval_seconds", PyInt interval_seconds);
           ("sla_threshold_seconds", PyInt (sla_threshold_seconds cfg));
           ("sla_target", PyFloat (if String.eqb (name cfg) "voice" then 0.8 else 0.75));
           ("shrinkage_rate", PyFloat (shrinkage d)) ]
     else
       call_required_agents_throughput
         [ ("contacts", PyInt handled);
           ("aht_seconds", PyFloat (aht d));
           ("interval_seconds", PyInt interval_seconds);
           ("shrinkage_rate", PyFloat (shrinkage d));
           ("productivity", PyFloat 0.82) ]) ;;
  let needed := scheduled_agents staffing_req in
  nf <- float_of_int needed ;;
  rounded <- Builtins.round (nf * schedule_bias d)%float ;;
  let scheduled := Z.max 0 rounded in
  sf <- float_of_int scheduled ;;
  floored <- math_floor (sf * (1 - shrinkage d))%float ;;
  let available := Z.max 0 floored in
  if is_realtime cfg then
    summary <- call_erlang_c_summary math_exp
                 [ ("contacts", PyInt handled);
                   ("aht_seconds", PyFloat (aht d));
                   ("interval_seconds", PyInt interval_seconds);
                   ("agents", PyInt available);
                   ("sla_threshold_seconds", PyInt (sla_threshold_seconds cfg)) ] ;;
    Ok (mkInterval handled scheduled available
          (WfmMath.asa_seconds summary) (WfmMath.service_level summary))
  else
    n <- float_of_int (available * interval_seconds) ;;
    capacity <- truediv n (max 1e-6 (aht d)) ;;
    sl <- (if handled =? 0 then Ok 1%float
           else
             hf <- float_of_int handled ;;
             q <- truediv capacity hf ;;
             Ok (min 1 q)) ;;
    Ok (mkInterval handled scheduled available 0 sl).

End WithLibm.

End Generator.

(** ** More predicates of the statements *)

(** A float that is not below zero: a zero, a positive number or a NaN. *)
Definition sf_not_neg (x : spec_float) : Prop :=
  match x with
  | S754_infinity true | S754_finite true _ _ => False
  | _ => True
  end.

(** A float above zero. *)
Definition sf_pos (x : spec_float) : Prop :=
  match x with
  | S754_infinity false | S754_finite false _ _ => True
  | _ => False
  end.

(** A computation that returns, or raises one of the listed exceptions. *)
Definition raises_within {A : Type} (allowed : list exn) (c : result A) : Prop :=
  match c with
  | Ok _ => True
  | Raise e => In e allowed
  end.

(** The exceptions of arithmetic: a result out of range, a NaN or a
    negative number where none is accepted, a division by zero. *)
Definition arithmetic_errors : list exn := [OverflowError; ValueError; ZeroDivisionError].

(** The sum of an int column, without wrap-around. *)
Definition total {A : Type} (col : A -> Z) (rows : list A) : Z :=
  fold_right Z.add 0 (map col rows).

(** A row of [merged] that the aggregation hands to Erlang C: voice or
    chat, with contacts handled, agents available and a handle time. *)
Definition erlang_row (row : Etl.MergedRow) : bool :=
  Etl.is_voice_or_chat (snd (fst (Etl.agg_key (Etl.merged_demand row))))
  && (0 <? Z.max 0 (Etl.agg_handled_contacts (Etl.merged_demand row)))
  && (0 <? Z.max 0 (Etl.merged_agents_available row))
  && float_gt_int (Np.fillna (Etl.agg_aht_seconds (Etl.merged_demand row)) 0) 0.

(** ** The words of the specification about the forecaster *)

(** The training days of a series: the calendar days on which the series
    has rows. *)
Definition training_days (series_df : list ContactRow) : list Z :=
  nodup Z.eq_dec (map (fun r => day_of (interval_start r)) series_df).

(** The mean daily offered total over the training days. *)
Definition mean_training_day_total (series_df : list ContactRow) : float :=
  Np.mean
    (map (fun day =>
            Np.sum
              (map offered_contacts
                 (filter (fun r => day_of (interval_start r) =? day) series_df)))
         (training_days series_df)).


(** * Properties *)

(** ** Comparisons of a float with an int *)

Lemma float_gt_not_le (x : float) (n : Z) :
  float_gt_int x n = true -> float_le_int x n = false.
Proof.
  unfold float_gt_int, float_le_int.
  destruct (float_cmp_int x n) as [[ | | ] | ]; congruence.
Qed.

Lemma compare_above (v n m : Z) :
  (v ?= n) <> Lt -> m < n -> (v ?= m) = Gt.
Proof.
  intros Hn Hm. apply Z.compare_gt_iff.
  destruct (v ?= n) eqn:Hc; try congruence.
  - apply Z.compare_eq in Hc. lia.
  - apply Z.compare_gt_iff in Hc. lia.
Qed.

Lemma float_ge_not_le_below (x : float) (n m : Z) :
  float_ge_int x n = true -> m < n -> float_le_int x m = false.
Proof.
  unfold float_ge_int, float_le_int, float_cmp_int.
  destruct (Prim2SF x) as [s | s | | s mx e]; try discriminate.
  - intros Hn Hm. rewrite (compare_above 0 n m); trivial.
    destruct (0 ?= n); congruence.
  - destruct s; [discriminate | reflexivity].
  - destruct (0 <=? e) eqn:He; intros Hn Hm.
    + rewrite (compare_above _ n m); trivial.
      destruct (_ ?= n); congruence.
    + apply Z.leb_gt in He.
      assert (Hp : 0 < 2 ^ (- e)) by (apply Z.pow_pos_nonneg; lia).
      rewrite (compare_above _ (n * 2 ^ (- e)) (m * 2 ^ (- e))); trivial; [ | nia ].
      destruct (_ ?= n * _); congruence.
Qed.

(** ** The stability boundaries of the queueing model *)

Lemma prob_wait_invalid (a : float) (n : Z) :
  n <= 0 \/ float_le_int a 0 = true -> erlang_c_prob_wait a n = Ok 1%float.
Proof.
  intros H. unfold erlang_c_prob_wait.
  destruct H as [H | H].
  - apply Z.leb_le in H. now rewrite H.
  - rewrite H. now rewrite orb_true_r.
Qed.

Lemma prob_wait_saturated (a : float) (n : Z) :
  float_ge_int a n = true -> erlang_c_prob_wait a n = Ok 1%float.
Proof.
  intros H. unfold erlang_c_prob_wait. rewrite H.
  now destruct ((n <=? 0) || float_le_int a 0).
Qed.

(** C4: a saturated or over-capacity queue ([a >= n]), with a positive
    handle time and a positive threshold, has wait probability 1, an
    infinite average speed of answer and service level 0. *)
Theorem saturated_queue (math_exp : float -> result float)
    (a : float) (n : Z) (aht threshold : float) :
  float_gt_int aht 0 = true ->
  float_gt_int threshold 0 = true ->
  float_ge_int a n = true ->
  erlang_c_prob_wait a n = Ok 1%float
  /\ erlang_c_asa_seconds a n aht = Ok infinity
  /\ erlang_c_service_level math_exp a n aht threshold = Ok 0%float.
Proof.
  intros Haht Hthr Han.
  apply float_gt_not_le in Haht. apply float_gt_not_le in Hthr.
  split; [ now apply prob_wait_saturated | ].
  unfold erlang_c_asa_seconds, erlang_c_service_level.
  rewrite Haht, Hthr, Han.
  destruct (n <=? 0) eqn:Hn; [ now split | ].
  apply Z.leb_gt in Hn.
  now rewrite (float_ge_not_le_below a n 0 Han Hn).
Qed.

Lemma saturated_queue_witness :
  erlang_c_prob_wait 12 10 = Ok 1%float
  /\ erlang_c_asa_seconds 12 10 300 = Ok infinity
  /\ erlang_c_service_level Libm.exp 12 10 300 20 = Ok 0%float.
Proof.
  apply (saturated_queue Libm.exp 12 10 300 20); reflexivity.
Defined.

(** C5, as amended: a non-positive agent count gives wait probability 1,
    an infinite average speed of answer and service level 0, whatever the
    traffic; with a positive agent count, non-positive traffic gives wait
    probability 1, and, for a positive handle time and threshold, average
    speed of answer 0 and service level 1. *)
Theorem edge_case_policy (math_exp : float -> result float)
    (a : float) (n : Z) (aht threshold : float) :
  (n <= 0 ->
   erlang_c_prob_wait a n = Ok 1%float
   /\ erlang_c_asa_seconds a n aht = Ok infinity
   /\ erlang_c_service_level math_exp a n aht threshold = Ok 0%float)
  /\ (0 < n -> float_le_int a 0 = true ->
      erlang_c_prob_wait a n = Ok 1%float
      /\ (float_gt_int aht 0 = true -> erlang_c_asa_seconds a n aht = Ok 0%float)
      /\ (float_gt_int aht 0 = true -> float_gt_int threshold 0 = true ->
          erlang_c_service_level math_exp a n aht threshold = Ok 1%float)).
Proof.
  split.
  - intros Hn. split; [ apply prob_wait_invalid; now left | ].
    apply Z.leb_le in Hn.
    unfold erlang_c_asa_seconds, erlang_c_service_level. rewrite Hn.
    split.
    + now destruct (float_le_int aht 0).
    + now destruct (float_le_int threshold 0), (float_le_int aht 0).
  - intros Hn Ha. split; [ apply prob_wait_invalid; now right | ].
    apply Z.leb_gt in Hn.
    unfold erlang_c_asa_seconds, erlang_c_service_level. rewrite Hn, Ha.
    split.
    + intros Haht. now rewrite (float_gt_not_le _ _ Haht).
    + intros Haht Hthr.
      now rewrite (float_gt_not_le _ _ Haht), (float_gt_not_le _ _ Hthr).
Qed.

Lemma edge_case_policy_witness :
  (erlang_c_prob_wait 8 0 = Ok 1%float
   /\ erlang_c_asa_seconds 8 0 300 = Ok infinity
   /\ erlang_c_service_level Libm.exp 8 0 300 20 = Ok 0%float)
  /\ (erlang_c_prob_wait 0 10 = Ok 1%float
      /\ erlang_c_asa_seconds 0 10 300 = Ok 0%float
      /\ erlang_c_service_level Libm.exp 0 10 300 20 = Ok 1%float).
Proof.
  destruct (edge_case_policy Libm.exp 8 0 300 20) as [Hn _].
  destruct (edge_case_policy Libm.exp 0 10 300 20) as [_ Ha].
  split.
  - apply Hn. lia.
  - assert (Hpos : 0 < 10) by lia.
    destruct (Ha Hpos eq_refl) as (Hpw & Hasa & Hsl).
    split; [ exact Hpw | split; [ now apply Hasa | now apply Hsl ] ].
Defined.

(** C5, as stated, fails where both the agent count and the traffic are
    non-positive: the guard on the agent count comes first, so the average
    speed of answer is infinite and the service level 0, not 0 and 1. The
    same happens with a non-positive handle time. *)
Lemma edge_case_policy_counterexample :
  float_le_int 0 0 = true
  /\ erlang_c_asa_seconds 0 0 300 = Ok infinity
  /\ erlang_c_service_level Libm.exp 0 0 300 20 = Ok 0%float
  /\ erlang_c_asa_seconds 0 10 0 = Ok infinity
  /\ erlang_c_service_level Libm.exp 0 10 0 20 = Ok 0%float.
Proof. repeat split. Qed.

(** ** Ranges and loops *)

Lemma map_seq_from (A : Type) (f : nat -> A) (s len : nat) :
  map f (seq s len) = map (fun i => f (s + i)%nat) (seq 0 len).
Proof.
  revert f s. induction len as [ | len IH]; intros f s; [ reflexivity | ].
  cbn [seq map]. rewrite Nat.add_0_r. f_equal.
  rewrite (IH f (S s)), (IH (fun i => f (s + i)%nat) 1%nat).
  apply map_ext. intros i. f_equal. lia.
Qed.

Lemma range_In (a b k : Z) : In k (range a b) <-> a <= k < b.
Proof.
  unfold range. rewrite in_map_iff. split.
  - intros (i & <- & Hi). apply in_seq in Hi. lia.
  - intros Hk. exists (Z.to_nat (k - a)). split; [ lia | ].
    apply in_seq. lia.
Qed.

Lemma range_split (a m b : Z) :
  a <= m <= b -> range a b = range a m ++ range m b.
Proof.
  intros H. unfold range.
  replace (Z.to_nat (b - a)) with (Z.to_nat (m - a) + Z.to_nat (b - m))%nat by lia.
  rewrite seq_app, map_app. f_equal.
  cbn [Nat.add]. rewrite map_seq_from.
  apply map_ext. intros i. lia.
Qed.

Lemma range_nil (a b : Z) : b <= a -> range a b = [].
Proof.
  intros H. unfold range. now replace (Z.to_nat (b - a)) with 0%nat by lia.
Qed.

Lemma range_cons (a b : Z) : a < b -> range a b = a :: range (a + 1) b.
Proof.
  intros H. rewrite (range_split a (a + 1) b) by lia.
  unfold range at 1. replace (a + 1 - a) with 1 by lia.
  change (Z.to_nat 1) with 1%nat. cbn [seq map app Z.of_nat].
  f_equal. lia.
Qed.

Lemma for_each_app (A S : Type) (body : S -> A -> result S) (acc : S)
    (xs ys : list A) :
  for_each body acc (xs ++ ys)
  = (acc' <- for_each body acc xs ;; for_each body acc' ys).
Proof.
  revert acc. induction xs as [ | x xs IH]; intros acc; [ reflexivity | ].
  cbn [app for_each bind]. destruct (body acc x); [ apply IH | reflexivity ].
Qed.

(** ** Overflow of the Erlang C terms *)

Lemma float_pow_ok_or_overflow (a : float) (k : N) : ok_or_overflow (float_pow a k).
Proof.
  unfold ok_or_overflow, float_pow.
  destruct k; [ left; eauto | ].
  destruct (Prim2SF a); try (left; eexists; reflexivity).
  destruct (is_infinity _); [ now right | left; eauto ].
Qed.

Lemma factorial_fits_170 (k : Z) : 0 <= k <= 170 -> factorial_fits k = true.
Proof.
  intros Hk.
  assert (Hall : forallb factorial_fits (range 0 171) = true) by (vm_compute; reflexivity).
  rewrite forallb_forall in Hall. apply Hall, range_In. lia.
Qed.

Lemma factorial_171 : _factorial 171 = Raise OverflowError.
Proof. vm_compute. reflexivity. Qed.

Lemma term_ok_or_overflow (a : float) (k : Z) :
  0 <= k <= 170 -> ok_or_overflow (power_over_factorial a k).
Proof.
  intros Hk. unfold power_over_factorial.
  destruct (float_pow_ok_or_overflow a (Z.to_N k)) as [[p ->] | ->]; [ | now right ].
  pose proof (factorial_fits_170 k Hk) as Hf. unfold factorial_fits in Hf.
  cbn [bind]. destruct (_factorial k) as [f | ]; [ | discriminate ].
  cbn [bind]. unfold truediv.
  apply negb_true_iff in Hf. rewrite Hf. left; eauto.
Qed.

Lemma term_171 (a : float) : power_over_factorial a 171 = Raise OverflowError.
Proof.
  unfold power_over_factorial.
  destruct (float_pow_ok_or_overflow a (Z.to_N 171)) as [[p ->] | ->]; [ | reflexivity ].
  cbn [bind]. now rewrite factorial_171.
Qed.

Lemma sum_ok_or_overflow (a : float) (ks : list Z) (s : float) :
  (forall k, In k ks -> 0 <= k <= 170) ->
  ok_or_overflow
    (for_each (fun s k => q <- power_over_factorial a k ;; Ok (s + q)%float) s ks).
Proof.
  revert s. induction ks as [ | k ks IH]; intros s Hks; [ left; cbn; eauto | ].
  cbn [for_each].
  destruct (term_ok_or_overflow a k) as [[q ->] | ->];
    [ apply Hks; now left | | now right ].
  cbn [bind]. apply IH. intros k' Hk'. apply Hks. now right.
Qed.

(** From 171 agents on, the wait probability of a stable queue is never
    computed: the sum or the numerator raises OverflowError. *)
Lemma prob_wait_raises (a : float) (n : Z) :
  171 <= n ->
  float_gt_int a 0 = true ->
  float_ge_int a n = false ->
  erlang_c_prob_wait a n = Raise OverflowError.
Proof.
  intros Hn Hpos Hlt. unfold erlang_c_prob_wait.
  replace (n <=? 0) with false by (symmetry; apply Z.leb_gt; lia).
  rewrite (float_gt_not_le _ _ Hpos), Hlt. cbn [orb].
  rewrite (range_split 0 171 n) by lia. rewrite for_each_app.
  destruct (sum_ok_or_overflow a (range 0 171) 0) as [[s ->] | ->];
    [ intros k Hk; apply range_In in Hk; lia | | reflexivity ].
  cbn [bind].
  destruct (Z.eq_dec n 171) as [-> | Hne].
  - replace (range 171 171) with (@nil Z) by reflexivity.
    cbn [for_each bind]. now rewrite term_171.
  - rewrite (range_cons 171 n) by lia. cbn [for_each].
    now rewrite term_171.
Qed.

(** C3 fails on the code: for every agent count from 171 to the default
    ceiling 500 and every traffic intensity [0 < a < n], the wait
    probability is not returned, OverflowError is raised. *)
Theorem prob_wait_overflow (a : float) (n : Z) :
  171 <= n <= 500 ->
  float_gt_int a 0 = true ->
  float_ge_int a n = false ->
  erlang_c_prob_wait a n = Raise OverflowError.
Proof.
  intros Hn Hpos Hlt. apply prob_wait_raises; trivial; lia.
Qed.

Lemma prob_wait_overflow_witness :
  erlang_c_prob_wait 1 171 = Raise OverflowError.
Proof.
  apply (prob_wait_overflow 1 171); [ lia | reflexivity | reflexivity ].
Defined.

Lemma service_level_raises (math_exp : float -> result float)
    (a : float) (n : Z) (aht threshold : float) :
  171 <= n ->
  float_gt_int a 0 = true ->
  float_ge_int a n = false ->
  float_gt_int aht 0 = true ->
  float_gt_int threshold 0 = true ->
  erlang_c_service_level math_exp a n aht threshold = Raise OverflowError.
Proof.
  intros Hn Ha Han Haht Hthr. unfold erlang_c_service_level.
  rewrite (float_gt_not_le _ _ Hthr), (float_gt_not_le _ _ Haht),
    (float_gt_not_le _ _ Ha), Han.
  replace (n <=? 0) with false by (symmetry; apply Z.leb_gt; lia).
  now rewrite prob_wait_raises.
Qed.

Lemma service_level_saturated (math_exp : float -> result float)
    (a : float) (n : Z) (aht threshold : float) :
  0 < n ->
  float_ge_int a n = true ->
  float_gt_int aht 0 = true ->
  float_gt_int threshold 0 = true ->
  erlang_c_service_level math_exp a n aht threshold = Ok 0%float.
Proof.
  intros Hn Han Haht Hthr. unfold erlang_c_service_level.
  rewrite (float_gt_not_le _ _ Hthr), (float_gt_not_le _ _ Haht), Han.
  replace (n <=? 0) with false by (symmetry; apply Z.leb_gt; lia).
  now rewrite (float_ge_not_le_below a n 0 Han Hn).
Qed.

(** C7 fails on the code: from 171 agents up to the ceiling the service
    level of a stable queue is not a number, so it is not a non-decreasing
    function of the agent count there. *)
Theorem service_level_overflow (math_exp : float -> result float)
    (a : float) (n : Z) (aht threshold : float) :
  171 <= n <= 500 ->
  float_gt_int a 0 = true ->
  float_ge_int a n = false ->
  float_gt_int aht 0 = true ->
  float_gt_int threshold 0 = true ->
  erlang_c_service_level math_exp a n aht threshold = Raise OverflowError.
Proof.
  intros Hn. apply service_level_raises. lia.
Qed.

Lemma service_level_overflow_witness :
  erlang_c_service_level Libm.exp 1 171 300 20 = Raise OverflowError.
Proof.
  apply (service_level_overflow Libm.exp 1 171 300 20); [ lia | reflexivity .. ].
Defined.

(** One agent fewer, the service level is still computed. *)
Example service_level_at_170 :
  erlang_c_service_level Libm.exp 1 170 300 20 = Ok 1%float.
Proof. vm_compute. reflexivity. Qed.

(** ** The staffing solver *)

Section StaffingSolver.

Variable math_exp : float -> result float.

Variables traffic aht threshold target : float.

Lemma search_sla_found (a b n : Z) :
  search_sla math_exp traffic aht threshold target (range a b) = Ok (Some n) ->
  a <= n < b
  /\ (exists v, erlang_c_service_level math_exp traffic n aht threshold = Ok v
                /\ (target <=? v)%float = true)
  /\ forall m, a <= m < n -> misses math_exp traffic aht threshold target m.
Proof.
  remember (Z.to_nat (b - a)) as k eqn:Hk. revert a Hk.
  induction k as [ | k IH]; intros a Hk.
  - rewrite range_nil by lia. discriminate.
  - rewrite range_cons by lia. cbn [search_sla].
    destruct (erlang_c_service_level math_exp traffic a aht threshold) as [v | ] eqn:Hsl;
      cbn [bind]; [ | discriminate ].
    destruct (target <=? v)%float eqn:Hv.
    + intros [= <-]. split; [ lia | ]. split; [ now exists v | ]. intros m Hm. lia.
    + intros Hrest. destruct (IH (a + 1) ltac:(lia) Hrest) as (Hn & Hmeets & Hbelow).
      split; [ lia | ]. split; [ exact Hmeets | ].
      intros m Hm. destruct (Z.eq_dec m a) as [-> | Hne].
      * exists v. now split.
      * apply Hbelow. lia.
Qed.

Lemma search_sla_exhausted (candidates : list Z) :
  search_sla math_exp traffic aht threshold target candidates = Ok None ->
  Forall (misses math_exp traffic aht threshold target) candidates.
Proof.
  induction candidates as [ | m rest IH]; cbn [search_sla]; [ constructor | ].
  destruct (erlang_c_service_level math_exp traffic m aht threshold) as [v | ] eqn:Hsl;
    cbn [bind]; [ | discriminate ].
  destruct (target <=? v)%float eqn:Hv; [ discriminate | ].
  intros Hrest. constructor; [ exists v; now split | now apply IH ].
Qed.

End StaffingSolver.

(** When the solver returns, it returns the first count of its range that
    meets the target, or the ceiling after every count of the range has
    missed it. *)
Lemma required_agents_for_sla_returns (math_exp : float -> result float)
    (contacts : float) (interval_seconds : Z) (aht threshold target : float)
    (max_agents n : Z) :
  required_agents_for_sla math_exp contacts interval_seconds aht threshold target
    max_agents = Ok n ->
  exists traffic c,
    traffic_of contacts interval_seconds aht = Ok traffic
    /\ math_ceil traffic = Ok c
    /\ ((Z.max 1 c <= n <= max_agents
         /\ (exists v, erlang_c_service_level math_exp traffic n aht threshold = Ok v
                       /\ (target <=? v)%float = true)
         /\ forall m, Z.max 1 c <= m < n -> misses math_exp traffic aht threshold target m)
        \/ (n = max_agents
            /\ forall m, Z.max 1 c <= m <= max_agents ->
                         misses math_exp traffic aht threshold target m)).
Proof.
  unfold required_agents_for_sla.
  destruct (traffic_of contacts interval_seconds aht) as [traffic | ] eqn:Ht;
    [ | discriminate ].
  cbn [bind]. destruct (math_ceil traffic) as [c | ] eqn:Hc; [ | discriminate ].
  cbn [bind].
  destruct (search_sla _ _ _ _ _ _) as [[found | ] | ] eqn:Hs; cbn [bind]; [ | | discriminate ].
  - intros [= <-]. exists traffic, c. split; trivial. split; trivial. left.
    apply search_sla_found in Hs. destruct Hs as (Hn & Hmeets & Hbelow).
    split; [ lia | ]. split; trivial.
  - intros [= <-]. exists traffic, c. split; trivial. split; trivial. right.
    split; trivial.
    intros m Hm. apply search_sla_exhausted in Hs.
    rewrite Forall_forall in Hs. apply Hs, range_In. lia.
Qed.

(** The ceiling of a float against the exact comparisons. *)
Lemma ceil_bounds (x : float) (c : Z) :
  math_ceil x = Ok c ->
  0 < c ->
  float_gt_int x 0 = true /\ float_ge_int x (c + 1) = false.
Proof.
  unfold math_ceil, float_gt_int, float_ge_int, float_cmp_int.
  destruct (Prim2SF x) as [s | s | | s m e]; try discriminate.
  - intros [= <-]. lia.
  - destruct (0 <=? e) eqn:He; intros [= <-] Hc.
    + destruct (Z.compare_spec (signed s m * 2 ^ e) 0);
        destruct (Z.compare_spec (signed s m * 2 ^ e) (signed s m * 2 ^ e + 1));
        (split; [ reflexivity || lia | reflexivity || lia ]).
    + apply Z.leb_gt in He.
      assert (Hp : 0 < 2 ^ (- e)) by (apply Z.pow_pos_nonneg; lia).
      pose proof (Z.div_mod (- signed s m) (2 ^ (- e)) ltac:(lia)) as Hdm.
      pose proof (Z.mod_pos_bound (- signed s m) (2 ^ (- e)) Hp) as Hmod.
      set (p := 2 ^ (- e)) in *. set (q := (- signed s m) / p) in *.
      set (r := (- signed s m) mod p) in *. cbn [Z.mul] in *.
      clearbody p q r.
      destruct (Z.compare_spec (signed s m) 0);
        destruct (Z.compare_spec (signed s m) ((- q + 1) * p));
        (split; [ reflexivity || nia | reflexivity || nia ]).
Qed.

(** C6 fails on the code: when the offered load rounds up to a count
    between 171 and the ceiling, the solver returns no agent count for a
    target above 0, neither a smallest one nor the ceiling; the search
    raises OverflowError. *)
Theorem solver_overflow (math_exp : float -> result float)
    (contacts : float) (interval_seconds : Z) (aht threshold target : float)
    (max_agents : Z) (traffic : float) (c : Z) :
  traffic_of contacts interval_seconds aht = Ok traffic ->
  math_ceil traffic = Ok c ->
  171 <= c < max_agents ->
  float_gt_int aht 0 = true ->
  float_gt_int threshold 0 = true ->
  (target <=? 0)%float = false ->
  required_agents_for_sla math_exp contacts interval_seconds aht threshold target
    max_agents = Raise OverflowError.
Proof.
  intros Ht Hc Hrange Haht Hthr Htarget. unfold required_agents_for_sla.
  rewrite Ht. cbn [bind]. rewrite Hc. cbn [bind].
  destruct (ceil_bounds traffic c Hc ltac:(lia)) as [Hpos Hbelow].
  replace (Z.max 1 c) with c by lia.
  rewrite (range_cons c (max_agents + 1)) by lia. cbn [search_sla].
  destruct (float_ge_int traffic c) eqn:Hsat.
  - rewrite (service_level_saturated math_exp traffic c aht threshold) by (trivial; lia).
    cbn [bind]. rewrite Htarget.
    rewrite (range_cons (c + 1) (max_agents + 1)) by lia. cbn [search_sla].
    now rewrite (service_level_raises math_exp traffic (c + 1) aht threshold)
      by (trivial; lia).
  - now rewrite (service_level_raises math_exp traffic c aht threshold)
      by (trivial; lia).
Qed.

(** 1024 contacts an hour of 900 seconds each are 256 Erlangs. *)
Lemma solver_overflow_witness :
  required_agents_for_sla Libm.exp 1024 3600 900 20 0.8 500 = Raise OverflowError.
Proof.
  apply (solver_overflow Libm.exp 1024 3600 900 20 0.8 500 256 256);
    [ reflexivity | reflexivity | lia | reflexivity .. ].
Defined.

(** The first failing term of that search: [256.0 ** 128]. *)
Example power_overflow_256 :
  float_pow 256 127 = Ok 0x1p+1016%float
  /\ float_pow 256 128 = Raise OverflowError
  /\ erlang_c_service_level Libm.exp 256 256 900 20 = Ok 0%float
  /\ erlang_c_service_level Libm.exp 256 257 900 20 = Raise OverflowError.
Proof. repeat split; vm_compute; reflexivity. Qed.

(** ** Shrinkage *)

(** C8 fails on the code: 63 required agents at shrinkage 0.3 give 90
    scheduled agents in both solvers, and 90 scheduled agents give 62
    available ones, the float product [90 * (1 - 0.3)] being below 63. *)
Theorem shrinkage_round_trip_loses_an_agent :
  scheduled_from_available 63 0.3 = Ok 90
  /\ required_agents_throughput 63 3600 3600 0.3 1
     = Ok (mkStaffingResult 63 90)
  /\ clamp_shrinkage 0.3 = 0.3%float
  /\ Np.floor_int (Np.of_int 90 * (1 - clamp_shrinkage 0.3))%float = 62
  /\ apply_shrinkage 90 0.3 = 62.999999999999993%float.
Proof. repeat split; vm_compute; reflexivity. Qed.

(** ** Calls by keyword *)

Lemma bind_keywords_unexpected (sig : signature) (kw : keywords)
    (name : string) (v : pyval) :
  In (name, v) kw ->
  has_parameter sig name = false ->
  bind_keywords sig kw = Raise TypeError.
Proof.
  intros Hin Hno. unfold bind_keywords.
  destruct (forallb (fun kv => has_parameter sig (fst kv)) kw) eqn:Hall; [ | reflexivity ].
  rewrite forallb_forall in Hall. specialize (Hall _ Hin). cbn [fst] in Hall.
  congruence.
Qed.

Lemma allowed_interval_converts (interval_minutes : Z) :
  In interval_minutes ALLOWED_INTERVAL_MINUTES ->
  exists m, float_of_int interval_minutes = Ok m.
Proof.
  intros H. repeat (destruct H as [<- | H]; [ eexists; vm_compute; reflexivity | ]).
  destruct H.
Qed.

Section Simulator.

Variable math_exp : float -> result float.

Lemma realtime_call_rejected (c a i t g s o : pyval) :
  call_required_agents_realtime math_exp
    [ ("contacts", c); ("aht_seconds", a); ("interval_seconds", i);
      ("sla_threshold_seconds", t); ("sla_target", g);
      ("shrinkage", s); ("occupancy_cap", o) ] = Raise TypeError.
Proof.
  unfold call_required_agents_realtime.
  rewrite (bind_keywords_unexpected signature_realtime _ "shrinkage" s);
    [ reflexivity | cbn; tauto | reflexivity ].
Qed.

Lemma throughput_call_rejected (c a i s b : pyval) :
  call_required_agents_throughput
    [ ("contacts", c); ("aht_seconds", a); ("interval_seconds", i);
      ("shrinkage", s); ("buffer", b) ] = Raise TypeError.
Proof.
  unfold call_required_agents_throughput.
  rewrite (bind_keywords_unexpected signature_throughput _ "shrinkage" s);
    [ reflexivity | cbn; tauto | reflexivity ].
Qed.

Lemma summary_call_rejected (c a i n t : pyval) :
  call_erlang_c_summary math_exp
    [ ("contacts", c); ("aht_seconds", a); ("interval_seconds", i);
      ("agents_available", n); ("sla_threshold_seconds", t) ] = Raise TypeError.
Proof.
  unfold call_erlang_c_summary.
  rewrite (bind_keywords_unexpected signature_summary _ "agents_available" n);
    [ reflexivity | cbn; tauto | reflexivity ].
Qed.

Lemma required_pass_raises (interval_seconds : Z) (scenario : Scenario)
    (row : ScenarioRow) :
  required_pass math_exp interval_seconds scenario row = Raise TypeError.
Proof.
  unfold required_pass. destruct (row_is_realtime (row_ref row)).
  - now rewrite realtime_call_rejected.
  - now rewrite throughput_call_rejected.
Qed.

End Simulator.

(** C1: on a forecast with at least one row the simulator raises TypeError
    in the first iteration of its first loop, so it returns no outcome
    record.  Each of the three keyword calls it makes is rejected, whatever
    the values passed: [shrinkage], [occupancy_cap], [agents_available] and
    [buffer] name no parameter of their callee, which has
    [shrinkage_rate], [agents] and [productivity]. *)
Theorem simulator_raises_type_error (math_exp : float -> result float)
    (row : ForecastRecord) (rows : list ForecastRecord)
    (staffing_ref : list StaffingRef) (interval_minutes : Z) (scenario : Scenario) :
  In interval_minutes ALLOWED_INTERVAL_MINUTES ->
  _simulate_scenario math_exp (row :: rows) staffing_ref interval_minutes scenario
  = Raise TypeError
  /\ (forall c a i t g s o,
        call_required_agents_realtime math_exp
          [ ("contacts", c); ("aht_seconds", a); ("interval_seconds", i);
            ("sla_threshold_seconds", t); ("sla_target", g);
            ("shrinkage", s); ("occupancy_cap", o) ] = Raise TypeError)
  /\ (forall c a i n t,
        call_erlang_c_summary math_exp
          [ ("contacts", c); ("aht_seconds", a); ("interval_seconds", i);
            ("agents_available", n); ("sla_threshold_seconds", t) ] = Raise TypeError)
  /\ (forall c a i s b,
        call_required_agents_throughput
          [ ("contacts", c); ("aht_seconds", a); ("interval_seconds", i);
            ("shrinkage", s); ("buffer", b) ] = Raise TypeError)
  /\ map (has_parameter signature_realtime)
         [ "shrinkage"; "occupancy_cap"; "shrinkage_rate" ] = [ false; false; true ]
  /\ map (has_parameter signature_summary)
         [ "agents_available"; "agents" ] = [ false; true ]
  /\ map (has_parameter signature_throughput)
         [ "shrinkage"; "buffer"; "shrinkage_rate"; "productivity" ]
     = [ false; false; true; true ].
Proof.
  intros Hallowed. split; [ | split; [ | split; [ | split; [ | split ] ] ] ].
  - unfold _simulate_scenario.
    destruct (allowed_interval_converts _ Hallowed) as [m ->].
    cbn [bind map map_result]. now rewrite required_pass_raises.
  - apply realtime_call_rejected.
  - apply summary_call_rejected.
  - apply throughput_call_rejected.
  - reflexivity.
  - split; reflexivity.
Qed.

Lemma simulator_raises_type_error_witness :
  _simulate_scenario Libm.exp
    [ mkForecastRecord 0 "voice" "support" 100 60 ]
    [ mkStaffingRef "voice" "support" 22 0.3 20 300 true ]
    60 (mkScenario "base" "Baseline" 1.00 0.00 1.00 0.08)
  = Raise TypeError.
Proof.
  apply (simulator_raises_type_error Libm.exp
           (mkForecastRecord 0 "voice" "support" 100 60) []
           [ mkStaffingRef "voice" "support" 22 0.3 20 300 true ]
           60 (mkScenario "base" "Baseline" 1.00 0.00 1.00 0.08)).
  cbn. tauto.
Defined.

(** An interval length beyond the floats fails earlier, on
    [interval_minutes / 60.0], with OverflowError. *)
Example simulator_interval_too_large :
  _simulate_scenario Libm.exp [ mkForecastRecord 0 "voice" "support" 100 (2 ^ 1024) ] []
    (2 ^ 1024) (mkScenario "base" "Baseline" 1.00 0.00 1.00 0.08)
  = Raise OverflowError.
Proof. vm_compute. reflexivity. Qed.

(** Without rows both loops are empty and the simulator returns an empty
    frame. *)
Example simulator_empty_forecast :
  _simulate_scenario Libm.exp [] [] 60 (mkScenario "base" "Baseline" 1.00 0.00 1.00 0.08)
  = Ok [].
Proof. reflexivity. Qed.

(** C2 fails on the code: for a forecast row of either discipline the
    staffing solver, called directly with the reference metadata, returns
    its required agents, and the simulator under the base scenario returns
    nothing to compare them with. *)
Theorem base_scenario_reproduces_nothing :
  let base := mkScenario "base" "Baseline" 1.00 0.00 1.00 0.08 in
  let staffing_ref :=
    [ mkStaffingRef "voice" "support" 22 0.3 20 300 true;
      mkStaffingRef "email" "support" 22 0.3 3600 300 false ] in
  In base DEFAULT_SCENARIOS
  /\ required_agents_realtime Libm.exp 100 3600 300 20 0.8 0.3
     = Ok (mkStaffingResult 12 18)
  /\ _simulate_scenario Libm.exp [ mkForecastRecord 0 "voice" "support" 100 60 ]
       staffing_ref 60 base = Raise TypeError
  /\ required_agents_throughput 100 3600 300 0.3 1
     = Ok (mkStaffingResult 9 13)
  /\ _simulate_scenario Libm.exp [ mkForecastRecord 0 "email" "support" 100 60 ]
       staffing_ref 60 base = Raise TypeError.
Proof.
  cbv zeta. split; [ now left | ].
  repeat split; vm_compute; reflexivity.
Qed.

(** ** Floats: zero operands

    Facts of IEEE 754 arithmetic read off the specification of the
    primitive operations. *)

Lemma finite_cases (x : float) :
  is_finite x = true ->
  (exists s, Prim2SF x = S754_zero s) \/ (exists s m e, Prim2SF x = S754_finite s m e).
Proof.
  unfold is_finite, Prim2SF.
  destruct (is_nan x); [ discriminate | ].
  destruct (is_infinity x); [ rewrite andb_false_r; discriminate | ].
  intros _. destruct (is_zero x); [ left; eauto | ].
  destruct (Z.frexp x) as [r ex].
  destruct (shr_fexp _ _ _ _ _) as [sh e'].
  destruct (shr_m sh); [ left | right | left ]; eauto.
Qed.


Lemma zero_mul_finite (x : float) :
  is_finite x = true -> exists s, Prim2SF (0 * x)%float = S754_zero s.
Proof.
  intros H. rewrite mul_spec.
  destruct (finite_cases x H) as [[s ->] | (s & m & e & ->)]; cbn; eauto.
Qed.

Lemma add_zero (x z : float) (s : bool) :
  Prim2SF z = S754_zero s ->
  (x + z)%float = x
  \/ exists s1 s2, Prim2SF x = S754_zero s1 /\ Prim2SF (x + z)%float = S754_zero s2.
Proof.
  intros Hz.
  pose proof (add_spec x z) as Hadd. rewrite Hz in Hadd.
  destruct (Prim2SF x) as [s1 | s1 | | s1 m e] eqn:Hx.
  - right. exists s1. unfold SF64add, SFadd in Hadd.
    destruct s1, s; eexists; (split; [ reflexivity | exact Hadd ]).
  - left. apply Prim2SF_inj. now rewrite Hadd, Hx.
  - left. apply Prim2SF_inj. now rewrite Hadd, Hx.
  - left. apply Prim2SF_inj. now rewrite Hadd, Hx.
Qed.

Lemma leb_zero (y : float) (s : bool) :
  Prim2SF y = S754_zero s -> (y <=? 0)%float = true.
Proof. intros H. rewrite leb_spec, H. reflexivity. Qed.

Lemma eqb_zero (y : float) (s : bool) :
  Prim2SF y = S754_zero s -> (y =? 0)%float = true.
Proof. intros H. rewrite FloatAxioms.eqb_spec, H. reflexivity. Qed.

(** ** Probabilities are clamped

    Whenever the wait probability or the service level is returned, it is
    a float between 0 and 1 (so not a NaN). *)

Lemma ltb_leb (x y : float) : (x <? y)%float = true -> (x <=? y)%float = true.
Proof.
  rewrite ltb_spec, leb_spec. unfold SFltb, SFleb.
  now destruct (SFcompare (Prim2SF x) (Prim2SF y)) as [[ | | ] | ].
Qed.

Lemma clamp_unit (x : float) : in_unit_interval (max 0 (min 1 x)).
Proof.
  unfold in_unit_interval, max, min.
  destruct (x <? 1)%float eqn:H1.
  - destruct (0 <? x)%float eqn:H0.
    + split; now apply ltb_leb.
    + split; reflexivity.
  - change (0 <? 1)%float with true. cbv iota. split; reflexivity.
Qed.

Lemma prob_wait_is_probability (a : float) (n : Z) (p : float) :
  erlang_c_prob_wait a n = Ok p -> in_unit_interval p.
Proof.
  unfold erlang_c_prob_wait.
  destruct ((n <=? 0) || float_le_int a 0); [ intros [= <-]; now split | ].
  destruct (float_ge_int a n); [ intros [= <-]; now split | ].
  destruct (for_each _ _ _) as [s | ]; cbn [bind]; [ | discriminate ].
  destruct (power_over_factorial a n) as [q | ]; cbn [bind]; [ | discriminate ].
  destruct (float_of_int n) as [nf | ]; cbn [bind]; [ | discriminate ].
  destruct (truediv nf _) as [r | ]; cbn [bind]; [ | discriminate ].
  destruct (float_le_int _ 0); [ intros [= <-]; now split | ].
  destruct (truediv _ _) as [pw | ]; cbn [bind]; [ | discriminate ].
  intros [= <-]. apply clamp_unit.
Qed.

Lemma service_level_is_probability (math_exp : float -> result float)
    (a : float) (n : Z) (aht threshold p : float) :
  erlang_c_service_level math_exp a n aht threshold = Ok p -> in_unit_interval p.
Proof.
  unfold erlang_c_service_level.
  repeat (match goal with
          | |- context [if ?c then _ else _] => destruct c
          end; [ intros [= <-]; now split | ]).
  destruct (erlang_c_prob_wait a n) as [pw | ]; cbn [bind]; [ | discriminate ].
  destruct (float_of_int n) as [nf | ]; cbn [bind]; [ | discriminate ].
  destruct (truediv threshold aht) as [ratio | ]; cbn [bind]; [ | discriminate ].
  destruct (math_exp _) as [e | ]; cbn [bind]; [ | discriminate ].
  intros [= <-]. apply clamp_unit.
Qed.

(** The example of the specification: 8 Erlangs on 10 agents are stable
    but congested, 12 Erlangs on 10 agents are unstable. *)
Example service_level_congested_and_unstable :
  erlang_c_service_level Libm.exp 8 10 300 20 = Ok 0.64189644934098278%float
  /\ erlang_c_service_level Libm.exp 12 10 300 20 = Ok 0%float.
Proof. split; vm_compute; reflexivity. Qed.

(** ** Projection *)


(** ** Floats: classes, signs, small ints *)

Lemma is_nan_spec (x : float) :
  is_nan x = match Prim2SF x with S754_nan => true | _ => false end.
Proof.
  unfold is_nan. rewrite FloatAxioms.eqb_spec. unfold SFeqb.
  destruct (Prim2SF x) as [[ | ] | [ | ] | | [ | ] m e]; cbn; trivial;
    rewrite Z.compare_refl, Pos.compare_refl; reflexivity.
Qed.

Lemma is_infinity_spec (x : float) :
  is_infinity x = match Prim2SF x with S754_infinity _ => true | _ => false end.
Proof.
  unfold is_infinity. rewrite FloatAxioms.eqb_spec, abs_spec. unfold SFeqb.
  destruct (Prim2SF x) as [[ | ] | [ | ] | | [ | ] m e]; reflexivity.
Qed.

Lemma is_finite_spec (x : float) :
  is_finite x
  = match Prim2SF x with S754_zero _ | S754_finite _ _ _ => true | _ => false end.
Proof.
  unfold is_finite. rewrite is_nan_spec, is_infinity_spec.
  now destruct (Prim2SF x).
Qed.

Lemma binary_round_aux_class (s : bool) (m e : Z) (l : location) :
  match binary_round_aux prec emax s m e l with
  | S754_zero s' | S754_infinity s' | S754_finite s' _ _ => s' = s
  | S754_nan => True
  end.
Proof.
  unfold binary_round_aux.
  destruct (shr_fexp prec emax m e l) as [mrs e'].
  destruct (shr_fexp prec emax _ e' loc_Exact) as [mrs' e''].
  destruct (shr_m mrs'); trivial.
  now destruct (e'' <=? emax - prec).
Qed.

Lemma shr_1_nonneg (mrs : shr_record) : 0 <= shr_m mrs -> 0 <= shr_m (shr_1 mrs).
Proof.
  destruct mrs as [m r s]. cbn.
  destruct m as [ | [p | p | ] | [p | p | ]]; cbn; lia.
Qed.

Lemma iter_shr_1_nonneg (p : positive) (mrs : shr_record) :
  0 <= shr_m mrs -> 0 <= shr_m (iter_pos shr_1 p mrs).
Proof.
  revert mrs. induction p as [p IH | p IH | ]; intros mrs H; cbn.
  - apply IH, IH, shr_1_nonneg, H.
  - apply IH, IH, H.
  - apply shr_1_nonneg, H.
Qed.

Lemma shr_fexp_nonneg (m e : Z) (l : location) :
  0 <= m -> 0 <= shr_m (fst (shr_fexp prec emax m e l)).
Proof.
  intros H. unfold shr_fexp, shr.
  assert (H0 : 0 <= shr_m (shr_record_of_loc m l)) by (now destruct l as [ | [ | | ]]).
  destruct (fexp prec emax (Zdigits2 m + e) - e); cbn [fst]; trivial.
  now apply iter_shr_1_nonneg.
Qed.

(** Rounding a mantissa that is not negative gives no NaN. *)
Lemma binary_round_aux_not_nan (s : bool) (m e : Z) (l : location) :
  0 <= m ->
  match binary_round_aux prec emax s m e l with
  | S754_zero s' | S754_infinity s' | S754_finite s' _ _ => s' = s
  | S754_nan => False
  end.
Proof.
  intros H. unfold binary_round_aux.
  pose proof (shr_fexp_nonneg m e l H) as H1.
  destruct (shr_fexp prec emax m e l) as [mrs e']. cbn [fst] in H1.
  assert (H2 : 0 <= round_nearest_even (shr_m mrs) (loc_of_shr_record mrs)).
  { unfold round_nearest_even.
    destruct (loc_of_shr_record mrs) as [ | [ | | ]]; try lia.
    destruct (Z.even (shr_m mrs)); lia. }
  pose proof (shr_fexp_nonneg _ e' loc_Exact H2) as H3.
  destruct (shr_fexp prec emax _ e' loc_Exact) as [mrs' e'']. cbn [fst] in H3.
  destruct (shr_m mrs'); try lia; trivial.
  now destruct (e'' <=? emax - prec).
Qed.

Lemma not_neg_spec (x : float) : (x <? 0)%float = false <-> sf_not_neg (Prim2SF x).
Proof.
  rewrite ltb_spec. change (Prim2SF 0) with (S754_zero false).
  destruct (Prim2SF x) as [s | [ | ] | | [ | ] m e]; cbn; intuition congruence.
Qed.

Lemma pos_spec (x : float) : (0 <? x)%float = true <-> sf_pos (Prim2SF x).
Proof.
  rewrite ltb_spec. change (Prim2SF 0) with (S754_zero false).
  destruct (Prim2SF x) as [s | [ | ] | | [ | ] m e]; cbn; intuition congruence.
Qed.

Lemma pos_not_neg (x : float) : (0 <? x)%float = true -> (x <? 0)%float = false.
Proof.
  rewrite pos_spec, not_neg_spec. now destruct (Prim2SF x) as [s | [ | ] | | [ | ] m e].
Qed.

Lemma leb_zero_not_neg (x : float) : (0 <=? x)%float = true -> (x <? 0)%float = false.
Proof.
  rewrite not_neg_spec, leb_spec. change (Prim2SF 0) with (S754_zero false).
  destruct (Prim2SF x) as [s | [ | ] | | [ | ] m e]; cbn; intuition congruence.
Qed.

Lemma pos_not_zero (x : float) : (0 <? x)%float = true -> (x =? 0)%float = false.
Proof.
  rewrite pos_spec, FloatAxioms.eqb_spec. change (Prim2SF 0) with (S754_zero false).
  now destruct (Prim2SF x) as [s | [ | ] | | [ | ] m e].
Qed.

Lemma mul_not_neg (x y : float) :
  (x <? 0)%float = false -> (y <? 0)%float = false -> (x * y <? 0)%float = false.
Proof.
  rewrite !not_neg_spec, mul_spec.
  destruct (Prim2SF x) as [sx | [ | ] | | [ | ] mx ex];
    destruct (Prim2SF y) as [sy | [ | ] | | [ | ] my ey]; cbn; trivial; try tauto.
  intros _ _.
  pose proof (binary_round_aux_class false (Z.pos (mx * my)) (ex + ey) loc_Exact) as H.
  destruct (binary_round_aux _ _ _ _ _ _); subst; exact I.
Qed.

Lemma div_not_neg (x y : float) :
  (x <? 0)%float = false -> (0 <? y)%float = true -> (x / y <? 0)%float = false.
Proof.
  rewrite pos_spec, !not_neg_spec, div_spec.
  destruct (Prim2SF x) as [sx | [ | ] | | [ | ] mx ex];
    destruct (Prim2SF y) as [sy | [ | ] | | [ | ] my ey]; cbn; trivial; try tauto.
  intros _ _.
  destruct (SFdiv_core_binary prec emax (Z.pos mx) ex (Z.pos my) ey) as [[mz ez] lz].
  pose proof (binary_round_aux_class false mz ez lz) as H.
  destruct (binary_round_aux _ _ _ _ _ _); subst; exact I.
Qed.

(** The built-in [max] with a positive first argument is positive, and
    with a zero first argument it is not below zero, whatever the second
    argument is (a NaN included). *)
Lemma max_pos (c x : float) : (0 <? c)%float = true -> (0 <? max c x)%float = true.
Proof.
  intros Hc. unfold max. destruct (c <? x)%float eqn:Hx; trivial.
  revert Hc Hx. rewrite !ltb_spec. change (Prim2SF 0) with (S754_zero false).
  destruct (Prim2SF c) as [sc | [ | ] | | [ | ] mc ec];
    destruct (Prim2SF x) as [sx | [ | ] | | [ | ] mx ex]; cbn; congruence.
Qed.

Lemma max_zero_not_neg (x : float) : (0 <=? max 0 x)%float = true.
Proof.
  unfold max. destruct (0 <? x)%float eqn:Hx; [ now apply ltb_leb | reflexivity ].
Qed.

(** A float that is not at most 0 as an int comparison is not below 0. *)
Lemma neg_mantissa_scaled (m : positive) (e : Z) : 0 <= e -> Z.neg m * 2 ^ e < 0.
Proof.
  intros He. pose proof (Z.pow_pos_nonneg 2 e ltac:(lia) He). nia.
Qed.

Lemma not_le_zero_not_neg (x : float) :
  float_le_int x 0 = false -> (x <? 0)%float = false.
Proof.
  rewrite not_neg_spec. unfold float_le_int, float_cmp_int.
  destruct (Prim2SF x) as [s | [ | ] | | [ | ] m e];
    cbn -[Z.mul Z.pow Z.compare]; trivial; try discriminate.
  destruct (0 <=? e) eqn:He.
  - apply Z.leb_le in He. pose proof (neg_mantissa_scaled m e He) as H.
    destruct (Z.compare_spec (Z.neg m * 2 ^ e) 0); try lia; discriminate.
  - destruct (Z.compare_spec (Z.neg m) 0); try lia; discriminate.
Qed.

Lemma gt_zero_pos (x : float) : float_gt_int x 0 = true -> (0 <? x)%float = true.
Proof.
  rewrite pos_spec. unfold float_gt_int, float_cmp_int.
  destruct (Prim2SF x) as [s | [ | ] | | [ | ] m e];
    cbn -[Z.mul Z.pow Z.compare]; trivial; try discriminate.
  destruct (0 <=? e) eqn:He.
  - apply Z.leb_le in He. pose proof (neg_mantissa_scaled m e He) as H.
    destruct (Z.compare_spec (Z.neg m * 2 ^ e) 0); try lia; discriminate.
  - destruct (Z.compare_spec (Z.neg m) 0); try lia; discriminate.
Qed.

Lemma digits2_size (p : positive) : digits2_pos p = Pos.size p.
Proof. induction p; cbn; congruence. Qed.

Lemma digits2_shift (p k : positive) :
  digits2_pos (Pos.iter xO p k) = (digits2_pos p + k)%positive.
Proof.
  induction k using Pos.peano_ind.
  - cbn. lia.
  - rewrite Pos.iter_succ. cbn [digits2_pos]. rewrite IHk. lia.
Qed.

Lemma shift_value (p k : positive) : Z.pos (Pos.iter xO p k) = Z.pos p * 2 ^ Z.pos k.
Proof.
  induction k using Pos.peano_ind.
  - cbn. lia.
  - rewrite Pos.iter_succ, Pos2Z.inj_succ, Z.pow_succ_r by lia.
    rewrite Pos2Z.inj_xO, IHk. lia.
Qed.

Lemma size_bound (p : positive) (n : Z) :
  0 <= n -> Z.pos p < 2 ^ n -> Z.pos (Pos.size p) <= n.
Proof.
  intros Hn Hp.
  destruct (Z_le_gt_dec (Z.pos (Pos.size p)) n) as [ | Hgt]; trivial.
  exfalso.
  pose proof (Pos.size_le p) as Hle.
  assert (H2 : 2 ^ n * 2 <= 2 ^ Z.pos (Pos.size p)).
  { replace (2 ^ n * 2) with (2 ^ (n + 1)) by (rewrite Z.pow_add_r; lia).
    apply Z.pow_le_mono_r; lia. }
  assert (H3 : 2 ^ Z.pos (Pos.size p) <= 2 * Z.pos p).
  { change (2 * Z.pos p) with (Z.pos p~0).
    rewrite <- Pos2Z.inj_pow. apply Pos2Z.pos_le_pos. exact Hle. }
  lia.
Qed.

(** A positive int below [2^53] converts to a float exactly. *)
Lemma small_int_to_float (z : Z) :
  0 < z < 2 ^ 53 ->
  exists m e,
    Prim2SF (round_to_float z 0) = S754_finite false m e
    /\ e <= 0 /\ Z.pos m = z * 2 ^ (- e).
Proof.
  intros Hz. destruct z as [ | p | p]; try lia.
  unfold round_to_float.
  assert (Hd : Z.pos (digits2_pos p) <= 53).
  { rewrite digits2_size. apply size_bound; lia. }
  set (d := digits2_pos p) in *.
  assert (Hnorm : exists m e,
             binary_normalize prec emax (Z.pos p) 0 false = S754_finite false m e
             /\ e = Z.pos d - 53 /\ Z.pos m = Z.pos p * 2 ^ (- e)
             /\ Z.pos (digits2_pos m) = 53).
  { unfold binary_normalize, binary_round.
    change (Z.pos (digits2_pos p) + 0) with (Z.pos d + 0). rewrite Z.add_0_r.
    assert (Hfexp : fexp prec emax (Z.pos d) = Z.pos d - 53).
    { unfold fexp, SpecFloat.emin, prec, emax. lia. }
    rewrite Hfexp. unfold shl_align.
    destruct (Z.pos d - 53 - 0) as [ | k | k] eqn:Hk; try lia.
    - exists p, 0.
      unfold binary_round_aux, shr_fexp. cbn [Zdigits2].
      fold d. rewrite Z.add_0_r, Hfexp. replace (Z.pos d - 53 - 0) with 0 by lia.
      cbn [shr shr_record_of_loc shr_m loc_of_shr_record round_nearest_even Zdigits2].
      fold d. rewrite Z.add_0_r, Hfexp. replace (Z.pos d - 53 - 0) with 0 by lia.
      cbn [shr shr_record_of_loc shr_m].
      repeat split; try lia.
    - exists (Pos.iter xO p k), (Z.pos d - 53).
      unfold binary_round_aux, shr_fexp. cbn [Zdigits2].
      rewrite digits2_shift. fold d.
      assert (Hf2 : fexp prec emax (Z.pos (d + k) + (Z.pos d - 53)) = Z.pos d - 53).
      { unfold fexp, SpecFloat.emin, prec, emax. lia. }
      rewrite Hf2, Z.sub_diag.
      cbn [shr shr_record_of_loc shr_m loc_of_shr_record round_nearest_even Zdigits2].
      rewrite digits2_shift. fold d. rewrite Hf2, Z.sub_diag.
      cbn [shr shr_record_of_loc shr_m].
      replace (Z.pos d - 53 <=? emax - prec) with true
        by (symmetry; apply Z.leb_le; unfold emax, prec; lia).
      repeat split; try lia.
      rewrite shift_value. f_equal. f_equal. lia. }
  destruct Hnorm as (m & e & Hn & He & Hm & Hdm).
  exists m, e. rewrite Hn. split; [ | split; [ lia | exact Hm ] ].
  apply Prim2SF_SF2Prim. cbn [valid_binary]. unfold bounded, canonical_mantissa.
  rewrite Hdm. apply andb_true_iff. split.
  - apply Z.eqb_eq. unfold fexp, SpecFloat.emin, prec, emax. lia.
  - apply Z.leb_le. unfold emax, prec. lia.
Qed.

Lemma small_int_pos (z : Z) : 0 < z < 2 ^ 53 -> sf_pos (Prim2SF (round_to_float z 0)).
Proof.
  intros H. destruct (small_int_to_float z H) as (m & e & -> & _). exact I.
Qed.

Lemma float_of_int_small (z : Z) :
  0 < z < 2 ^ 53 ->
  float_of_int z = Ok (round_to_float z 0)
  /\ (0 <? round_to_float z 0)%float = true.
Proof.
  intros H. pose proof (small_int_pos z H) as Hp. split.
  - unfold float_of_int. rewrite is_infinity_spec.
    destruct (small_int_to_float z H) as (m & e & -> & _). reflexivity.
  - now apply pos_spec.
Qed.

Lemma float_of_int_zero : float_of_int 0 = Ok 0%float.
Proof. reflexivity. Qed.

(** The exact value of a small int as a float, against the int
    comparisons, the ceiling and the floor. *)
Lemma small_int_cmp (z n : Z) :
  0 < z < 2 ^ 53 -> float_cmp_int (round_to_float z 0) n = Some (z ?= n).
Proof.
  intros H. destruct (small_int_to_float z H) as (m & e & Hx & He & Hm).
  unfold float_cmp_int. rewrite Hx. cbn [signed].
  assert (Hp : 0 < 2 ^ (- e)) by (apply Z.pow_pos_nonneg; lia).
  destruct (0 <=? e) eqn:H0.
  - apply Z.leb_le in H0. assert (e = 0) by lia. subst e.
    cbn in Hm. f_equal. rewrite Hm. cbn. now rewrite !Z.mul_1_r.
  - f_equal. rewrite Hm.
    destruct (Z.compare_spec z n); destruct (Z.compare_spec (z * 2 ^ (- e)) (n * 2 ^ (- e)));
      trivial; nia.
Qed.

Lemma small_int_ceil (z : Z) : 0 <= z < 2 ^ 53 -> math_ceil (round_to_float z 0) = Ok z.
Proof.
  intros H. destruct (Z.eq_dec z 0) as [-> | Hz]; [ reflexivity | ].
  destruct (small_int_to_float z ltac:(lia)) as (m & e & Hx & He & Hm).
  unfold math_ceil. rewrite Hx. cbn [signed].
  assert (Hp : 0 < 2 ^ (- e)) by (apply Z.pow_pos_nonneg; lia).
  destruct (0 <=? e) eqn:H0.
  - apply Z.leb_le in H0. assert (e = 0) by lia. subst e.
    cbn in Hm. rewrite Hm. cbn. f_equal. lia.
  - f_equal. rewrite Hm. rewrite <- Z.mul_opp_l, Z.div_mul by lia. lia.
Qed.

(** ** Zero operands of a division, ceilings *)

Lemma zero_div_pos (z d : float) (s : bool) :
  Prim2SF z = S754_zero s -> (0 <? d)%float = true ->
  exists s', Prim2SF (z / d)%float = S754_zero s'.
Proof.
  intros Hz Hd. apply pos_spec in Hd. rewrite div_spec, Hz.
  destruct (Prim2SF d) as [sd | [ | ] | | [ | ] md ed]; cbn in *; try tauto; eauto.
Qed.

Lemma truediv_pos (x d : float) : (0 <? d)%float = true -> truediv x d = Ok (x / d)%float.
Proof. intros Hd. unfold truediv. now rewrite (pos_not_zero d Hd). Qed.

Lemma ceil_zero (z : float) (s : bool) : Prim2SF z = S754_zero s -> math_ceil z = Ok 0.
Proof. intros H. unfold math_ceil. now rewrite H. Qed.

Lemma le_zero_of_zero (z : float) (s : bool) :
  Prim2SF z = S754_zero s -> float_le_int z 0 = true.
Proof. intros H. unfold float_le_int, float_cmp_int. now rewrite H. Qed.

(** The ceiling of a float is above every int the float is above. *)
Lemma ceil_above (x : float) (c m : Z) :
  math_ceil x = Ok c -> m < c -> float_gt_int x m = true.
Proof.
  unfold math_ceil, float_gt_int, float_cmp_int.
  destruct (Prim2SF x) as [s | s | | s m' e]; try discriminate.
  - intros [= <-] H. destruct (Z.compare_spec 0 m); trivial; lia.
  - destruct (0 <=? e) eqn:He; intros [= <-] Hc.
    + destruct (Z.compare_spec (signed s m' * 2 ^ e) m); trivial; lia.
    + apply Z.leb_gt in He.
      assert (Hp : 0 < 2 ^ (- e)) by (apply Z.pow_pos_nonneg; lia).
      pose proof (Z.div_mod (- signed s m') (2 ^ (- e)) ltac:(lia)) as Hdm.
      pose proof (Z.mod_pos_bound (- signed s m') (2 ^ (- e)) Hp) as Hmod.
      set (p := 2 ^ (- e)) in *. set (q := (- signed s m') / p) in *.
      set (r := (- signed s m') mod p) in *.
      clearbody p q r.
      destruct (Z.compare_spec (signed s m') (m * p)); trivial; nia.
Qed.

(** ** wfm_math.py: what the queueing functions and the solvers guarantee *)

(** Whenever [erlang_c_asa_seconds] returns, the average speed of answer
    is not negative (it can be [inf], and a NaN only when the handle time
    is infinite). *)
Lemma asa_seconds_not_negative (a : float) (n : Z) (aht v : float) :
  erlang_c_asa_seconds a n aht = Ok v -> (v <? 0)%float = false.
Proof.
  unfold erlang_c_asa_seconds.
  destruct (float_le_int aht 0) eqn:Haht; [ now intros [= <-] | ].
  destruct (n <=? 0); [ now intros [= <-] | ].
  destruct (float_le_int a 0); [ now intros [= <-] | ].
  destruct (float_ge_int a n); [ now intros [= <-] | ].
  destruct (erlang_c_prob_wait a n) as [pw | ] eqn:Hpw; cbn [bind]; [ | discriminate ].
  destruct (float_of_int n) as [nf | ]; cbn [bind]; [ | discriminate ].
  assert (Hden : (0 <? max 1e-9 (nf - a))%float = true) by (now apply max_pos).
  rewrite (truediv_pos _ _ Hden). intros [= <-].
  apply div_not_neg; trivial. apply mul_not_neg.
  - apply leb_zero_not_neg. now destruct (prob_wait_is_probability a n pw Hpw).
  - now apply not_le_zero_not_neg.
Qed.

(** X3: the shrinkage rate both solvers and [apply_shrinkage] work with
    lies between 0 and 0.95 whatever is passed (a NaN gives 0.95), and
    [apply_shrinkage] returns a float that is at least 0, never a NaN. *)
Theorem shrinkage_is_clamped (scheduled shrinkage_rate : float) :
  (0 <=? clamp_shrinkage shrinkage_rate)%float = true
  /\ (clamp_shrinkage shrinkage_rate <=? 0.95)%float = true
  /\ (0 <=? apply_shrinkage scheduled shrinkage_rate)%float = true.
Proof.
  split; [ | split ].
  - apply max_zero_not_neg.
  - unfold clamp_shrinkage, max, min.
    destruct (shrinkage_rate <? 0.95)%float eqn:H1.
    + destruct (0 <? shrinkage_rate)%float; [ now apply ltb_leb | reflexivity ].
    + reflexivity.
  - apply max_zero_not_neg.
Qed.

(** The quotient of two floats that are not NaN, the divisor above zero,
    is a zero, a positive number or [inf]. *)
Lemma div_pos_class (x y : float) :
  (exists s, Prim2SF x = S754_zero s) \/ sf_pos (Prim2SF x) ->
  is_infinity x = false ->
  (0 <? y)%float = true ->
  match Prim2SF (x / y)%float with
  | S754_zero _ | S754_infinity false | S754_finite false _ _ => True
  | _ => False
  end.
Proof.
  intros Hx Hfin Hy. apply pos_spec in Hy.
  rewrite is_infinity_spec in Hfin. rewrite div_spec.
  destruct Hx as [[s Hx] | Hx].
  - rewrite Hx. destruct (Prim2SF y) as [sy | [ | ] | | [ | ] my ey]; cbn in *; tauto.
  - destruct (Prim2SF x) as [sx | [ | ] | | [ | ] mx ex]; cbn in Hx; try tauto;
      try discriminate.
    destruct (Prim2SF y) as [sy | [ | ] | | [ | ] my ey]; cbn in Hy; try tauto.
    cbn [SF64div SFdiv xorb].
      pose proof (binary_round_aux_not_nan false) as Hr.
      unfold SFdiv_core_binary.
      destruct (Z.div_eucl _ (Z.pos my)) as [q r] eqn:Hq.
      specialize (Hr q).
      match goal with
      | |- context [binary_round_aux _ _ _ _ ?e ?l] => specialize (Hr e l)
      end.
      assert (H0 : 0 <= q).
      { match type of Hq with
        | Z.div_eucl ?a ?b = _ =>
            assert (Ha : 0 <= a);
            [ | pose proof (Z.div_pos a b Ha ltac:(lia)) as Hd;
                unfold Z.div in Hd; rewrite Hq in Hd; exact Hd ]
        end.
        match goal with
        | |- 0 <= match ?s with _ => _ end =>
            destruct s eqn:Hs; try lia;
            rewrite Z.shiftl_mul_pow2 by lia;
            pose proof (Z.pow_pos_nonneg 2 (Z.pos p)); nia
        end. }
      specialize (Hr H0).
      destruct (binary_round_aux _ _ _ _ _ _); subst; tauto.
Qed.

Lemma ceil_of_class (x : float) :
  match Prim2SF x with
  | S754_zero _ | S754_infinity false | S754_finite false _ _ => True
  | _ => False
  end ->
  (exists c, math_ceil x = Ok c /\ 0 <= c) \/ math_ceil x = Raise OverflowError.
Proof.
  unfold math_ceil.
  destruct (Prim2SF x) as [s | [ | ] | | [ | ] m e]; try tauto.
  - left. exists 0. split; [ reflexivity | lia ].
  - intros _. cbn [signed]. left. destruct (0 <=? e) eqn:He.
    + eexists. split; [ reflexivity | ]. apply Z.leb_le in He.
      pose proof (Z.pow_pos_nonneg 2 e ltac:(lia) He). nia.
    + eexists. split; [ reflexivity | ]. apply Z.leb_gt in He.
      assert (Hp : 0 < 2 ^ (- e)) by (apply Z.pow_pos_nonneg; lia).
      pose proof (Z.div_lt_upper_bound (- Z.pos m) (2 ^ (- e)) 1 Hp ltac:(lia)). lia.
Qed.

Lemma ceil_not_neg (x : float) (c : Z) :
  (x <? 0)%float = false -> math_ceil x = Ok c -> 0 <= c.
Proof.
  rewrite not_neg_spec. unfold math_ceil.
  destruct (Prim2SF x) as [s | [ | ] | | [ | ] m e]; cbn [sf_not_neg signed];
    try tauto; try discriminate.
  - intros _ [= <-]. lia.
  - intros _. destruct (0 <=? e) eqn:He; intros Hc.
    + assert (Hceq : Z.pos m * 2 ^ e = c) by congruence. rewrite <- Hceq.
      apply Z.leb_le in He. pose proof (Z.pow_pos_nonneg 2 e ltac:(lia) He). nia.
    + assert (Hceq : - (- Z.pos m / 2 ^ (- e)) = c) by congruence. rewrite <- Hceq.
      apply Z.leb_gt in He.
      assert (Hp : 0 < 2 ^ (- e)) by (apply Z.pow_pos_nonneg; lia).
      pose proof (Z.div_lt_upper_bound (- Z.pos m) (2 ^ (- e)) 1 Hp ltac:(lia)). lia.
Qed.

(** The quotient that is rounded up to the scheduled head-count: it is
    computed without an exception, and it is a zero, a positive number or
    [inf]. *)
Lemma scheduled_quotient (required_available : Z) (shrinkage_rate : float) :
  0 <= required_available < 2 ^ 53 ->
  exists q,
    (af <- float_of_int required_available ;;
     truediv af (max 1e-9 (1 - clamp_shrinkage shrinkage_rate)%float)) = Ok q
    /\ match Prim2SF q with
       | S754_zero _ | S754_infinity false | S754_finite false _ _ => True
       | _ => False
       end.
Proof.
  intros Hn.
  set (y := max 1e-9 (1 - clamp_shrinkage shrinkage_rate)%float).
  assert (Hy : (0 <? y)%float = true) by (now apply max_pos).
  destruct (Z.eq_dec required_available 0) as [-> | Hz].
  - rewrite float_of_int_zero. cbn [bind]. rewrite (truediv_pos _ _ Hy).
    eexists. split; [ reflexivity | ].
    apply div_pos_class; trivial. left. now exists false.
  - destruct (float_of_int_small required_available ltac:(lia)) as [Hf Hpos].
    rewrite Hf. cbn [bind]. rewrite (truediv_pos _ _ Hy).
    eexists. split; [ reflexivity | ].
    apply div_pos_class; trivial.
    + right. now apply pos_spec.
    + rewrite is_infinity_spec.
      destruct (small_int_to_float required_available ltac:(lia)) as (m & e & -> & _).
      reflexivity.
Qed.

Lemma scheduled_not_negative (required_available : Z) (shrinkage_rate : float) (n : Z) :
  0 <= required_available < 2 ^ 53 ->
  scheduled_from_available required_available shrinkage_rate = Ok n -> 0 <= n.
Proof.
  intros Hn. unfold scheduled_from_available.
  destruct (scheduled_quotient required_available shrinkage_rate Hn) as (q & Hq & Hclass).
  destruct (float_of_int required_available) as [af | ]; cbn [bind] in *; [ | discriminate ].
  rewrite Hq. cbn [bind]. intros Hc.
  destruct (ceil_of_class q Hclass) as [(c & Hc' & Hpos) | Hc']; congruence.
Qed.

(** X4: converting a requirement of available agents to scheduled agents
    never divides by zero and never meets a NaN, whatever the shrinkage
    rate is (1 or more, negative, infinite, a NaN): the rate is clamped
    first.  The head-count returned is not negative. *)
Theorem scheduled_from_available_safe (required_available : Z) (shrinkage_rate : float) :
  0 <= required_available < 2 ^ 53 ->
  (exists n, scheduled_from_available required_available shrinkage_rate = Ok n /\ 0 <= n)
  \/ scheduled_from_available required_available shrinkage_rate = Raise OverflowError.
Proof.
  intros Hn. unfold scheduled_from_available.
  destruct (scheduled_quotient required_available shrinkage_rate Hn) as (q & Hq & Hclass).
  destruct (float_of_int required_available) as [af | ]; cbn [bind] in *; [ | discriminate ].
  rewrite Hq. cbn [bind]. now apply ceil_of_class.
Qed.

Lemma scheduled_from_available_safe_witness :
  (exists n, scheduled_from_available 12 nan = Ok n /\ 0 <= n)
  \/ scheduled_from_available 12 nan = Raise OverflowError.
Proof. apply (scheduled_from_available_safe 12 nan). lia. Defined.

(** The offered load of zero contacts is a zero. *)
Lemma traffic_of_zero (interval_seconds : Z) (aht : float) :
  interval_seconds < 2 ^ 53 ->
  is_finite aht = true ->
  exists t s, traffic_of 0 interval_seconds aht = Ok t /\ Prim2SF t = S754_zero s.
Proof.
  intros Hi Haht. unfold traffic_of.
  destruct (float_of_int_small (Z.max 1 interval_seconds) ltac:(lia)) as [Hf Hpos].
  rewrite Hf. cbn [bind]. rewrite (truediv_pos _ _ Hpos).
  destruct (zero_mul_finite aht Haht) as [s Hs].
  destruct (zero_div_pos _ _ s Hs Hpos) as [s' Hs'].
  eauto.
Qed.

(** X5: with no contacts the throughput solver asks for no agent at all,
    the real-time solver for one (its search starts at one agent, which
    meets every target up to 1). *)
Theorem no_contacts (math_exp : float -> result float) (interval_seconds : Z)
    (aht threshold target shrinkage_rate productivity : float) (max_agents : Z) :
  interval_seconds < 2 ^ 53 ->
  is_finite aht = true ->
  required_agents_throughput 0 interval_seconds aht shrinkage_rate productivity
  = Ok (mkStaffingResult 0 0)
  /\ (float_gt_int aht 0 = true ->
      float_gt_int threshold 0 = true ->
      (target <=? 1)%float = true ->
      1 <= max_agents ->
      required_agents_for_sla math_exp 0 interval_seconds aht threshold target max_agents
      = Ok 1).
Proof.
  intros Hi Haht.
  destruct (traffic_of_zero interval_seconds aht Hi Haht) as (t & s & Ht & Hs).
  split.
  - unfold required_agents_throughput. rewrite Ht. cbn [bind].
    assert (Hprod : (0 <? max 0.1 productivity)%float = true) by (now apply max_pos).
    rewrite (truediv_pos _ _ Hprod). cbn [bind].
    destruct (zero_div_pos _ _ s Hs Hprod) as [s' Hs'].
    rewrite (ceil_zero _ s' Hs'). cbn [bind].
    unfold scheduled_from_available. rewrite float_of_int_zero. cbn [bind].
    assert (Hy : (0 <? max 1e-9 (1 - clamp_shrinkage shrinkage_rate))%float = true)
      by (now apply max_pos).
    rewrite (truediv_pos _ _ Hy). cbn [bind].
    destruct (zero_div_pos 0 _ false eq_refl Hy) as [s'' Hs''].
    now rewrite (ceil_zero _ s'' Hs'').
  - intros Hpos Hthr Htarget Hmax. unfold required_agents_for_sla.
    rewrite Ht. cbn [bind]. rewrite (ceil_zero _ s Hs). cbn [bind].
    change (Z.max 1 0) with 1. rewrite (range_cons 1 (max_agents + 1)) by lia.
    cbn [search_sla]. unfold erlang_c_service_level.
    rewrite (float_gt_not_le _ _ Hthr), (float_gt_not_le _ _ Hpos).
    change (1 <=? 0) with false. cbv iota.
    rewrite (le_zero_of_zero _ s Hs). cbn [bind]. now rewrite Htarget.
Qed.

Lemma no_contacts_witness :
  required_agents_throughput 0 900 600 0.25 0.82 = Ok (mkStaffingResult 0 0)
  /\ required_agents_for_sla Libm.exp 0 900 420 20 0.8 500 = Ok 1.
Proof.
  split.
  - apply (no_contacts Libm.exp 900 600 20 0.8 0.25 0.82 500); [ lia | reflexivity ].
  - apply (no_contacts Libm.exp 900 420 20 0.8 0.25 0.82 500);
      [ lia | reflexivity | reflexivity | reflexivity | reflexivity | lia ].
Defined.

(** A search none of whose candidates reaches the target runs to its end. *)
Lemma search_sla_none (math_exp : float -> result float)
    (traffic aht threshold target : float) (candidates : list Z) :
  (forall n, In n candidates ->
     exists v, erlang_c_service_level math_exp traffic n aht threshold = Ok v
               /\ (target <=? v)%float = false) ->
  search_sla math_exp traffic aht threshold target candidates = Ok None.
Proof.
  induction candidates as [ | n rest IH]; intros H; [ reflexivity | ].
  cbn [search_sla]. destruct (H n (or_introl eq_refl)) as (v & -> & Hv).
  cbn [bind]. rewrite Hv. apply IH. intros m Hm. apply H. now right.
Qed.

(** The service level is 0, without any computation, when the threshold
    or the handle time is not positive. *)
Lemma service_level_degenerate (math_exp : float -> result float)
    (a : float) (n : Z) (aht threshold : float) :
  float_le_int threshold 0 = true \/ float_le_int aht 0 = true ->
  erlang_c_service_level math_exp a n aht threshold = Ok 0%float.
Proof.
  unfold erlang_c_service_level. intros [-> | ->]; trivial.
  now destruct (float_le_int threshold 0).
Qed.

(** X6: where the solver gives up.  When the offered load rounds up to
    more agents than [max_agents], the search range is empty and
    [max_agents] is returned although it cannot carry the load; when the
    threshold or the handle time is not positive, no agent count reaches
    a target above 0 and [max_agents] is returned as well.  In both cases
    the service level of the returned count is 0. *)
Theorem solver_gives_up (math_exp : float -> result float)
    (contacts : float) (interval_seconds : Z) (aht threshold target : float)
    (max_agents : Z) (traffic : float) (c : Z) :
  traffic_of contacts interval_seconds aht = Ok traffic ->
  math_ceil traffic = Ok c ->
  max_agents < Z.max 1 c
  \/ ((target <=? 0)%float = false
      /\ (float_le_int threshold 0 = true \/ float_le_int aht 0 = true)) ->
  required_agents_for_sla math_exp contacts interval_seconds aht threshold target
    max_agents = Ok max_agents
  /\ erlang_c_service_level math_exp traffic max_agents aht threshold = Ok 0%float.
Proof.
  intros Ht Hc Hcase. unfold required_agents_for_sla.
  rewrite Ht. cbn [bind]. rewrite Hc. cbn [bind].
  destruct Hcase as [Hover | [Htarget Hdeg]].
  - rewrite range_nil by lia. cbn [search_sla bind]. split; trivial.
    unfold erlang_c_service_level.
    destruct (float_le_int threshold 0); trivial.
    destruct (float_le_int aht 0); trivial.
    destruct (max_agents <=? 0) eqn:Hm; trivial.
    apply Z.leb_gt in Hm.
    assert (Hgt : float_gt_int traffic max_agents = true)
      by (apply (ceil_above traffic c); trivial; lia).
    assert (Hge : float_ge_int traffic max_agents = true).
    { revert Hgt. unfold float_gt_int, float_ge_int.
      now destruct (float_cmp_int traffic max_agents) as [[ | | ] | ]. }
    rewrite (float_ge_not_le_below traffic max_agents 0 Hge Hm).
    now rewrite Hge.
  - rewrite (search_sla_none math_exp traffic aht threshold target).
    + cbn [bind]. split; trivial. now apply service_level_degenerate.
    + intros n _. exists 0%float. split; trivial.
      now apply service_level_degenerate.
Qed.

Lemma solver_gives_up_witness :
  required_agents_for_sla Libm.exp 1000 3600 3600 20 0.8 500 = Ok 500
  /\ erlang_c_service_level Libm.exp 1000 500 3600 20 = Ok 0%float.
Proof.
  apply (solver_gives_up Libm.exp 1000 3600 3600 20 0.8 500 1000 1000);
    [ reflexivity | reflexivity | left; lia ].
Defined.

(** ** Which exceptions the staffing functions can raise *)

Lemma raises_within_bind (A B : Type) (allowed : list exn) (c : result A)
    (k : A -> result B) :
  raises_within allowed c ->
  (forall a, raises_within allowed (k a)) ->
  raises_within allowed (bind c k).
Proof. destruct c as [a | e]; cbn; auto. Qed.

Lemma raises_within_ok (A : Type) (allowed : list exn) (a : A) :
  raises_within allowed (Ok a).
Proof. exact I. Qed.

Lemma float_of_int_arithmetic (n : Z) : raises_within arithmetic_errors (float_of_int n).
Proof. unfold float_of_int. destruct (is_infinity _); cbn; auto. Qed.

Lemma truediv_arithmetic (x y : float) : raises_within arithmetic_errors (truediv x y).
Proof. unfold truediv. destruct (y =? 0)%float; cbn; auto. Qed.

Lemma float_pow_arithmetic (x : float) (k : N) :
  raises_within arithmetic_errors (float_pow x k).
Proof.
  unfold float_pow. destruct k; [ exact I | ].
  destruct (Prim2SF x); try exact I.
  destruct (is_infinity _); cbn; auto.
Qed.

Lemma math_ceil_arithmetic (x : float) : raises_within arithmetic_errors (math_ceil x).
Proof.
  unfold math_ceil. destruct (Prim2SF x); cbn; auto. destruct (0 <=? e); exact I.
Qed.

Lemma math_floor_arithmetic (x : float) : raises_within arithmetic_errors (math_floor x).
Proof.
  unfold math_floor. destruct (Prim2SF x); cbn; auto. destruct (0 <=? e); exact I.
Qed.

Lemma round_arithmetic (x : float) : raises_within arithmetic_errors (Builtins.round x).
Proof.
  unfold Builtins.round. destruct (Prim2SF x); cbn; auto. destruct (0 <=? e); exact I.
Qed.

Lemma factorial_arithmetic (n : Z) : raises_within arithmetic_errors (_factorial n).
Proof.
  unfold _factorial, math_factorial. destruct (n <? 0); cbn; auto.
  apply float_of_int_arithmetic.
Qed.

Lemma as_float_arithmetic (v : pyval) : raises_within arithmetic_errors (as_float v).
Proof. destruct v; [ exact I | apply float_of_int_arithmetic ]. Qed.

Create HintDb arithmetic discriminated.

#[local] Hint Resolve raises_within_ok float_of_int_arithmetic truediv_arithmetic
  float_pow_arithmetic math_ceil_arithmetic math_floor_arithmetic round_arithmetic
  factorial_arithmetic as_float_arithmetic : arithmetic.

(** Step through a sequence of bindings, closing each computation with
    the lemmas of the database. *)
Ltac arithmetic_steps :=
  repeat first
    [ solve [ auto with arithmetic ]
    | apply raises_within_bind; [ | intros ]
    | match goal with
      | |- raises_within _ (if ?c then _ else _) => destruct c
      end ].

Lemma term_arithmetic (a : float) (k : Z) :
  raises_within arithmetic_errors (power_over_factorial a k).
Proof. unfold power_over_factorial. arithmetic_steps. Qed.

#[local] Hint Resolve term_arithmetic : arithmetic.

Lemma for_each_arithmetic (A S : Type) (body : S -> A -> result S) (xs : list A) :
  (forall s x, raises_within arithmetic_errors (body s x)) ->
  forall acc, raises_within arithmetic_errors (for_each body acc xs).
Proof.
  intros H. induction xs as [ | x xs IH]; intros acc; [ exact I | ].
  cbn [for_each]. apply raises_within_bind; auto.
Qed.

Lemma prob_wait_arithmetic (a : float) (n : Z) :
  raises_within arithmetic_errors (erlang_c_prob_wait a n).
Proof.
  unfold erlang_c_prob_wait.
  destruct ((n <=? 0) || float_le_int a 0); [ exact I | ].
  destruct (float_ge_int a n); [ exact I | ].
  apply raises_within_bind.
  - apply for_each_arithmetic. intros s k. arithmetic_steps.
  - intros s. arithmetic_steps.
Qed.

#[local] Hint Resolve prob_wait_arithmetic : arithmetic.

Lemma asa_arithmetic (a : float) (n : Z) (aht : float) :
  raises_within arithmetic_errors (erlang_c_asa_seconds a n aht).
Proof. unfold erlang_c_asa_seconds. arithmetic_steps. Qed.

#[local] Hint Resolve asa_arithmetic : arithmetic.

Lemma traffic_arithmetic (contacts : float) (i : Z) (aht : float) :
  raises_within arithmetic_errors (traffic_of contacts i aht).
Proof. unfold traffic_of. arithmetic_steps. Qed.

Lemma scheduled_arithmetic (n : Z) (r : float) :
  raises_within arithmetic_errors (scheduled_from_available n r).
Proof. unfold scheduled_from_available. arithmetic_steps. Qed.

#[local] Hint Resolve traffic_arithmetic scheduled_arithmetic : arithmetic.

Lemma throughput_arithmetic (contacts : float) (i : Z) (aht r p : float) :
  raises_within arithmetic_errors (required_agents_throughput contacts i aht r p).
Proof. unfold required_agents_throughput. arithmetic_steps. Qed.

Section Footprint.

Variable math_exp : float -> result float.

(** [math.exp] raises nothing but OverflowError. *)
Hypothesis math_exp_overflow : forall x, raises_within [OverflowError] (math_exp x).

Lemma exp_arithmetic (x : float) : raises_within arithmetic_errors (math_exp x).
Proof.
  pose proof (math_exp_overflow x) as H. destruct (math_exp x); cbn in *; tauto.
Qed.

Lemma service_level_arithmetic (a : float) (n : Z) (aht threshold : float) :
  raises_within arithmetic_errors (erlang_c_service_level math_exp a n aht threshold).
Proof.
  pose proof exp_arithmetic. unfold erlang_c_service_level. arithmetic_steps.
Qed.

Lemma metrics_arithmetic (contacts : float) (i : Z) (aht : float) (n : Z) (t : float) :
  raises_within arithmetic_errors (erlang_metrics math_exp contacts i aht n t).
Proof.
  pose proof service_level_arithmetic. unfold erlang_metrics. arithmetic_steps.
Qed.

Lemma search_arithmetic (traffic aht threshold target : float) (candidates : list Z) :
  raises_within arithmetic_errors
    (search_sla math_exp traffic aht threshold target candidates).
Proof.
  induction candidates as [ | n rest IH]; [ exact I | ].
  cbn [search_sla]. apply raises_within_bind; [ apply service_level_arithmetic | ].
  intros sl. now destruct (target <=? sl)%float.
Qed.

Lemma solver_arithmetic (contacts : float) (i : Z) (aht threshold target : float)
    (max_agents : Z) :
  raises_within arithmetic_errors
    (required_agents_for_sla math_exp contacts i aht threshold target max_agents).
Proof.
  unfold required_agents_for_sla.
  apply raises_within_bind; [ apply traffic_arithmetic | intros traffic ].
  apply raises_within_bind; [ apply math_ceil_arithmetic | intros c ].
  apply raises_within_bind; [ apply search_arithmetic | intros [n | ]; exact I ].
Qed.

Lemma realtime_arithmetic (contacts : float) (i : Z) (aht threshold target r : float) :
  raises_within arithmetic_errors
    (required_agents_realtime math_exp contacts i aht threshold target r).
Proof.
  pose proof solver_arithmetic. unfold required_agents_realtime. arithmetic_steps.
Qed.

End Footprint.

(** ** generate_sample_data.py: the calls of the generator *)

Lemma libm_exp_overflow (x : float) : raises_within [OverflowError] (Libm.exp x).
Proof.
  unfold Libm.exp. destruct (Prim2SF x) as [s | s | | s m e]; try exact I.
  destruct (11 <=? Z.log2 (Z.pos m) + e).
  - destruct s; cbn; auto.
  - destruct (Libm.exp_pos m e) as [mant ex]. destruct s; [ exact I | ].
    destruct (is_infinity _); cbn; auto.
Qed.

(** The generator names every parameter as the callee does, so its calls
    reach the solvers, each value at its parameter. *)
Lemma generator_realtime_call (math_exp : float -> result float)
    (handled i threshold : Z) (aht target shrinkage : float) :
  call_required_agents_realtime math_exp
    [ ("contacts", PyInt handled);
      ("aht_seconds", PyFloat aht);
      ("interval_seconds", PyInt i);
      ("sla_threshold_seconds", PyInt threshold);
      ("sla_target", PyFloat target);
      ("shrinkage_rate", PyFloat shrinkage) ]
  = (c <- float_of_int handled ;;
     t <- float_of_int threshold ;;
     required_agents_realtime math_exp c i aht t target shrinkage).
Proof. reflexivity. Qed.

Lemma generator_throughput_call (handled i : Z) (aht shrinkage productivity : float) :
  call_required_agents_throughput
    [ ("contacts", PyInt handled);
      ("aht_seconds", PyFloat aht);
      ("interval_seconds", PyInt i);
      ("shrinkage_rate", PyFloat shrinkage);
      ("productivity", PyFloat productivity) ]
  = (c <- float_of_int handled ;;
     required_agents_throughput c i aht shrinkage productivity).
Proof. reflexivity. Qed.

Lemma generator_summary_call (math_exp : float -> result float)
    (handled i available threshold : Z) (aht : float) :
  call_erlang_c_summary math_exp
    [ ("contacts", PyInt handled);
      ("aht_seconds", PyFloat aht);
      ("interval_seconds", PyInt i);
      ("agents", PyInt available);
      ("sla_threshold_seconds", PyInt threshold) ]
  = (c <- float_of_int handled ;;
     t <- float_of_int threshold ;;
     erlang_c_summary math_exp c i aht available t).
Proof. reflexivity. Qed.

(** X8: the generator's calls of [required_agents_realtime],
    [required_agents_throughput] and [erlang_c_summary] are accepted:
    whatever the configuration and the random draws are, an interval is
    planned without a TypeError; the only exceptions left are those of
    the arithmetic. *)
Theorem generator_calls_are_accepted (math_exp : float -> result float)
    (cfg : Generator.ChannelConfig) (d : Generator.Draws) :
  (forall x, raises_within [OverflowError] (math_exp x)) ->
  raises_within arithmetic_errors (Generator.plan_interval math_exp cfg d).
Proof.
  intros Hexp. unfold Generator.plan_interval.
  pose proof (realtime_arithmetic math_exp Hexp) as Hrt.
  pose proof (metrics_arithmetic math_exp Hexp) as Hsum.
  pose proof throughput_arithmetic as Htp.
  destruct (Generator.is_realtime cfg); cbv zeta iota.
  - rewrite generator_realtime_call.
    apply raises_within_bind; [ arithmetic_steps | intros req ].
    do 4 (apply raises_within_bind; [ solve [ auto with arithmetic ] | intros ]).
    rewrite generator_summary_call. unfold erlang_c_summary. arithmetic_steps.
  - rewrite generator_throughput_call. arithmetic_steps.
Qed.

Lemma generator_calls_are_accepted_witness :
  raises_within arithmetic_errors
    (Generator.plan_interval Libm.exp
       (Generator.mkChannelConfig "voice" [ "billing" ] 20 [ ("billing", 18%float) ] 24
          [ ("billing", 420%float) ])
       (Generator.mkDraws 20 430 1 0.28 1.03)).
Proof.
  apply (generator_calls_are_accepted Libm.exp). exact libm_exp_overflow.
Defined.

Example generator_plans_an_interval :
  Generator.plan_interval Libm.exp
    (Generator.mkChannelConfig "voice" [ "billing" ] 20 [ ("billing", 18%float) ] 24
       [ ("billing", 420%float) ])
    (Generator.mkDraws 20 430 1 0.28 1.03)
  = Ok (Generator.mkInterval 19 20 14 8.2466806274834425 0.9249165341510267).
Proof. vm_compute. reflexivity. Qed.

(** ** Group keys: sorted insertion without duplicates

    The two [groupby] models insert each key into a sorted list of
    distinct keys.  The facts below hold for any key type with a
    decidable strict total order. *)

Section GroupKeys.

Variable K : Type.
Variables ltb eqb : K -> K -> bool.
Variable ins : K -> list K -> list K.

Hypothesis eqb_eq : forall a b, eqb a b = true <-> a = b.
Hypothesis ltb_irrefl : forall a, ltb a a = false.
Hypothesis ltb_trans : forall a b c, ltb a b = true -> ltb b c = true -> ltb a c = true.
Hypothesis ltb_total : forall a b, ltb a b = false -> eqb a b = false -> ltb b a = true.
Hypothesis ins_nil : forall k, ins k [] = [k].
Hypothesis ins_cons : forall k k' r,
  ins k (k' :: r)
  = if ltb k k' then k :: k' :: r else if eqb k k' then k' :: r else k' :: ins k r.

Lemma ins_In (k x : K) (l : list K) : In x (ins k l) <-> x = k \/ In x l.
Proof.
  induction l as [ | k' r IH].
  - rewrite ins_nil. cbn. intuition.
  - rewrite ins_cons. destruct (ltb k k'); [ cbn; intuition | ].
    destruct (eqb k k') eqn:He.
    + apply eqb_eq in He. subst k'. cbn. intuition.
    + cbn. rewrite IH. intuition.
Qed.

Lemma ins_sorted (k : K) (l : list K) :
  StronglySorted (fun a b => ltb a b = true) l ->
  StronglySorted (fun a b => ltb a b = true) (ins k l).
Proof.
  induction 1 as [ | k' r Hs IH Hall].
  - rewrite ins_nil. repeat constructor.
  - rewrite ins_cons. destruct (ltb k k') eqn:Hlt.
    + constructor; [ now constructor | ]. constructor; trivial.
      rewrite Forall_forall in *. intros x Hx. eapply ltb_trans; eauto.
    + destruct (eqb k k') eqn:He; [ now constructor | ].
      constructor; trivial. rewrite Forall_forall in *. intros x Hx.
      apply ins_In in Hx. destruct Hx as [-> | Hx]; auto.
Qed.

Lemma keys_In (ks : list K) (x : K) : In x (fold_right ins [] ks) <-> In x ks.
Proof.
  induction ks as [ | k ks IH]; cbn; [ tauto | ].
  rewrite ins_In, IH. intuition.
Qed.

Lemma keys_sorted (ks : list K) :
  StronglySorted (fun a b => ltb a b = true) (fold_right ins [] ks).
Proof.
  induction ks as [ | k ks IH]; cbn; [ constructor | now apply ins_sorted ].
Qed.

Lemma sorted_NoDup (l : list K) :
  StronglySorted (fun a b => ltb a b = true) l -> NoDup l.
Proof.
  induction 1 as [ | k r Hs IH Hall]; constructor; trivial.
  intros Hin. rewrite Forall_forall in Hall. specialize (Hall k Hin).
  now rewrite ltb_irrefl in Hall.
Qed.

Lemma keys_NoDup (ks : list K) : NoDup (fold_right ins [] ks).
Proof. apply sorted_NoDup, keys_sorted. Qed.

(** Looking a key up in a list of distinct keys. *)
Lemma filter_key (l : list K) (k : K) :
  NoDup l ->
  filter (fun k' => eqb k' k) l = if existsb (fun k' => eqb k' k) l then [k] else [].
Proof.
  induction 1 as [ | k' r Hnin Hnd IH]; [ reflexivity | ].
  cbn. destruct (eqb k' k) eqn:He.
  - apply eqb_eq in He. subst k'. cbn. f_equal.
    rewrite IH. destruct (existsb _ r) eqn:Hex; trivial.
    apply existsb_exists in Hex. destruct Hex as (x & Hx & Hxk).
    apply eqb_eq in Hxk. now subst x.
  - cbn. exact IH.
Qed.

Lemma existsb_keys (ks : list K) (k : K) :
  existsb (fun k' => eqb k' k) (fold_right ins [] ks) = existsb (fun k' => eqb k' k) ks.
Proof.
  apply eq_true_iff_eq. rewrite !existsb_exists.
  split; intros (x & Hx & Hxk); exists x; (split; [ now apply keys_In | trivial ]).
Qed.

End GroupKeys.

(** ** forecast_and_simulate.py: the fitted profile *)

Lemma key_eqb_eq (a b : Z * Z) : key_eqb a b = true <-> a = b.
Proof.
  destruct a as [a1 a2], b as [b1 b2]. unfold key_eqb. cbn.
  rewrite andb_true_iff, !Z.eqb_eq. split; [ intros [-> ->]; trivial | intros [= -> ->]; auto ].
Qed.

Lemma key_ltb_irrefl (a : Z * Z) : key_ltb a a = false.
Proof.
  unfold key_ltb. rewrite !Z.ltb_irrefl. now rewrite andb_false_r.
Qed.

Lemma key_ltb_spec (a b : Z * Z) :
  key_ltb a b = true <-> fst a < fst b \/ (fst a = fst b /\ snd a < snd b).
Proof.
  unfold key_ltb. rewrite orb_true_iff, andb_true_iff, !Z.ltb_lt, Z.eqb_eq. tauto.
Qed.

Lemma key_ltb_trans (a b c : Z * Z) :
  key_ltb a b = true -> key_ltb b c = true -> key_ltb a c = true.
Proof. rewrite !key_ltb_spec. lia. Qed.

Lemma key_ltb_total (a b : Z * Z) :
  key_ltb a b = false -> key_eqb a b = false -> key_ltb b a = true.
Proof.
  intros H1 H2. apply key_ltb_spec.
  assert (H1' : ~ (fst a < fst b \/ (fst a = fst b /\ snd a < snd b)))
    by (rewrite <- key_ltb_spec, H1; discriminate).
  assert (H2' : a <> b) by (rewrite <- key_eqb_eq, H2; discriminate).
  destruct a as [a1 a2], b as [b1 b2]. cbn in *.
  assert (~ (a1 = b1 /\ a2 = b2)) by (intros [-> ->]; auto). lia.
Qed.

Lemma insert_key_cons (k k' : Z * Z) (r : list (Z * Z)) :
  insert_key k (k' :: r)
  = if key_ltb k k' then k :: k' :: r
    else if key_eqb k k' then k' :: r else k' :: insert_key k r.
Proof. reflexivity. Qed.

Lemma group_keys_NoDup (ks : list (Z * Z)) : NoDup (group_keys ks).
Proof.
  apply (keys_NoDup _ key_ltb key_eqb insert_key key_eqb_eq key_ltb_irrefl
           key_ltb_trans key_ltb_total (fun k => eq_refl) insert_key_cons).
Qed.

Lemma group_keys_exists (ks : list (Z * Z)) (k : Z * Z) :
  existsb (fun k' => key_eqb k' k) (group_keys ks) = existsb (fun k' => key_eqb k' k) ks.
Proof.
  apply (existsb_keys _ key_ltb key_eqb insert_key key_eqb_eq (fun k => eq_refl)
           insert_key_cons).
Qed.

Lemma filter_of_map (A B : Type) (f : A -> B) (p : B -> bool) (l : list A) :
  filter p (map f l) = map f (filter (fun x => p (f x)) l).
Proof.
  induction l as [ | x l IH]; cbn; trivial. destruct (p (f x)); cbn; now rewrite IH.
Qed.

Lemma existsb_map_key (A B : Type) (f : A -> B) (p : B -> bool) (l : list A) :
  existsb p (map f l) = existsb (fun x => p (f x)) l.
Proof. induction l as [ | x l IH]; cbn; trivial. now rewrite IH. Qed.

Lemma filter_of_rev (A : Type) (p : A -> bool) (l : list A) :
  filter p (rev l) = rev (filter p l).
Proof.
  induction l as [ | x l IH]; cbn; trivial.
  rewrite filter_app, IH. cbn. destruct (p x); cbn; trivial. now rewrite app_nil_r.
Qed.

(** X10: the profile that [_fit_profile_and_trend] fits holds exactly
    the (day of week, bucket) slots seen in the training rows, each with
    the median of the contacts offered in that slot; a slot never seen has
    no entry. *)
Theorem fitted_profile_lookup (series_df : list ContactRow) (interval_minutes : Z)
    (k : Z * Z) :
  prof_map_get (profile (_fit_profile_and_trend series_df interval_minutes)) k
  = if existsb (fun r => key_eqb (row_key interval_minutes r) k) series_df
    then Some (Np.median
                 (map offered_contacts
                    (filter (fun r => key_eqb (row_key interval_minutes r) k) series_df)))
    else None.
Proof.
  unfold prof_map_get, _fit_profile_and_trend. cbn [profile].
  rewrite <- map_rev, filter_of_map. cbn [fst snd].
  rewrite (filter_ext _ (fun k' => key_eqb k' k))
    by (intros [a b]; reflexivity).
  rewrite filter_of_rev, (filter_key _ key_eqb key_eqb_eq) by apply group_keys_NoDup.
  rewrite group_keys_exists, existsb_map_key.
  destruct (existsb _ series_df); reflexivity.
Qed.

(** ** forecast_and_simulate.py: forecasts are not negative *)

Lemma add_not_neg (x y : float) :
  (x <? 0)%float = false -> (y <? 0)%float = false -> (x + y <? 0)%float = false.
Proof.
  rewrite !not_neg_spec, add_spec.
  destruct (Prim2SF x) as [sx | [ | ] | | [ | ] mx ex];
    destruct (Prim2SF y) as [sy | [ | ] | | [ | ] my ey]; cbn; trivial; try tauto.
  - now destruct sx, sy.
  - intros _ _. unfold binary_normalize, binary_round.
    destruct (shl_align _ _ _) as [mz ez].
    pose proof (binary_round_aux_class false (Z.pos mz) ez loc_Exact) as H.
    destruct (binary_round_aux _ _ _ _ _ _); subst; exact I.
Qed.

Lemma nan_not_neg : (nan <? 0)%float = false.
Proof. reflexivity. Qed.

Lemma insert_sorted_In (x y : float) (l : list float) :
  In x (Np.insert_sorted y l) -> x = y \/ In x l.
Proof.
  induction l as [ | z r IH]; cbn.
  - intuition.
  - destruct (y <=? z)%float; cbn; intuition.
Qed.

Lemma sorted_values_In (x : float) (l : list float) :
  In x (fold_right Np.insert_sorted [] l) -> In x l.
Proof.
  induction l as [ | y r IH]; cbn; trivial.
  intros H. apply insert_sorted_In in H. intuition.
Qed.

Lemma median_not_neg (a : list float) :
  (forall v, In v a -> (v <? 0)%float = false) -> (Np.median a <? 0)%float = false.
Proof.
  intros Ha. unfold Np.median.
  set (s := fold_right Np.insert_sorted [] (Np.notna a)).
  assert (Hs : forall i, (nth i s nan <? 0)%float = false).
  { intros i. destruct (nth_in_or_default i s nan) as [Hin | ->]; [ | reflexivity ].
    apply Ha. apply sorted_values_In in Hin. unfold Np.notna in Hin.
    now apply filter_In in Hin. }
  destruct (List.length s); [ reflexivity | ].
  destruct (Nat.odd _); [ apply Hs | ].
  apply div_not_neg; [ | reflexivity ]. apply add_not_neg; apply Hs.
Qed.

Lemma prof_map_get_In (prof : list ProfileRow) (k : Z * Z) (v : float) :
  prof_map_get prof k = Some v -> exists row, In row prof /\ snd row = v.
Proof.
  unfold prof_map_get.
  destruct (filter (fun row => key_eqb (fst row) k) (rev prof)) as [ | row rest] eqn:Hf;
    [ discriminate | ].
  intros [= <-]. exists row. split; trivial.
  assert (Hin : In row (filter (fun row => key_eqb (fst row) k) (rev prof)))
    by (rewrite Hf; now left).
  apply filter_In in Hin. now apply in_rev.
Qed.

Lemma maximum_zero_not_neg (x : float) : (Np.maximum 0 x <? 0)%float = false.
Proof.
  unfold Np.maximum. destruct (x <=? 0)%float eqn:Hx; [ reflexivity | ].
  change (is_nan 0) with false. cbv iota beta. cbn [orb].
  revert Hx. rewrite leb_spec, not_neg_spec. change (Prim2SF 0) with (S754_zero false).
  destruct (Prim2SF x) as [s | [ | ] | | [ | ] m e]; cbn; trivial; discriminate.
Qed.

(** X11: a forecast is never negative when the contacts of the training
    rows are not (whatever the trend is: the projected daily total is
    floored at 0, and the profile holds medians of the training rows). *)
Theorem forecast_not_negative (series_df : list ContactRow) (interval_minutes : Z)
    (future_index : list Z) (v : float) :
  (forall r, In r series_df -> (offered_contacts r <? 0)%float = false) ->
  In v (_forecast_series (_fit_profile_and_trend series_df interval_minutes)
          future_index interval_minutes) ->
  (v <? 0)%float = false.
Proof.
  intros Hdf Hv. unfold _forecast_series in Hv. apply in_map_iff in Hv.
  destruct Hv as (ts & <- & _). unfold forecast_at.
  apply mul_not_neg.
  - unfold base.
    destruct (prof_map_get _ _) as [b | ] eqn:Hb; [ | reflexivity ].
    apply prof_map_get_In in Hb. destruct Hb as (row & Hrow & <-).
    unfold _fit_profile_and_trend in Hrow. cbn [profile] in Hrow.
    apply in_map_iff in Hrow. destruct Hrow as (k & <- & _). cbn [snd].
    apply median_not_neg. intros x Hx. apply in_map_iff in Hx.
    destruct Hx as (r & <- & Hr). apply filter_In in Hr. now apply Hdf.
  - apply div_not_neg.
    + apply maximum_zero_not_neg.
    + unfold expected_total. now apply max_pos.
Qed.

Lemma forecast_not_negative_witness :
  let series_df :=
    [ mkContactRow 0 10; mkContactRow 60 20; mkContactRow 1440 40;
      mkContactRow 4320 50 ] in
  _forecast_series (_fit_profile_and_trend series_df 60) [ 10080; 10140 ] 60
  = [ 10; 20 ]%float
  /\ (20 <? 0)%float = false.
Proof.
  split; [ vm_compute; reflexivity | ].
  apply (forecast_not_negative
           [ mkContactRow 0 10; mkContactRow 60 20; mkContactRow 1440 40;
             mkContactRow 4320 50 ] 60 [ 10080; 10140 ] 20).
  - intros r [<- | [<- | [<- | [<- | []]]]]; reflexivity.
  - vm_compute. right. left. reflexivity.
Defined.

(** ** forecast_and_simulate.py: the holdout split of [main] *)

Lemma insert_by_In (A : Type) (key : A -> Z) (x y : A) (l : list A) :
  In x (Pd.insert_by key y l) <-> x = y \/ In x l.
Proof.
  induction l as [ | z r IH]; cbn; [ intuition | ].
  destruct (key z <=? key y); cbn; [ rewrite IH | ]; intuition.
Qed.

Lemma insert_by_sorted (A : Type) (key : A -> Z) (y : A) (l : list A) :
  StronglySorted (fun a b => key a <= key b) l ->
  StronglySorted (fun a b => key a <= key b) (Pd.insert_by key y l).
Proof.
  induction 1 as [ | z r Hs IH Hall]; cbn; [ repeat constructor | ].
  destruct (key z <=? key y) eqn:Hle.
  - apply Z.leb_le in Hle. constructor; trivial.
    rewrite Forall_forall in *. intros x Hx. apply insert_by_In in Hx.
    destruct Hx as [-> | Hx]; auto.
  - apply Z.leb_gt in Hle. constructor; [ now constructor | ].
    constructor; [ lia | ]. rewrite Forall_forall in *. intros x Hx.
    specialize (Hall x Hx). lia.
Qed.

Lemma sort_values_acc (A : Type) (key : A -> Z) (l acc : list A) :
  (forall x, In x (fold_left (fun acc x => Pd.insert_by key x acc) l acc)
             <-> In x l \/ In x acc)
  /\ (StronglySorted (fun a b => key a <= key b) acc ->
      StronglySorted (fun a b => key a <= key b)
        (fold_left (fun acc x => Pd.insert_by key x acc) l acc)).
Proof.
  revert acc. induction l as [ | y l IH]; intros acc; cbn.
  - split; [ intuition | trivial ].
  - destruct (IH (Pd.insert_by key y acc)) as [Hin Hs]. split.
    + intros x. rewrite Hin, insert_by_In. intuition.
    + intros Hacc. now apply Hs, insert_by_sorted.
Qed.

Lemma sort_values_In (A : Type) (key : A -> Z) (l : list A) (x : A) :
  In x (Pd.sort_values key l) <-> In x l.
Proof.
  unfold Pd.sort_values. destruct (sort_values_acc A key l []) as [H _].
  rewrite H. cbn. tauto.
Qed.

Lemma sort_values_sorted (A : Type) (key : A -> Z) (l : list A) :
  StronglySorted (fun a b => key a <= key b) (Pd.sort_values key l).
Proof.
  unfold Pd.sort_values. destruct (sort_values_acc A key l []) as [_ H].
  apply H. constructor.
Qed.

Lemma filter_none (A : Type) (p : A -> bool) (l : list A) :
  (forall x, In x l -> p x = false) -> filter p l = [].
Proof.
  induction l as [ | x l IH]; intros H; cbn; trivial.
  rewrite (H x (or_introl eq_refl)). apply IH. intros y Hy. apply H. now right.
Qed.

Lemma filter_all (A : Type) (p : A -> bool) (l : list A) :
  (forall x, In x l -> p x = true) -> filter p l = l.
Proof.
  induction l as [ | x l IH]; intros H; cbn; trivial.
  rewrite (H x (or_introl eq_refl)). f_equal. apply IH. intros y Hy. apply H. now right.
Qed.

(** A sorted list is cut in two consecutive pieces by a threshold. *)
Lemma sorted_split (A : Type) (key : A -> Z) (c : Z) (l : list A) :
  StronglySorted (fun a b => key a <= key b) l ->
  filter (fun r => key r <=? c) l ++ filter (fun r => c <? key r) l = l.
Proof.
  induction 1 as [ | x r Hs IH Hall]; [ reflexivity | ].
  cbn. destruct (key x <=? c) eqn:Hle.
  - apply Z.leb_le in Hle. replace (c <? key x) with false by (symmetry; apply Z.ltb_ge; lia).
    cbn. now rewrite IH.
  - apply Z.leb_gt in Hle. replace (c <? key x) with true by (symmetry; apply Z.ltb_lt; lia).
    rewrite Forall_forall in Hall.
    assert (H1 : filter (fun r => key r <=? c) r = []).
    { apply filter_none. intros y Hy. specialize (Hall y Hy). apply Z.leb_gt. lia. }
    assert (H2 : filter (fun r => c <? key r) r = r).
    { apply filter_all. intros y Hy. specialize (Hall y Hy). apply Z.ltb_lt. lia. }
    rewrite H1, H2. reflexivity.
Qed.

Lemma fold_max_bounds (ts : list Z) (t : Z) :
  (forall x, In x (t :: ts) -> x <= fold_left Z.max ts t)
  /\ In (fold_left Z.max ts t) (t :: ts).
Proof.
  revert t. induction ts as [ | u ts IH]; intros t; cbn [fold_left].
  - split; [ intros x [<- | []]; lia | now left ].
  - destruct (IH (Z.max t u)) as [Hle Hin]. split.
    + intros x [<- | [<- | Hx]].
      * specialize (Hle (Z.max t u) (or_introl eq_refl)). lia.
      * specialize (Hle (Z.max t u) (or_introl eq_refl)). lia.
      * apply Hle. now right.
    + destruct Hin as [Hin | Hin]; [ | now right; right ].
      rewrite <- Hin. destruct (Z.max_spec t u) as [[_ ->] | [_ ->]]; cbn; auto.
Qed.

(** [last_start] is the latest [interval_start] of a series with rows. *)
Lemma last_start_bounds (r0 : ContactRow) (df : list ContactRow) :
  (forall r, In r (r0 :: df) ->
     interval_start r <= ForecastMain.last_start (r0 :: df))
  /\ exists r, In r (r0 :: df)
               /\ interval_start r = ForecastMain.last_start (r0 :: df).
Proof.
  unfold ForecastMain.last_start. cbn [map].
  destruct (fold_max_bounds (map interval_start df) (interval_start r0)) as [Hle Hin].
  split.
  - intros r Hr. apply Hle. change (In (interval_start r) (map interval_start (r0 :: df))).
    now apply in_map.
  - change (In (fold_left Z.max (map interval_start df) (interval_start r0))
              (map interval_start (r0 :: df))) in Hin.
    apply in_map_iff in Hin. destruct Hin as (r & Hr & Hin). eauto.
Qed.

(** X15: the holdout split of [main] cuts the sorted series in two
    consecutive pieces, so no row is lost and none is used twice; the
    training rows are those at least [holdout_days] before the last
    observation; and with a holdout of a day or more the test piece of a
    series with rows is not empty (it holds the last observation). *)
Theorem holdout_split_partitions (df_series : list ContactRow) (holdout_days : Z) :
  let sorted := Pd.sort_values interval_start df_series in
  let train := fst (ForecastMain.holdout_split sorted holdout_days) in
  let test := snd (ForecastMain.holdout_split sorted holdout_days) in
  train ++ test = sorted
  /\ (forall r, In r train <->
        In r df_series
        /\ interval_start r + holdout_days * 1440 <= ForecastMain.last_start sorted)
  /\ (forall r, In r test <->
        In r df_series
        /\ ForecastMain.last_start sorted < interval_start r + holdout_days * 1440)
  /\ (0 < holdout_days -> df_series <> [] -> test <> []).
Proof.
  intros sorted train test. subst train test. unfold ForecastMain.holdout_split.
  cbn [fst snd]. split; [ | split; [ | split ] ].
  - apply sorted_split, sort_values_sorted.
  - intros r. rewrite filter_In. unfold sorted at 1. rewrite sort_values_In, Z.leb_le.
    intuition lia.
  - intros r. rewrite filter_In. unfold sorted at 1. rewrite sort_values_In, Z.ltb_lt.
    intuition lia.
  - intros Hh Hne Hnil.
    destruct sorted as [ | r0 rest] eqn:Hs.
    + destruct df_series as [ | r df]; [ congruence | ].
      assert (Hin : In r (Pd.sort_values interval_start (r :: df)))
        by (apply sort_values_In; now left).
      fold sorted in Hin. rewrite Hs in Hin. exact Hin.
    + destruct (last_start_bounds r0 rest) as [_ (r & Hr & Hlast)].
      assert (Hin : In r (filter (fun r => ForecastMain.last_start (r0 :: rest)
                                           - holdout_days * 1440 <? interval_start r)
                            (r0 :: rest))).
      { apply filter_In. split; trivial. apply Z.ltb_lt. lia. }
      rewrite Hnil in Hin. exact Hin.
Qed.

(** ** forecast_and_simulate.py: a series shorter than the holdout *)

Lemma rank_dense_bounds (col : list Z) (d : Z) :
  In d col -> 1 <= Np.rank_dense col d <= Z.of_nat (List.length col).
Proof.
  intros Hd. unfold Np.rank_dense.
  set (below := filter (fun d' => d' <=? d) col).
  assert (Hin : In d (nodup Z.eq_dec below)).
  { apply nodup_In, filter_In. split; trivial. apply Z.leb_le. lia. }
  assert (Hle : (List.length (nodup Z.eq_dec below) <= List.length col)%nat).
  { apply NoDup_incl_length; [ apply NoDup_nodup | ].
    intros x Hx. apply nodup_In in Hx. now apply filter_In in Hx. }
  destruct (nodup Z.eq_dec below); [ destruct Hin | ]. cbn [List.length] in *. lia.
Qed.

Lemma of_int_finite (z : Z) : 0 <= z < 2 ^ 53 -> is_finite (Np.of_int z) = true.
Proof.
  intros H. unfold Np.of_int. destruct (Z.eq_dec z 0) as [-> | Hz]; [ reflexivity | ].
  rewrite is_finite_spec.
  now destruct (small_int_to_float z ltac:(lia)) as (m & e & -> & _).
Qed.

Lemma fit_empty (interval_minutes : Z) :
  _fit_profile_and_trend [] interval_minutes = mkSeriesModel [] 0 0 1.
Proof. reflexivity. Qed.

(** A model fitted on no rows forecasts exactly 0 everywhere. *)
Lemma forecast_at_untrained (future_index : list Z) (interval_minutes ts : Z) :
  In ts future_index ->
  Z.of_nat (List.length future_index) < 2 ^ 53 ->
  forecast_at (mkSeriesModel [] 0 0 1) future_index interval_minutes ts = 0%float.
Proof.
  intros Hts Hlen. unfold forecast_at, base, daily_total, expected_total.
  cbn [profile trend_slope trend_intercept prof_map_get prof_totals_get rev filter].
  change (max 1e-6 1) with 1%float.
  assert (Hfin : is_finite (day_ord future_index ts) = true).
  { unfold day_ord. apply of_int_finite.
    pose proof (rank_dense_bounds (map day_of future_index) (day_of ts)
                  (in_map day_of _ _ Hts)) as Hr.
    rewrite length_map in Hr. lia. }
  destruct (zero_mul_finite _ Hfin) as [s Hs].
  assert (Hz : exists s', Prim2SF (0 + 0 * day_ord future_index ts)%float = S754_zero s').
  { destruct (add_zero 0 _ s Hs) as [-> | (s1 & s2 & _ & H)]; [ now exists false | eauto ]. }
  destruct Hz as [s' Hs'].
  unfold Np.maximum. rewrite (leb_zero _ s' Hs'). reflexivity.
Qed.

(** X12: a series whose whole history spans less than the holdout is
    fitted on no row at all: its training piece is empty, and every value
    forecast for it is exactly 0, whatever its history was. *)
Theorem short_history_forecasts_zero (args : ForecastMain.Args)
    (df_series : list ContactRow) (out : ForecastMain.SeriesForecast) :
  In (ForecastMain.arg_interval_minutes args) ALLOWED_INTERVAL_MINUTES ->
  (forall r r', In r df_series -> In r' df_series ->
     interval_start r' - interval_start r < ForecastMain.holdout_days args * 1440) ->
  ForecastMain.forecast_series args df_series = Ok out ->
  Z.of_nat (List.length (ForecastMain.future_index out)) < 2 ^ 53 ->
  fst (ForecastMain.holdout_split (Pd.sort_values interval_start df_series)
         (ForecastMain.holdout_days args)) = []
  /\ Forall (fun v => v = 0%float) (ForecastMain.pred_future out).
Proof.
  intros _ Hspan Hout Hlen.
  set (sorted := Pd.sort_values interval_start df_series) in *.
  assert (Htrain : fst (ForecastMain.holdout_split sorted (ForecastMain.holdout_days args))
                   = []).
  { unfold ForecastMain.holdout_split. cbn [fst]. apply filter_none.
    intros r Hr. apply Z.leb_gt.
    destruct sorted as [ | r0 rest] eqn:Hs; [ destruct Hr | ].
    destruct (last_start_bounds r0 rest) as [_ (r' & Hr' & <-)].
    assert (In r df_series /\ In r' df_series) as [H1 H2].
    { split; apply (sort_values_In _ interval_start); fold sorted; now rewrite Hs. }
    specialize (Hspan r r' H1 H2). lia. }
  split; trivial.
  unfold ForecastMain.forecast_series in Hout. fold sorted in Hout.
  destruct (ForecastMain.holdout_split sorted (ForecastMain.holdout_days args))
    as [train test].
  cbn [fst] in Htrain. subst train. rewrite fit_empty in Hout.
  destruct (Builtins.int_truediv _ _) as [q | ]; cbn [bind] in Hout; [ | discriminate ].
  destruct (Builtins.int_of_float q) as [periods | ]; cbn [bind] in Hout; [ | discriminate ].
  destruct (ForecastMain.date_range _ _ _) as [index | ]; cbn [bind] in Hout;
    [ | discriminate ].
  injection Hout as <-. cbn [ForecastMain.pred_future ForecastMain.future_index] in *.
  unfold _forecast_series. apply Forall_map, Forall_forall. intros ts Hts.
  now apply forecast_at_untrained.
Qed.

Lemma short_history_forecasts_zero_witness :
  let df_series :=
    [ mkContactRow 0 5; mkContactRow 720 7; mkContactRow 1440 6; mkContactRow 2160 9 ] in
  let out :=
    ForecastMain.mkSeriesForecast (Some (1%float, 6.9101374805426268%float))
      [ 2880; 3600 ] [ 0; 0 ]%float in
  ForecastMain.forecast_series (ForecastMain.mkArgs 720 1 2) df_series = Ok out
  /\ fst (ForecastMain.holdout_split (Pd.sort_values interval_start df_series) 2) = []
  /\ Forall (fun v => v = 0%float) (ForecastMain.pred_future out).
Proof.
  intros df_series out.
  assert (H : ForecastMain.forecast_series (ForecastMain.mkArgs 720 1 2) df_series = Ok out)
    by (vm_compute; reflexivity).
  split; [ exact H | ].
  apply (short_history_forecasts_zero (ForecastMain.mkArgs 720 1 2) df_series out);
    [ cbn; tauto | | exact H | cbn; lia ].
  intros r r' Hr Hr'. cbn [ForecastMain.holdout_days].
  destruct Hr as [<- | [<- | [<- | [<- | []]]]];
    destruct Hr' as [<- | [<- | [<- | [<- | []]]]]; cbn; lia.
Defined.

(** ** forecast_and_simulate.py: the day index of the projection *)

Lemma range_NoDup (a b : Z) : NoDup (range a b).
Proof.
  unfold range. apply Injective_map_NoDup; [ | apply seq_NoDup ].
  intros i j H. lia.
Qed.

Lemma range_length (a b : Z) : List.length (range a b) = Z.to_nat (b - a).
Proof. unfold range. now rewrite length_map, length_seq. Qed.

(** Two lists without duplicates that hold the same elements have the
    same length. *)
Lemma NoDup_same_length (A : Type) (l1 l2 : list A) :
  NoDup l1 -> NoDup l2 -> (forall x, In x l1 <-> In x l2) ->
  List.length l1 = List.length l2.
Proof.
  intros H1 H2 H. apply Nat.le_antisymm; apply NoDup_incl_length; trivial;
    intros x Hx; now apply H.
Qed.

Lemma day_of_mono (t1 t2 : Z) : t1 <= t2 -> day_of t1 <= day_of t2.
Proof. intros H. unfold day_of. apply Z.div_le_mono; lia. Qed.

Lemma day_of_step (t freq : Z) : 0 < freq <= 1440 -> day_of (t + freq) <= day_of t + 1.
Proof.
  intros H. unfold day_of.
  replace (t / 1440 + 1) with ((t + 1 * 1440) / 1440) by (rewrite Z.div_add; lia).
  apply Z.div_le_mono; lia.
Qed.

(** Slots spaced by at most a day skip no calendar day. *)
Lemma no_day_skipped (start freq e : Z) :
  0 < freq <= 1440 ->
  forall j, 0 <= j ->
    day_of start <= e <= day_of (start + freq * j) ->
    exists i, 0 <= i <= j /\ day_of (start + freq * i) = e.
Proof.
  intros Hf j Hj. revert e. pattern j. apply natlike_ind; trivial; clear j Hj.
  - intros e He. exists 0. split; [ lia | ]. rewrite Z.mul_0_r, Z.add_0_r in *. lia.
  - intros j Hj IH e He.
    destruct (Z_le_gt_dec e (day_of (start + freq * j))) as [Hle | Hgt].
    + destruct (IH e ltac:(lia)) as (i & Hi & Hd). exists i. split; [ lia | trivial ].
    + exists (Z.succ j). split; [ lia | ].
      pose proof (day_of_step (start + freq * j) freq Hf) as Hs.
      replace (start + freq * j + freq) with (start + freq * Z.succ j) in Hs by lia.
      lia.
Qed.

(** X13: in the index that [main] builds for the future (slots spaced by
    [interval_minutes], at most a day), the day index of the projection
    is the number of calendar days since the first forecast slot. *)
Theorem future_day_index (start periods freq : Z) (index : list Z) (j : Z) :
  0 < freq <= 1440 ->
  ForecastMain.date_range start periods freq = Ok index ->
  0 <= j < periods ->
  In (start + freq * j) index
  /\ day_ord index (start + freq * j)
     = Np.of_int (day_of (start + freq * j) - day_of start).
Proof.
  intros Hf Hidx Hj. unfold ForecastMain.date_range in Hidx.
  destruct (periods <? 0); [ discriminate | ]. injection Hidx as <-.
  assert (Hmem : forall t, In t (map (fun i => start + freq * i) (range 0 periods))
                           <-> exists i, 0 <= i < periods /\ t = start + freq * i).
  { intros t. rewrite in_map_iff. split.
    - intros (i & <- & Hi). apply range_In in Hi. eauto.
    - intros (i & Hi & ->). exists i. split; trivial. now apply range_In. }
  split; [ apply Hmem; eauto | ].
  unfold day_ord. f_equal. unfold Np.rank_dense.
  set (d := day_of (start + freq * j)).
  set (days := map day_of (map (fun i => start + freq * i) (range 0 periods))).
  assert (Hd0 : day_of start <= d).
  { apply day_of_mono. nia. }
  rewrite (NoDup_same_length _ _ (range (day_of start) (d + 1))).
  - rewrite range_length. lia.
  - apply NoDup_nodup.
  - apply range_NoDup.
  - intros e. rewrite nodup_In, filter_In, range_In, Z.leb_le. unfold days.
    rewrite in_map_iff. split.
    + intros [(t & <- & Ht) Hle]. apply Hmem in Ht. destruct Ht as (i & Hi & ->).
      split; [ apply day_of_mono; nia | lia ].
    + intros He.
      destruct (no_day_skipped start freq e Hf j ltac:(lia) ltac:(lia)) as (i & Hi & Hdi).
      split; [ | lia ]. exists (start + freq * i). split; trivial.
      apply Hmem. exists i. split; [ lia | reflexivity ].
Qed.

Lemma future_day_index_witness :
  In (2880 + 720 * 3) [ 2880; 3600; 4320; 5040 ]
  /\ day_ord [ 2880; 3600; 4320; 5040 ] (2880 + 720 * 3)
     = Np.of_int (day_of (2880 + 720 * 3) - day_of 2880).
Proof.
  apply (future_day_index 2880 4 720 [ 2880; 3600; 4320; 5040 ] 3);
    [ lia | reflexivity | lia ].
Defined.

(** ** forecast_and_simulate.py: the weekly profile *)

(** X16: the seasonal part of a forecast has a period of one week: a
    slot and the slot seven days later read the same profile entry and
    the same day-of-week total. *)
Theorem profile_is_weekly (model : SeriesModel) (interval_minutes ts : Z) :
  slot_key interval_minutes (ts + 7 * 1440) = slot_key interval_minutes ts
  /\ base model interval_minutes (ts + 7 * 1440) = base model interval_minutes ts
  /\ expected_total model (ts + 7 * 1440) = expected_total model ts.
Proof.
  assert (Hdow : dayofweek (ts + 7 * 1440) = dayofweek ts).
  { unfold dayofweek, day_of. rewrite Z.div_add by lia.
    replace (ts / 1440 + 7 + 3) with (ts / 1440 + 3 + 1 * 7) by lia.
    now rewrite Z.mod_add by lia. }
  assert (Hkey : slot_key interval_minutes (ts + 7 * 1440) = slot_key interval_minutes ts).
  { unfold slot_key, _time_bucket. rewrite Hdow. now rewrite Z.mod_add by lia. }
  split; [ exact Hkey | ]. split.
  - unfold base. now rewrite Hkey.
  - unfold expected_total. now rewrite Hdow.
Qed.

(** ** forecast_and_simulate.py: the scores of a forecast *)

Lemma sub_self (a : float) : is_finite a = true -> (a - a)%float = 0%float.
Proof.
  rewrite is_finite_spec. intros Ha. apply Prim2SF_inj. rewrite sub_spec.
  destruct (Prim2SF a) as [s | s | | s m e]; try discriminate.
  - now destruct s.
  - cbn [SF64sub SFsub]. rewrite Z.sub_diag. reflexivity.
Qed.

Lemma zero_div_pos_exact (d : float) : (0 <? d)%float = true -> (0 / d)%float = 0%float.
Proof.
  intros Hd. apply pos_spec in Hd. apply Prim2SF_inj. rewrite div_spec.
  change (Prim2SF 0) with (S754_zero false).
  destruct (Prim2SF d) as [sd | [ | ] | | [ | ] md ed]; cbn in *; tauto.
Qed.

(** The floored denominator of the MAPE is above zero for a finite
    actual value. *)
Lemma mape_denominator_pos (a : float) :
  is_finite a = true -> (0 <? Np.maximum 1e-6 (abs a))%float = true.
Proof.
  rewrite is_finite_spec. intros Ha. unfold Np.maximum.
  destruct (abs a <=? 1e-6)%float eqn:Hle; [ reflexivity | ].
  change (is_nan 1e-6) with false. cbn [orb].
  pose proof (proj1 (pos_spec 1e-6) eq_refl) as Heps.
  apply pos_spec. revert Hle. rewrite leb_spec, abs_spec.
  destruct (Prim2SF 1e-6) as [se | [ | ] | | [ | ] me ee]; try contradiction;
    destruct (Prim2SF a) as [s | s | | s m e]; try discriminate; cbn; trivial;
    discriminate.
Qed.

Lemma sum_zeros (l : list float) : (forall x, In x l -> x = 0%float) -> Np.sum l = 0%float.
Proof.
  unfold Np.sum. induction l as [ | x l IH]; intros H; [ reflexivity | ].
  cbn [fold_left]. rewrite (H x (or_introl eq_refl)).
  change (0 + 0)%float with 0%float. apply IH. intros y Hy. apply H. now right.
Qed.

Lemma mean_zeros (l : list float) :
  (0 < List.length l)%nat -> Z.of_nat (List.length l) < 2 ^ 53 ->
  (forall x, In x l -> x = 0%float) -> Np.mean l = 0%float.
Proof.
  intros Hpos Hlen H. unfold Np.mean. rewrite (sum_zeros l H).
  apply zero_div_pos_exact. unfold Np.of_nat.
  apply (float_of_int_small (Z.of_nat (List.length l))). lia.
Qed.

Lemma combine_self (A : Type) (l : list A) : combine l l = map (fun x => (x, x)) l.
Proof. induction l as [ | x l IH]; cbn; [ reflexivity | now rewrite IH ]. Qed.

(** X14: a forecast that equals the actual values scores a MAPE of 0 and
    an RMSE of 0. *)
Theorem perfect_forecast_scores_zero (actual : list float) :
  (0 < List.length actual)%nat ->
  Z.of_nat (List.length actual) < 2 ^ 53 ->
  Forall (fun a => is_finite a = true) actual ->
  _evaluate_forecast actual actual = (0%float, 0%float).
Proof.
  intros Hpos Hlen Hfin. rewrite Forall_forall in Hfin. unfold _evaluate_forecast.
  rewrite combine_self, map_map. cbn [fst snd].
  set (err := map (fun x => (x - x)%float) actual).
  assert (Herr : forall e, In e err -> e = 0%float).
  { intros e He. apply in_map_iff in He. destruct He as (a & <- & Ha).
    now apply sub_self, Hfin. }
  assert (Hlen_err : List.length err = List.length actual) by apply length_map.
  f_equal.
  - apply mean_zeros.
    + rewrite length_map, length_combine, Hlen_err. lia.
    + rewrite length_map, length_combine, Hlen_err. lia.
    + intros x Hx. apply in_map_iff in Hx. destruct Hx as ([a e] & <- & Hae). cbn [fst snd].
      rewrite (Herr e (in_combine_r _ _ _ _ Hae)).
      change (abs 0) with 0%float.
      apply zero_div_pos_exact, mape_denominator_pos, Hfin.
      exact (in_combine_l _ _ _ _ Hae).
  - rewrite mean_zeros; [ reflexivity | now rewrite length_map, Hlen_err .. | ].
    intros x Hx. apply in_map_iff in Hx. destruct Hx as (e & <- & He).
    now rewrite (Herr e He).
Qed.

Lemma perfect_forecast_scores_zero_witness :
  _evaluate_forecast [ 5; 7; 6; 9 ]%float [ 5; 7; 6; 9 ]%float = (0%float, 0%float).
Proof.
  apply (perfect_forecast_scores_zero [ 5; 7; 6; 9 ]%float); [ cbn; lia | cbn; lia | ].
  repeat constructor.
Defined.

(** ** etl_build_marts.py: the group keys *)

Lemma ascii_compare_refl (a : Ascii.ascii) : Ascii.compare a a = Eq.
Proof. unfold Ascii.compare. apply N.compare_refl. Qed.

Lemma string_compare_refl (s : string) : String.compare s s = Eq.
Proof. induction s as [ | a s IH]; cbn; trivial. now rewrite ascii_compare_refl. Qed.

Lemma ascii_compare_lt_trans (a b c : Ascii.ascii) :
  Ascii.compare a b = Lt -> Ascii.compare b c = Lt -> Ascii.compare a c = Lt.
Proof. unfold Ascii.compare. rewrite !N.compare_lt_iff. lia. Qed.

Lemma string_compare_lt_trans (s1 s2 s3 : string) :
  String.compare s1 s2 = Lt -> String.compare s2 s3 = Lt -> String.compare s1 s3 = Lt.
Proof.
  revert s2 s3. induction s1 as [ | a s1 IH]; intros [ | b s2] [ | c s3]; cbn;
    trivial; try discriminate.
  destruct (Ascii.compare a b) eqn:Hab; try discriminate;
    destruct (Ascii.compare b c) eqn:Hbc; try discriminate; intros H1 H2.
  - apply Ascii.compare_eq_iff in Hab, Hbc. subst. rewrite ascii_compare_refl. eauto.
  - apply Ascii.compare_eq_iff in Hab. subst. now rewrite Hbc.
  - apply Ascii.compare_eq_iff in Hbc. subst. now rewrite Hab.
  - now rewrite (ascii_compare_lt_trans a b c Hab Hbc).
Qed.

Lemma string_ltb_irrefl (s : string) : String.ltb s s = false.
Proof. unfold String.ltb. now rewrite string_compare_refl. Qed.

Lemma string_ltb_trans (s1 s2 s3 : string) :
  String.ltb s1 s2 = true -> String.ltb s2 s3 = true -> String.ltb s1 s3 = true.
Proof.
  unfold String.ltb.
  destruct (String.compare s1 s2) eqn:H12; try discriminate.
  destruct (String.compare s2 s3) eqn:H23; try discriminate.
  now rewrite (string_compare_lt_trans s1 s2 s3 H12 H23).
Qed.

Lemma string_ltb_total (s1 s2 : string) :
  String.ltb s1 s2 = false -> String.eqb s1 s2 = false -> String.ltb s2 s1 = true.
Proof.
  unfold String.ltb. rewrite (String.compare_antisym s2 s1).
  destruct (String.compare s1 s2) eqn:H; try discriminate; cbn; trivial.
  apply String.compare_eq_iff in H. subst. now rewrite String.eqb_refl.
Qed.

Lemma etl_key_eqb_eq (a b : Etl.Key) : Etl.key_eqb a b = true <-> a = b.
Proof.
  destruct a as [[a1 a2] a3], b as [[b1 b2] b3]. unfold Etl.key_eqb. cbn [fst snd].
  rewrite !andb_true_iff, Z.eqb_eq, !String.eqb_eq.
  split; [ intros [[-> ->] ->]; trivial | intros [= -> -> ->]; auto ].
Qed.

Lemma etl_key_ltb_irrefl (a : Etl.Key) : Etl.key_ltb a a = false.
Proof.
  unfold Etl.key_ltb. rewrite Z.ltb_irrefl, !string_ltb_irrefl.
  now rewrite andb_false_r, andb_false_r.
Qed.

Lemma etl_key_ltb_trans (a b c : Etl.Key) :
  Etl.key_ltb a b = true -> Etl.key_ltb b c = true -> Etl.key_ltb a c = true.
Proof.
  destruct a as [[a1 a2] a3], b as [[b1 b2] b3], c as [[c1 c2] c3].
  unfold Etl.key_ltb. cbn [fst snd].
  repeat first [ rewrite orb_true_iff | rewrite andb_true_iff ].
  rewrite !Z.ltb_lt, !Z.eqb_eq, !String.eqb_eq.
  intros [H1 | [-> [H1 | [-> H1]]]] [H2 | [-> [H2 | [-> H2]]]]; try (left; lia);
    try (left; assumption); right; (split; [ reflexivity | ]).
  - left. eapply string_ltb_trans; eauto.
  - now left.
  - now left.
  - right. split; trivial. eapply string_ltb_trans; eauto.
Qed.

Lemma etl_key_ltb_total (a b : Etl.Key) :
  Etl.key_ltb a b = false -> Etl.key_eqb a b = false -> Etl.key_ltb b a = true.
Proof.
  destruct a as [[a1 a2] a3], b as [[b1 b2] b3].
  unfold Etl.key_ltb, Etl.key_eqb. cbn [fst snd]. intros H1 H2.
  destruct (Z.compare_spec a1 b1) as [-> | Hlt | Hgt].
  - rewrite Z.ltb_irrefl, Z.eqb_refl in *. cbn [orb andb] in *.
    destruct (String.ltb a2 b2) eqn:H12; [ discriminate | ].
    destruct (String.eqb a2 b2) eqn:E12.
    + apply String.eqb_eq in E12. subst b2.
      rewrite string_ltb_irrefl, String.eqb_refl. cbn [orb andb] in *.
      now apply string_ltb_total.
    + now rewrite (string_ltb_total a2 b2 H12 E12).
  - apply Z.ltb_lt in Hlt. now rewrite Hlt in H1.
  - apply Z.ltb_lt in Hgt. now rewrite Hgt.
Qed.

Lemma etl_insert_key_cons (k k' : Etl.Key) (r : list Etl.Key) :
  Etl.insert_key k (k' :: r)
  = if Etl.key_ltb k k' then k :: k' :: r
    else if Etl.key_eqb k k' then k' :: r else k' :: Etl.insert_key k r.
Proof. reflexivity. Qed.

Lemma etl_group_keys_NoDup (ks : list Etl.Key) : NoDup (Etl.group_keys ks).
Proof.
  apply (keys_NoDup _ Etl.key_ltb Etl.key_eqb Etl.insert_key etl_key_eqb_eq
           etl_key_ltb_irrefl etl_key_ltb_trans etl_key_ltb_total (fun k => eq_refl)
           etl_insert_key_cons).
Qed.

Lemma etl_group_keys_In (ks : list Etl.Key) (k : Etl.Key) :
  In k (Etl.group_keys ks) <-> In k ks.
Proof.
  apply (keys_In _ Etl.key_ltb Etl.key_eqb Etl.insert_key etl_key_eqb_eq
           (fun k => eq_refl) etl_insert_key_cons).
Qed.

(** ** etl_build_marts.py: the service columns of an aggregation *)

Lemma map_result_raises (A B : Type) (f : A -> result B) (e : exn) (l : list A) :
  (forall x, In x l -> f x = Raise e \/ exists y, f x = Ok y) ->
  (exists x, In x l /\ f x = Raise e) ->
  map_result f l = Raise e.
Proof.
  induction l as [ | x l IH]; intros Hall (x0 & Hin & Hx0); [ destruct Hin | ].
  cbn [map_result].
  destruct (Hall x (or_introl eq_refl)) as [Hx | (y & Hx)]; rewrite Hx;
    [ reflexivity | ].
  cbn [bind]. rewrite IH; trivial.
  - intros z Hz. apply Hall. now right.
  - destruct Hin as [<- | Hin]; [ congruence | eauto ].
Qed.

Lemma map_result_ok (A B : Type) (f : A -> result B) (l : list A) (ys : list B) :
  map_result f l = Ok ys -> Forall2 (fun x y => f x = Ok y) l ys.
Proof.
  revert ys. induction l as [ | x l IH]; intros ys; cbn [map_result].
  - intros [= <-]. constructor.
  - destruct (f x) as [y | ] eqn:Hx; cbn [bind]; [ | discriminate ].
    destruct (map_result f l) as [ys' | ]; cbn [bind]; [ | discriminate ].
    intros [= <-]. constructor; auto.
Qed.

Lemma Forall2_In_r (A B : Type) (P : A -> B -> Prop) (l : list A) (l' : list B) (y : B) :
  Forall2 P l l' -> In y l' -> exists x, In x l /\ P x y.
Proof.
  induction 1 as [ | x y' l l' Hxy _ IH]; intros Hin; [ destruct Hin | ].
  destruct Hin as [<- | Hin].
  - exists x. split; [ now left | trivial ].
  - destruct (IH Hin) as (x' & Hx' & HP). exists x'. split; [ now right | trivial ].
Qed.

(** [erlang_c_summary] has five parameters without a default; the
    aggregation passes four values. *)
Lemma positional_summary_call_rejected (math_exp : float -> result float)
    (a b c d : pyval) :
  Etl.call_erlang_c_summary_positional math_exp [ a; b; c; d ] = Raise TypeError.
Proof. reflexivity. Qed.

Lemma min_one_le (q : float) : (min 1 q <=? 1)%float = true.
Proof.
  unfold min. destruct (q <? 1)%float eqn:H; [ now apply ltb_leb | reflexivity ].
Qed.

(** What a row contributes when the loop gets past it. *)
Lemma service_of_row_returns (math_exp : float -> result float) (interval_seconds : Z)
    (row : Etl.MergedRow) (asa sl : float) :
  Etl.service_of_row math_exp interval_seconds row = Ok (asa, sl) ->
  erlang_row row = false
  /\ is_nan asa = true
  /\ (is_nan sl = true \/ (sl <=? 1)%float = true).
Proof.
  unfold Etl.service_of_row. fold (erlang_row row).
  destruct (erlang_row row).
  - intros H. exfalso. revert H.
    destruct (float_of_int _) as [hf | ]; cbn [bind]; [ | discriminate ].
    destruct (float_of_int _) as [sf | ]; cbn [bind]; [ | discriminate ].
    destruct (truediv _ _) as [traffic | ]; cbn [bind]; [ | discriminate ].
    rewrite positional_summary_call_rejected. discriminate.
  - intros H. split; [ reflexivity | ]. revert H.
    match goal with |- (if ?c then _ else _) = _ -> _ => destruct c end.
    + destruct (float_of_int interval_seconds) as [sf | ]; cbn [bind]; [ | discriminate ].
      destruct (truediv sf _) as [per_agent | ]; cbn [bind]; [ | discriminate ].
      destruct (float_of_int _) as [af | ]; cbn [bind]; [ | discriminate ].
      match goal with |- context [bind ?c _] => destruct c as [d | ] end;
        cbn [bind]; [ | discriminate ].
      destruct (truediv _ d) as [q | ]; cbn [bind]; [ | discriminate ].
      intros [= <- <-]. split; [ reflexivity | right; apply min_one_le ].
    + intros [= <- <-]. split; [ reflexivity | now left ].
Qed.

(** A row with counts below [2^53] raises TypeError when it goes to
    Erlang C, and nothing otherwise. *)
Lemma service_of_row_cases (math_exp : float -> result float) (interval_seconds : Z)
    (row : Etl.MergedRow) :
  0 < interval_seconds < 2 ^ 53 ->
  Etl.agg_handled_contacts (Etl.merged_demand row) < 2 ^ 53 ->
  Etl.merged_agents_available row < 2 ^ 53 ->
  if erlang_row row
  then Etl.service_of_row math_exp interval_seconds row = Raise TypeError
  else exists y, Etl.service_of_row math_exp interval_seconds row = Ok y.
Proof.
  intros Hi Hh Ha. unfold Etl.service_of_row. fold (erlang_row row).
  destruct (float_of_int_small interval_seconds Hi) as [Hsf Hsfpos].
  destruct (erlang_row row) eqn:Herl.
  - unfold erlang_row in Herl. rewrite !andb_true_iff in Herl.
    destruct Herl as [[[_ Hh0] _] _]. apply Z.ltb_lt in Hh0.
    destruct (float_of_int_small (Z.max 0 (Etl.agg_handled_contacts (Etl.merged_demand row)))
                ltac:(lia)) as [-> _].
    cbn [bind]. rewrite Hsf. cbn [bind]. rewrite (truediv_pos _ _ Hsfpos). cbn [bind].
    now rewrite positional_summary_call_rejected.
  - match goal with |- context [if ?c then _ else _] => destruct c eqn:Hmail end;
      [ | eauto ].
    rewrite !andb_true_iff in Hmail. destruct Hmail as [[[_ Hh0] Ha0] Haht].
    apply Z.ltb_lt in Hh0, Ha0.
    rewrite Hsf. cbn [bind].
    rewrite (truediv_pos _ _ (gt_zero_pos _ Haht)). cbn [bind].
    destruct (float_of_int_small (Z.max 0 (Etl.merged_agents_available row)) ltac:(lia))
      as [-> _].
    cbn [bind].
    destruct (1 <? Z.max 0 (Etl.agg_handled_contacts (Etl.merged_demand row))).
    + destruct (float_of_int_small
                  (Z.max 0 (Etl.agg_handled_contacts (Etl.merged_demand row))) ltac:(lia))
        as [-> Hpos].
      cbn [bind]. rewrite (truediv_pos _ _ Hpos). cbn [bind]. eauto.
    + cbn [bind]. rewrite (truediv_pos _ 1 eq_refl). cbn [bind]. eauto.
Qed.

(** X17: aggregating to an interval that is not a multiple of 15 minutes
    raises ValueError (every interval [main] asks for is a multiple), and
    aggregating data with one voice or chat bucket that has contacts
    handled, agents available and a handle time raises TypeError: the
    call of [erlang_c_summary] passes four values for five parameters. *)
Theorem aggregation_errors (math_exp : float -> result float)
    (demand : list Etl.DemandRow) (staffing : list Etl.StaffingRow) (minutes : Z) :
  (minutes mod 15 <> 0 ->
   Etl._aggregate_interval math_exp demand staffing minutes = Raise ValueError)
  /\ Forall (fun m => m mod 15 = 0) Etl.AGG_INTERVAL_MINUTES
  /\ (forall d_agg row,
        minutes mod 15 = 0 ->
        0 < minutes < 2 ^ 40 ->
        Etl.aggregate_demand demand minutes = Ok d_agg ->
        (forall r, In r (Etl.merge d_agg (Etl.aggregate_staffing staffing minutes)) ->
           Etl.agg_handled_contacts (Etl.merged_demand r) < 2 ^ 53
           /\ Etl.merged_agents_available r < 2 ^ 53) ->
        In row (Etl.merge d_agg (Etl.aggregate_staffing staffing minutes)) ->
        erlang_row row = true ->
        Etl._aggregate_interval math_exp demand staffing minutes = Raise TypeError).
Proof.
  split; [ | split ].
  - intros H. unfold Etl._aggregate_interval.
    destruct (Z.eqb_spec (minutes mod 15) 0); [ contradiction | reflexivity ].
  - repeat constructor.
  - intros d_agg row Hmod Hi Hagg Hbounds Hrow Herl. unfold Etl._aggregate_interval.
    rewrite Hmod. cbn [Z.eqb negb]. rewrite Hagg. cbn [bind].
    rewrite (map_result_raises _ _ _ TypeError); trivial.
    + intros r Hr. destruct (Hbounds r Hr) as [Hh Ha].
      pose proof (service_of_row_cases math_exp (minutes * 60) r ltac:(lia) Hh Ha) as Hc.
      destruct (erlang_row r); auto.
    + exists row. split; trivial. destruct (Hbounds row Hrow) as [Hh Ha].
      pose proof (service_of_row_cases math_exp (minutes * 60) row ltac:(lia) Hh Ha) as Hc.
      now rewrite Herl in Hc.
Qed.

Lemma aggregation_errors_witness :
  Etl._aggregate_interval Libm.exp
    [ Etl.mkDemandRow 0 "voice" "billing" 5 5 0 600 20 ]
    [ Etl.mkStaffingRow 0 "voice" "billing" 3 2 0.25 24 ] 30
  = Raise TypeError.
Proof.
  apply (proj2 (proj2 (aggregation_errors Libm.exp
                         [ Etl.mkDemandRow 0 "voice" "billing" 5 5 0 600 20 ]
                         [ Etl.mkStaffingRow 0 "voice" "billing" 3 2 0.25 24 ] 30))
           [ Etl.mkDemandAgg (0, "voice", "billing") 5 5 0 600 20 ]
           (Etl.mkMergedRow (Etl.mkDemandAgg (0, "voice", "billing") 5 5 0 600 20) 2)).
  - reflexivity.
  - lia.
  - vm_compute. reflexivity.
  - intros r Hr. vm_compute in Hr. destruct Hr as [<- | []]. split; reflexivity.
  - vm_compute. left. reflexivity.
  - reflexivity.
Defined.

(** X18: whenever an aggregation returns, no bucket went to Erlang C:
    every [asa_seconds] it reports is a NaN, and every [service_level]
    is a NaN or the capped throughput ratio of an email bucket, at most
    1; there is one row per aggregated bucket. *)
Theorem aggregation_reports_no_asa (math_exp : float -> result float)
    (demand : list Etl.DemandRow) (staffing : list Etl.StaffingRow) (minutes : Z)
    (d_out : list Etl.DemandMart) (s_out : list (Etl.StaffingAgg * Z)) :
  0 < minutes ->
  Etl._aggregate_interval math_exp demand staffing minutes = Ok (d_out, s_out) ->
  Etl.aggregate_demand demand minutes = Ok (map Etl.mart_demand d_out)
  /\ Forall (fun row => erlang_row row = false)
       (Etl.merge (map Etl.mart_demand d_out) (Etl.aggregate_staffing staffing minutes))
  /\ Forall (fun r => is_nan (Etl.mart_asa_seconds r) = true
                      /\ (is_nan (Etl.mart_service_level r) = true
                          \/ (Etl.mart_service_level r <=? 1)%float = true)) d_out.
Proof.
  intros _. unfold Etl._aggregate_interval.
  destruct (negb _); [ discriminate | ].
  destruct (Etl.aggregate_demand demand minutes) as [d_agg | ]; cbn [bind];
    [ | discriminate ].
  destruct (map_result _ _) as [service | ] eqn:Hs; cbn [bind]; [ | discriminate ].
  intros [= <- <-]. apply map_result_ok in Hs.
  assert (Hlen : List.length service = List.length d_agg).
  { apply Forall2_length in Hs. unfold Etl.merge in Hs. rewrite length_map in Hs. lia. }
  assert (Hd : map Etl.mart_demand
                 (map (fun rs => Etl.mkDemandMart (fst rs) (fst (snd rs)) (snd (snd rs))
                                   minutes) (combine d_agg service)) = d_agg).
  { rewrite map_map. cbn [Etl.mart_demand].
    clear Hs. revert service Hlen. induction d_agg as [ | r d IH]; intros [ | s service];
      cbn; trivial; try discriminate.
    intros [= H]. now rewrite IH. }
  rewrite Hd. split; trivial.
  set (merged := Etl.merge d_agg (Etl.aggregate_staffing staffing minutes)) in *.
  assert (Hrows : Forall2 (fun row y => erlang_row row = false
                                        /\ is_nan (fst y) = true
                                        /\ (is_nan (snd y) = true
                                            \/ (snd y <=? 1)%float = true))
                    merged service).
  { eapply Forall2_impl; [ | exact Hs ]. intros row [asa sl] H.
    now apply service_of_row_returns in H. }
  split.
  - clear Hs Hd Hlen. induction Hrows; constructor; tauto.
  - rewrite Forall_map. apply Forall_forall. intros [r y] Hin.
    cbn [Etl.mart_asa_seconds Etl.mart_service_level fst snd].
    apply in_combine_r in Hin.
    destruct (Forall2_In_r _ _ _ _ _ y Hrows Hin) as (row & _ & Hy). tauto.
Qed.

Lemma aggregation_reports_no_asa_witness :
  let demand :=
    [ Etl.mkDemandRow 0 "email" "support_email" 5 5 0 600 86400;
      Etl.mkDemandRow 15 "email" "support_email" 7 6 0 700 86400;
      Etl.mkDemandRow 30 "email" "support_email" 1 1 0 100 86400 ] in
  let staffing :=
    [ Etl.mkStaffingRow 0 "email" "support_email" 3 2 0.25 21;
      Etl.mkStaffingRow 15 "email" "support_email" 4 3 0.25 21 ] in
  let d_out :=
    [ Etl.mkDemandMart
        (Etl.mkDemandAgg (0, "email", "support_email") 12 11 0 654.5454545454545 86400)
        nan 0.5 30;
      Etl.mkDemandMart
        (Etl.mkDemandAgg (30, "email", "support_email") 1 1 0 100 86400) nan nan 30 ] in
  Etl._aggregate_interval Libm.exp demand staffing 30
  = Ok (d_out,
        [ (Etl.mkStaffingAgg (0, "email", "support_email") 3.5 2.5 0.25 21, 30) ])
  /\ Forall (fun r => is_nan (Etl.mart_asa_seconds r) = true
                      /\ (is_nan (Etl.mart_service_level r) = true
                          \/ (Etl.mart_service_level r <=? 1)%float = true)) d_out.
Proof.
  intros demand staffing d_out.
  assert (H : Etl._aggregate_interval Libm.exp demand staffing 30
              = Ok (d_out,
                    [ (Etl.mkStaffingAgg (0, "email", "support_email") 3.5 2.5 0.25 21,
                       30) ]))
    by (vm_compute; reflexivity).
  split; [ exact H | ].
  exact (proj2 (proj2 (aggregation_reports_no_asa Libm.exp demand staffing 30 _ _
                         ltac:(lia) H))).
Defined.

(** ** etl_build_marts.py: aggregation conserves the contact counts *)

Lemma fold_left_add (l : list Z) (a : Z) : fold_left Z.add l a = a + fold_right Z.add 0 l.
Proof.
  revert a. induction l as [ | x l IH]; intros a; cbn; [ lia | ]. rewrite IH. lia.
Qed.

Lemma int64_small (z : Z) : - 2 ^ 63 <= z < 2 ^ 63 -> Pd.int64 z = z.
Proof.
  intros H. unfold Pd.int64. rewrite Z.mod_small; lia.
Qed.

Lemma int_sum_total (A : Type) (col : A -> Z) (rows : list A) :
  - 2 ^ 63 <= total col rows < 2 ^ 63 -> Pd.int_sum (map col rows) = total col rows.
Proof.
  intros H. unfold Pd.int_sum. rewrite fold_left_add, Z.add_0_l. now apply int64_small.
Qed.

Lemma total_filter_bounds (A : Type) (col : A -> Z) (p : A -> bool) (rows : list A) :
  (forall r, In r rows -> 0 <= col r) ->
  0 <= total col (filter p rows) <= total col rows.
Proof.
  unfold total. induction rows as [ | r rows IH]; intros H; cbn; [ lia | ].
  pose proof (H r (or_introl eq_refl)).
  assert (IH' := IH (fun x Hx => H x (or_intror Hx))).
  destruct (p r); cbn; lia.
Qed.

Section Partition.

Variables (A K : Type) (eqb : K -> K -> bool) (key : A -> K) (col : A -> Z).

Hypothesis eqb_eq : forall a b, eqb a b = true <-> a = b.

Lemma total_indicator (keys : list K) (k0 : K) (v : Z) :
  NoDup keys -> In k0 keys ->
  total (fun k => if eqb k0 k then v else 0) keys = v.
Proof.
  unfold total. induction 1 as [ | k keys Hnin Hnd IH]; intros Hin; [ destruct Hin | ].
  cbn. destruct (eqb k0 k) eqn:He.
  - apply eqb_eq in He. subst k.
    assert (Hz : fold_right Z.add 0 (map (fun k => if eqb k0 k then v else 0) keys) = 0).
    { clear IH Hin Hnd. induction keys as [ | k keys IH]; cbn; trivial.
      destruct (eqb k0 k) eqn:He.
      - apply eqb_eq in He. subst k. exfalso. apply Hnin. now left.
      - rewrite IH; [ lia | ]. intros H. apply Hnin. now right. }
    lia.
  - destruct Hin as [-> | Hin].
    + assert (eqb k0 k0 = true) by now apply eqb_eq. congruence.
    + rewrite (IH Hin). lia.
Qed.

Lemma total_add (F G : K -> Z) (keys : list K) :
  total (fun k => F k + G k) keys = total F keys + total G keys.
Proof.
  unfold total. induction keys as [ | k keys IH]; cbn; [ reflexivity | ]. rewrite IH. lia.
Qed.

Lemma total_ext (F G : K -> Z) (keys : list K) :
  (forall k, F k = G k) -> total F keys = total G keys.
Proof.
  intros H. unfold total. induction keys as [ | k keys IH]; cbn; [ reflexivity | ].
  now rewrite IH, H.
Qed.

(** Summing a column group by group gives the sum of the column. *)
Lemma total_by_group (keys : list K) (rows : list A) :
  NoDup keys ->
  (forall r, In r rows -> In (key r) keys) ->
  total (fun k => total col (filter (fun r => eqb (key r) k) rows)) keys
  = total col rows.
Proof.
  intros Hnd. induction rows as [ | r rows IH]; intros Hin.
  - unfold total. cbn [filter map fold_right]. clear Hin Hnd.
    induction keys as [ | k keys IHk]; cbn; [ reflexivity | now rewrite IHk ].
  - specialize (IH (fun x Hx => Hin x (or_intror Hx))).
    rewrite (total_ext _ (fun k => (if eqb (key r) k then col r else 0)
                                   + total col (filter (fun r => eqb (key r) k) rows))).
    + rewrite total_add, IH, total_indicator; trivial.
      apply Hin. now left.
    + intros k. cbn [filter]. destruct (eqb (key r) k); unfold total;
        cbn [map fold_right]; lia.
Qed.

End Partition.

(** The rows of [d_agg], key by key. *)
Lemma aggregate_demand_rows (demand : list Etl.DemandRow) (minutes : Z)
    (d_agg : list Etl.DemandAgg) :
  Etl.aggregate_demand demand minutes = Ok d_agg ->
  Forall2 (fun k row =>
             Etl.agg_key row = k
             /\ Etl.agg_offered_contacts row
                = Pd.int_sum (map Etl.offered_contacts (Etl.demand_group minutes demand k))
             /\ Etl.agg_handled_contacts row
                = Pd.int_sum (map Etl.handled_contacts (Etl.demand_group minutes demand k))
             /\ Etl.agg_abandoned_contacts row
                = Pd.int_sum (map Etl.abandoned_contacts
                                (Etl.demand_group minutes demand k)))
    (Etl.group_keys (map (Etl.demand_key minutes) demand)) d_agg.
Proof.
  intros H. apply map_result_ok in H. eapply Forall2_impl; [ | exact H ].
  intros k row. cbv beta zeta.
  destruct (Pd.average _ _) as [aht | ]; cbn [bind]; [ | discriminate ].
  intros [= <-]. cbn. auto.
Qed.

Lemma total_of_groups (col : Etl.DemandRow -> Z) (agg : Etl.DemandAgg -> Z)
    (demand : list Etl.DemandRow) (minutes : Z) (keys : list Etl.Key)
    (d_agg : list Etl.DemandAgg) :
  (forall r, In r demand -> 0 <= col r) ->
  total col demand < 2 ^ 63 ->
  Forall2 (fun k row => agg row = Pd.int_sum (map col (Etl.demand_group minutes demand k)))
    keys d_agg ->
  total agg d_agg
  = total (fun k => total col (filter (fun r => Etl.key_eqb (Etl.demand_key minutes r) k)
                                 demand)) keys.
Proof.
  intros Hpos Hlt H. unfold total at 1 2.
  induction H as [ | k row keys d_agg Hrow _ IH]; cbn [map fold_right]; [ reflexivity | ].
  rewrite IH, Hrow. f_equal. unfold Etl.demand_group. apply int_sum_total.
  pose proof (total_filter_bounds _ col
                (fun r => Etl.key_eqb (Etl.demand_key minutes r) k) demand Hpos).
  lia.
Qed.

(** X19: aggregation conserves the contacts: when the counts are not
    negative and their sums fit a 64-bit int, the offered, handled and
    abandoned contacts of the aggregated buckets add up to those of the
    base rows (every row falls in exactly one bucket). *)
Theorem aggregation_conserves_contacts (demand : list Etl.DemandRow) (minutes : Z)
    (d_agg : list Etl.DemandAgg) :
  0 < minutes ->
  Etl.aggregate_demand demand minutes = Ok d_agg ->
  (forall r, In r demand ->
     0 <= Etl.offered_contacts r /\ 0 <= Etl.handled_contacts r
     /\ 0 <= Etl.abandoned_contacts r) ->
  total Etl.offered_contacts demand < 2 ^ 63 ->
  total Etl.handled_contacts demand < 2 ^ 63 ->
  total Etl.abandoned_contacts demand < 2 ^ 63 ->
  total Etl.agg_offered_contacts d_agg = total Etl.offered_contacts demand
  /\ total Etl.agg_handled_contacts d_agg = total Etl.handled_contacts demand
  /\ total Etl.agg_abandoned_contacts d_agg = total Etl.abandoned_contacts demand.
Proof.
  intros _ Hagg Hpos Ho Hh Ha. apply aggregate_demand_rows in Hagg.
  set (keys := Etl.group_keys (map (Etl.demand_key minutes) demand)) in *.
  assert (Hnd : NoDup keys) by apply etl_group_keys_NoDup.
  assert (Hin : forall r, In r demand -> In (Etl.demand_key minutes r) keys).
  { intros r Hr. apply etl_group_keys_In. now apply in_map. }
  split; [ | split ].
  - rewrite (total_of_groups Etl.offered_contacts _ demand minutes keys); trivial.
    + now apply (total_by_group _ _ Etl.key_eqb (Etl.demand_key minutes) _ etl_key_eqb_eq).
    + intros r Hr. now apply Hpos.
    + eapply Forall2_impl; [ | exact Hagg ]. cbv beta. tauto.
  - rewrite (total_of_groups Etl.handled_contacts _ demand minutes keys); trivial.
    + now apply (total_by_group _ _ Etl.key_eqb (Etl.demand_key minutes) _ etl_key_eqb_eq).
    + intros r Hr. now apply Hpos.
    + eapply Forall2_impl; [ | exact Hagg ]. cbv beta. tauto.
  - rewrite (total_of_groups Etl.abandoned_contacts _ demand minutes keys); trivial.
    + now apply (total_by_group _ _ Etl.key_eqb (Etl.demand_key minutes) _ etl_key_eqb_eq).
    + intros r Hr. now apply Hpos.
    + eapply Forall2_impl; [ | exact Hagg ]. cbv beta. tauto.
Qed.

Lemma aggregation_conserves_contacts_witness :
  let demand :=
    [ Etl.mkDemandRow 0 "email" "support_email" 5 5 0 600 86400;
      Etl.mkDemandRow 15 "voice" "billing" 7 6 1 700 20;
      Etl.mkDemandRow 30 "email" "support_email" 1 1 0 100 86400;
      Etl.mkDemandRow 45 "voice" "billing" 4 4 0 500 20 ] in
  let d_agg :=
    [ Etl.mkDemandAgg (0, "email", "support_email") 6 6 0 516.66666666666663 86400;
      Etl.mkDemandAgg (0, "voice", "billing") 11 10 1 620 20 ] in
  Etl.aggregate_demand demand 60 = Ok d_agg
  /\ total Etl.agg_offered_contacts d_agg = total Etl.offered_contacts demand
  /\ total Etl.agg_handled_contacts d_agg = total Etl.handled_contacts demand
  /\ total Etl.agg_abandoned_contacts d_agg = total Etl.abandoned_contacts demand.
Proof.
  intros demand d_agg.
  assert (H : Etl.aggregate_demand demand 60 = Ok d_agg) by (vm_compute; reflexivity).
  split; [ exact H | ].
  apply (aggregation_conserves_contacts demand 60 d_agg ltac:(lia) H).
  - intros r [<- | [<- | [<- | [<- | []]]]]; cbn; lia.
  - vm_compute. reflexivity.
  - vm_compute. reflexivity.
  - vm_compute. reflexivity.
Defined.

(** ** wfm_math.py: the contracts of the queueing functions and of the solvers *)

(** The fields of the record that [erlang_metrics] returns. *)
Lemma metrics_fields (math_exp : float -> result float) (contacts : float)
    (interval_seconds : Z) (aht : float) (n : Z) (threshold : float) (r : ErlangResult) :
  erlang_metrics math_exp contacts interval_seconds aht n threshold = Ok r ->
  traffic_of contacts interval_seconds aht = Ok (traffic_erlangs r)
  /\ agents r = n
  /\ in_unit_interval (prob_wait r)
  /\ (asa_seconds r <? 0)%float = false
  /\ in_unit_interval (service_level r).
Proof.
  unfold erlang_metrics.
  destruct (traffic_of contacts interval_seconds aht) as [traffic | ]; cbn [bind];
    [ | discriminate ].
  destruct (erlang_c_prob_wait traffic n) as [pw | ] eqn:Hpw; cbn [bind]; [ | discriminate ].
  destruct (erlang_c_asa_seconds traffic n aht) as [asa | ] eqn:Hasa; cbn [bind];
    [ | discriminate ].
  destruct (erlang_c_service_level math_exp traffic n aht threshold) as [sl | ] eqn:Hsl;
    cbn [bind]; [ | discriminate ].
  intros [= <-]. cbn. split; [ reflexivity | ]. split; [ reflexivity | ].
  split; [ exact (prob_wait_is_probability _ _ _ Hpw) | ].
  split; [ exact (asa_seconds_not_negative _ _ _ _ Hasa) | ].
  exact (service_level_is_probability _ _ _ _ _ _ Hsl).
Qed.

(** X2: whatever the load, the agent count, the handle time and the
    threshold are, a wait probability or a service level that is returned
    is a float between 0 and 1 (so not a NaN), and an average speed of
    answer that is returned is not negative; the record that
    [erlang_c_summary] returns holds such values, for the agent count it
    was asked about. *)
Theorem queueing_results_are_valid (math_exp : float -> result float)
    (a : float) (n : Z) (aht threshold : float) :
  (forall p, erlang_c_prob_wait a n = Ok p -> in_unit_interval p)
  /\ (forall v, erlang_c_asa_seconds a n aht = Ok v -> (v <? 0)%float = false)
  /\ (forall p, erlang_c_service_level math_exp a n aht threshold = Ok p ->
        in_unit_interval p)
  /\ (forall contacts interval_seconds r,
        erlang_c_summary math_exp contacts interval_seconds aht n threshold = Ok r ->
        agents r = n
        /\ in_unit_interval (prob_wait r)
        /\ (asa_seconds r <? 0)%float = false
        /\ in_unit_interval (service_level r)).
Proof.
  split; [ | split; [ | split ] ].
  - apply prob_wait_is_probability.
  - apply asa_seconds_not_negative.
  - apply service_level_is_probability.
  - intros contacts interval_seconds r H. now apply metrics_fields in H.
Qed.

Lemma queueing_results_are_valid_witness :
  erlang_c_summary Libm.exp 100 3600 300 12 20
  = Ok (mkErlangResult 8.3333333333333339 12 0.17597311657967396 14.397800447427871
          0.86218850236466171)
  /\ in_unit_interval 0.17597311657967396
  /\ (14.397800447427871 <? 0)%float = false
  /\ in_unit_interval 0.86218850236466171.
Proof.
  assert (H : erlang_c_summary Libm.exp 100 3600 300 12 20
              = Ok (mkErlangResult 8.3333333333333339 12 0.17597311657967396
                      14.397800447427871 0.86218850236466171))
    by (vm_compute; reflexivity).
  split; [ exact H | ].
  exact (proj2 (proj2 (proj2 (proj2 (queueing_results_are_valid Libm.exp 0 12 300 20)))
                  100%float 3600 _ H)).
Defined.

(** X1: what [required_agents_realtime] returns.  The available agents
    are between 1 and 500: either the first count from [max(1, ceil(traffic))]
    on whose service level reaches the target, every count before it
    having missed it, or 500 when every count up to 500 missed it.  The
    scheduled agents are the available ones grossed up by the clamped
    shrinkage, and not negative. *)
Theorem realtime_solver_contract (math_exp : float -> result float)
    (contacts : float) (interval_seconds : Z)
    (aht threshold target shrinkage_rate : float) (res : StaffingResult) :
  required_agents_realtime math_exp contacts interval_seconds aht threshold target
    shrinkage_rate = Ok res ->
  1 <= available_agents res <= 500
  /\ scheduled_from_available (available_agents res) shrinkage_rate
     = Ok (scheduled_agents res)
  /\ 0 <= scheduled_agents res
  /\ exists traffic c,
       traffic_of contacts interval_seconds aht = Ok traffic
       /\ math_ceil traffic = Ok c
       /\ ((Z.max 1 c <= available_agents res
            /\ (exists v,
                  erlang_c_service_level math_exp traffic (available_agents res) aht
                    threshold = Ok v
                  /\ (target <=? v)%float = true)
            /\ forall m, Z.max 1 c <= m < available_agents res ->
                         misses math_exp traffic aht threshold target m)
           \/ (available_agents res = 500
               /\ forall m, Z.max 1 c <= m <= 500 ->
                            misses math_exp traffic aht threshold target m)).
Proof.
  unfold required_agents_realtime.
  destruct (required_agents_for_sla _ _ _ _ _ _ _) as [n | ] eqn:Hn; cbn [bind];
    [ | discriminate ].
  destruct (scheduled_from_available n shrinkage_rate) as [s | ] eqn:Hs; cbn [bind];
    [ | discriminate ].
  intros [= <-]. cbn [available_agents scheduled_agents].
  apply required_agents_for_sla_returns in Hn.
  destruct Hn as (traffic & c & Ht & Hc & Hcases). unfold default_max_agents in Hcases.
  assert (Hrange : 1 <= n <= 500) by (destruct Hcases as [[H _] | [-> _]]; lia).
  split; [ exact Hrange | ]. split; [ exact Hs | ].
  split; [ apply (scheduled_not_negative n shrinkage_rate s); trivial; lia | ].
  exists traffic, c. split; [ exact Ht | ]. split; [ exact Hc | ].
  destruct Hcases as [(H1 & H2 & H3) | (H1 & H2)].
  - left. split; [ lia | ]. split; trivial.
  - right. split; trivial.
Qed.

Lemma realtime_solver_contract_witness :
  required_agents_realtime Libm.exp 100 3600 300 20 0.8 0.3
  = Ok (mkStaffingResult 12 18)
  /\ 1 <= 12 <= 500
  /\ scheduled_from_available 12 0.3 = Ok 18.
Proof.
  assert (H : required_agents_realtime Libm.exp 100 3600 300 20 0.8 0.3
              = Ok (mkStaffingResult 12 18)) by (vm_compute; reflexivity).
  split; [ exact H | ].
  pose proof (realtime_solver_contract Libm.exp 100 3600 300 20 0.8 0.3 _ H) as C.
  split; [ exact (proj1 C) | exact (proj1 (proj2 C)) ].
Defined.

(** X7: what [required_agents_throughput] returns for a workload that
    is not negative: the available agents are not negative, the
    scheduled agents are the available ones grossed up by the clamped
    shrinkage, and not negative either. *)
Theorem throughput_solver_contract (contacts : float) (interval_seconds : Z)
    (aht shrinkage_rate productivity : float) (res : StaffingResult) :
  interval_seconds < 2 ^ 53 ->
  (contacts <? 0)%float = false ->
  (aht <? 0)%float = false ->
  required_agents_throughput contacts interval_seconds aht shrinkage_rate productivity
  = Ok res ->
  0 <= available_agents res
  /\ scheduled_from_available (available_agents res) shrinkage_rate
     = Ok (scheduled_agents res)
  /\ (available_agents res < 2 ^ 53 -> 0 <= scheduled_agents res).
Proof.
  intros Hi Hc Haht. unfold required_agents_throughput, traffic_of.
  destruct (float_of_int_small (Z.max 1 interval_seconds) ltac:(lia)) as [-> Hd].
  cbn [bind]. rewrite (truediv_pos _ _ Hd). cbn [bind].
  assert (Hprod : (0 <? max 0.1 productivity)%float = true) by (now apply max_pos).
  rewrite (truediv_pos _ _ Hprod). cbn [bind].
  destruct (math_ceil _) as [n | ] eqn:Hn; cbn [bind]; [ | discriminate ].
  destruct (scheduled_from_available n shrinkage_rate) as [s | ] eqn:Hs; cbn [bind];
    [ | discriminate ].
  intros [= <-]. cbn [available_agents scheduled_agents].
  assert (H0 : 0 <= n).
  { refine (ceil_not_neg _ _ _ Hn).
    apply div_not_neg; trivial. apply div_not_neg; trivial. now apply mul_not_neg. }
  split; [ exact H0 | ]. split; [ exact Hs | ].
  intros Hsmall. apply (scheduled_not_negative n shrinkage_rate s); trivial. lia.
Qed.

Lemma throughput_solver_contract_witness :
  required_agents_throughput 100 3600 300 0.3 0.82 = Ok (mkStaffingResult 11 16)
  /\ 0 <= 11
  /\ scheduled_from_available 11 0.3 = Ok 16.
Proof.
  assert (H : required_agents_throughput 100 3600 300 0.3 0.82
              = Ok (mkStaffingResult 11 16)) by (vm_compute; reflexivity).
  split; [ exact H | ].
  pose proof (throughput_solver_contract 100 3600 300 0.3 0.82 _ ltac:(lia) eq_refl
                eq_refl H) as C.
  split; [ exact (proj1 C) | exact (proj1 (proj2 C)) ].
Defined.

(** ** generate_sample_data.py: the rows that are written *)

(** X9: every interval the generator plans holds counts that are not
    negative (contacts handled, agents scheduled, agents available), a
    service level of at most 1 (never a NaN) and an answer time that is
    not negative; on a real-time channel the service level is a
    probability, on the email channel the answer time is 0. *)
Theorem generated_interval_is_valid (math_exp : float -> result float)
    (cfg : Generator.ChannelConfig) (d : Generator.Draws) (row : Generator.Interval) :
  Generator.plan_interval math_exp cfg d = Ok row ->
  0 <= Generator.handled_contacts row
  /\ 0 <= Generator.agents_scheduled row
  /\ 0 <= Generator.agents_available row
  /\ (Generator.service_level row <=? 1)%float = true
  /\ (Generator.asa_seconds row <? 0)%float = false
  /\ (if Generator.is_realtime cfg
      then in_unit_interval (Generator.service_level row)
      else Generator.asa_seconds row = 0%float).
Proof.
  unfold Generator.plan_interval.
  match goal with |- (bind ?c _) = _ -> _ => destruct c as [req | ] end;
    cbn [bind]; [ | discriminate ].
  destruct (float_of_int _) as [nf | ]; cbn [bind]; [ | discriminate ].
  destruct (Builtins.round _) as [rounded | ]; cbn [bind]; [ | discriminate ].
  destruct (float_of_int (Z.max 0 rounded)) as [sf | ]; cbn [bind]; [ | discriminate ].
  destruct (math_floor _) as [floored | ]; cbn [bind]; [ | discriminate ].
  destruct (Generator.is_realtime cfg).
  - rewrite generator_summary_call.
    destruct (float_of_int _) as [c | ]; cbn [bind]; [ | discriminate ].
    destruct (float_of_int _) as [t | ]; cbn [bind]; [ | discriminate ].
    destruct (erlang_c_summary _ _ _ _ _ _) as [summary | ] eqn:Hsum; cbn [bind];
      [ | discriminate ].
    intros [= <-]. cbn.
    apply metrics_fields in Hsum. destruct Hsum as (_ & _ & _ & Hasa & Hsl).
    destruct Hsl as [Hsl0 Hsl1]. repeat (split; [ lia || trivial | ]); trivial.
  - destruct (float_of_int _) as [n | ]; cbn [bind]; [ | discriminate ].
    destruct (truediv n _) as [capacity | ]; cbn [bind]; [ | discriminate ].
    destruct (Z.max 0 (Generator.offered d - Generator.abandoned d) =? 0).
    + cbn [bind]. intros [= <-]. cbn. repeat (split; [ lia || reflexivity | ]).
      reflexivity.
    + destruct (float_of_int _) as [hf | ]; cbn [bind]; [ | discriminate ].
      destruct (truediv capacity hf) as [q | ]; cbn [bind]; [ | discriminate ].
      intros [= <-]. cbn.
      repeat (split; [ lia || reflexivity || apply min_one_le | ]). reflexivity.
Qed.

Lemma generated_interval_is_valid_witness :
  let voice :=
    Generator.mkChannelConfig "voice" [ "billing" ] 20 [ ("billing", 18%float) ] 24
      [ ("billing", 420%float) ] in
  let row := Generator.mkInterval 19 20 14 8.2466806274834425 0.9249165341510267 in
  Generator.plan_interval Libm.exp voice (Generator.mkDraws 20 430 1 0.28 1.03) = Ok row
  /\ in_unit_interval (Generator.service_level row).
Proof.
  intros voice row.
  assert (H : Generator.plan_interval Libm.exp voice (Generator.mkDraws 20 430 1 0.28 1.03)
              = Ok row) by (vm_compute; reflexivity).
  split; [ exact H | ].
  exact (proj2 (proj2 (proj2 (proj2 (proj2
           (generated_interval_is_valid Libm.exp voice _ row H)))))).
Defined.

(** ** The forecaster: training days and calendar days *)

(** The daily resample has one row per calendar day from the first
    training day to the last. *)
Lemma daily_totals_length (r : ContactRow) (df : list ContactRow) :
  let days := map (fun r => day_of (interval_start r)) df in
  let first := fold_left Z.min days (day_of (interval_start r)) in
  let last := fold_left Z.max days (day_of (interval_start r)) in
  List.length (daily_totals (r :: df)) = Z.to_nat (last + 1 - first).
Proof.
  cbv zeta. unfold daily_totals. cbn [map].
  rewrite length_map. unfold range. now rewrite length_map, length_seq.
Qed.

Lemma fold_min_bounds (ts : list Z) (t : Z) :
  forall x, In x (t :: ts) -> fold_left Z.min ts t <= x.
Proof.
  revert t. induction ts as [ | u ts IH]; intros t x; cbn [fold_left].
  - intros [<- | []]. lia.
  - intros [<- | [<- | Hx]].
    + specialize (IH (Z.min t u) (Z.min t u) (or_introl eq_refl)). lia.
    + specialize (IH (Z.min t u) (Z.min u t) (or_introl (Z.min_comm t u))). lia.
    + apply IH. now right.
Qed.

(** The daily resample holds a row for every training day, and one for
    every day without rows between two of them. *)
Lemma training_days_spanned (series_df : list ContactRow) :
  (List.length (training_days series_df) <= List.length (daily_totals series_df))%nat.
Proof.
  unfold training_days, daily_totals.
  destruct (map (fun r => day_of (interval_start r)) series_df) as [ | d ds].
  - cbn. lia.
  - rewrite length_map. apply NoDup_incl_length; [ apply NoDup_nodup | ].
    intros x Hx. apply nodup_In in Hx. apply range_In.
    pose proof (fold_min_bounds ds d x Hx) as Hmin.
    destruct (fold_max_bounds ds d) as [Hmax _]. specialize (Hmax x Hx). lia.
Qed.

(** C9, as amended: when the daily resample has fewer than 7 rows (the
    calendar days from the first to the last training day, a day without
    rows included), the series has fewer than 7 training days and the fitted
    trend is flat: slope 0, and the intercept is the mean of the daily
    totals of those calendar days, a day without rows counting as 0; the
    intercept is 0 without any training row. *)
Theorem short_series_flat_trend (series_df : list ContactRow) (interval_minutes : Z) :
  (List.length (daily_totals series_df) < 7)%nat ->
  let model := _fit_profile_and_trend series_df interval_minutes in
  (List.length (training_days series_df) < 7)%nat
  /\ trend_slope model = 0%float
  /\ trend_intercept model
     = match daily_totals series_df with
       | [] => 0%float
       | _ :: _ => Np.series_mean (daily_totals series_df)
       end.
Proof.
  intros Hlen. cbv zeta.
  split; [ pose proof (training_days_spanned series_df); lia | ].
  unfold _fit_profile_and_trend. cbn [trend_slope trend_intercept].
  apply Nat.leb_gt in Hlen. rewrite Hlen. cbn [fst snd].
  split; [ reflexivity | ].
  now destruct (daily_totals series_df).
Qed.

(** Three training days within four calendar days: the day without rows
    counts as a daily total of 0 in the intercept. *)
Lemma short_series_flat_trend_witness :
  let series_df :=
    [ mkContactRow 0 10; mkContactRow 60 20; mkContactRow 1440 40;
      mkContactRow 4320 50 ] in
  let model := _fit_profile_and_trend series_df 60 in
  daily_totals series_df = [30; 40; 0; 50]%float
  /\ (List.length (training_days series_df) < 7)%nat
  /\ trend_slope model = 0%float
  /\ trend_intercept model = 30%float.
Proof.
  cbv zeta. split; [ vm_compute; reflexivity | ].
  pose proof (short_series_flat_trend
                [ mkContactRow 0 10; mkContactRow 60 20; mkContactRow 1440 40;
                  mkContactRow 4320 50 ] 60) as H.
  cbv zeta in H. destruct H as (Hdays & Hslope & Hintercept).
  - vm_compute. lia.
  - split; [ exact Hdays | ]. split; [ exact Hslope | ].
    rewrite Hintercept. vm_compute. reflexivity.
Defined.

(** C9, as stated, fails for training days counted as the days that have
    rows.  Two training days six days apart span 7 calendar days, so the
    least-squares branch runs: the daily totals 7, 0, 0, 0, 0, 0, 35 are
    fitted with slope 3 and intercept -3.  And where the trend is flat, on
    three training days within four calendar days, the intercept is 30, the
    mean over the four calendar days, while the mean daily total of the
    three training days is 40. *)
Lemma short_series_flat_trend_counterexample :
  let two_days := [ mkContactRow 0 7; mkContactRow 8640 35 ] in
  let three_days :=
    [ mkContactRow 0 10; mkContactRow 60 20; mkContactRow 1440 40;
      mkContactRow 4320 50 ] in
  training_days two_days = [0; 6]
  /\ daily_totals two_days = [7; 0; 0; 0; 0; 0; 35]%float
  /\ trend_slope (_fit_profile_and_trend two_days 60) = 3%float
  /\ trend_intercept (_fit_profile_and_trend two_days 60) = (-3)%float
  /\ training_days three_days = [0; 1; 3]
  /\ mean_training_day_total three_days = 40%float
  /\ trend_slope (_fit_profile_and_trend three_days 60) = 0%float
  /\ trend_intercept (_fit_profile_and_trend three_days 60) = 30%float.
Proof. cbv zeta. repeat split; vm_compute; reflexivity. Qed.

(** ** Projection: the day index *)












(** The same on models given directly: an infinite slope times the day
    index 0 is a NaN, and so is 0 times an infinite scaling. *)
Example projection_of_a_non_finite_trend :
  let index := [ 10080; 10140; 10200; 11520 ] in
  daily_total (mkSeriesModel [ (3, 0, 10%float) ] infinity 30 35) index 10080 = nan
  /\ forecast_at (mkSeriesModel [ (3, 0, 10%float) ] 0 infinity 35) index 60 10200 = nan.
Proof. split; vm_compute; reflexivity. Qed.
